(** * PMBus peek: the protocol engine of [pmbus_peek.c]

    A shallow embedding of the transport, the QUERY negotiation, the
    COEFFICIENTS exchange, the value decoders and the reporting loops of
    [pmbus_peek.c], followed by the properties established about them.

    Conventions.
    - C integers are [Z]; every narrowing conversion is written out
      ([u8], [u16], [s8], [s16]), bit operations are [Z.land], [Z.lor],
      [Z.shiftl] and [Z.shiftr].
    - The bus is an oracle: the answer to an [ioctl] may depend on every
      transaction made so far, and each transaction is appended to a log.
    - Code that mutates [pmdev] or the [pmbus_ops] table threads one
      [world]; dereferencing a null pointer or leaving an array is the
      outcome [Fault].
    - [double] is IEEE binary64 ([PrimFloat.float]).  The decoders are
      written once over the arithmetic interface [DoubleOps], so that the
      same text is also read over the rationals.
    - [printf] output is reduced to the data it prints ([output]). *)

From Stdlib Require Import ZArith QArith Qpower Qfield Bool List String Lia.
From Stdlib Require Import PrimFloat Uint63.
From stdpp Require Import base option list gmap.

Local Open Scope Z_scope.
Unset Default Proof Using.

(* ================================================================== *)
(** ** Integer conversions *)

Definition u8 (z : Z) : Z := z mod 256.
Definition u16 (z : Z) : Z := z mod 65536.
Definition s8 (z : Z) : Z := if u8 z <? 128 then u8 z else u8 z - 256.
Definition s16 (z : Z) : Z := if u16 z <? 32768 then u16 z else u16 z - 65536.

(** C truth value of an integer expression. *)
Definition truthy (z : Z) : bool := negb (z =? 0).

(* ================================================================== *)
(** ** Constants of <errno.h> and <linux/i2c.h> (Linux values) *)

Definition E2BIG : Z := 7.
Definition EINVAL : Z := 22.
Definition EFBIG : Z := 27.
Definition ENOSYS : Z := 38.
Definition EOPNOTSUPP : Z := 95.

Definition I2C_FUNC_I2C : Z := 0x00000001.
Definition I2C_FUNC_SMBUS_PEC : Z := 0x00000008.
Definition I2C_FUNC_SMBUS_BLOCK_PROC_CALL : Z := 0x00008000.
Definition I2C_FUNC_SMBUS_QUICK : Z := 0x00010000.
Definition I2C_FUNC_SMBUS_READ_BLOCK_DATA : Z := 0x01000000.
Definition I2C_SMBUS_BLOCK_MAX : Z := 32.

(* ================================================================== *)
(** ** Command descriptors *)

Inductive pmbus_cmd_type :=
  | T_UNDEF | RW1 | RW2 | RWB | RWB14 | RWP_QUERY | RWP_COEFF
  | RWB_APP_PROFILE | W0 | W1 | R1 | R2.

Inductive pmbus_unit_type :=
  | U_UNDEF | VOLTS | AMPERES | MILLISECONDS | DEGREES_C | WATTS | BITS
  | STRING.

Record pmbus_coefficients := {
  c_valid : Z;
  c_R : Z;          (* s8 *)
  c_m : Z;          (* s16 *)
  c_b : Z           (* s16 *)
}.

Record pmbus_cmd_desc := {
  tag : option string;      (* None is the null tag of the terminator *)
  cmd : Z;                  (* u16 *)
  type : pmbus_cmd_type;
  units : pmbus_unit_type;
  flags : Z;
  query_byte : Z;           (* field [query], from the device *)
  c0 : pmbus_coefficients;  (* c[0], write direction *)
  c1 : pmbus_coefficients   (* c[1], read direction *)
}.

Definition PMB_CLEAR_FAULT : Z := 0x03.
Definition PMB_CAPABILITY : Z := 0x19.
Definition PMB_QUERY : Z := 0x1a.
Definition PMB_VOUT_MODE : Z := 0x20.
Definition PMB_COEFFICIENTS : Z := 0x30.
Definition PMB_STATUS_BYTE : Z := 0x78.
Definition PMB_STATUS_WORD : Z := 0x79.
Definition PMB_STATUS_VOUT : Z := 0x7a.
Definition PMB_STATUS_IOUT : Z := 0x7b.
Definition PMB_STATUS_INPUT : Z := 0x7c.
Definition PMB_STATUS_TEMPERATURE : Z := 0x7d.
Definition PMB_STATUS_CML : Z := 0x7e.
Definition PMB_STATUS_OTHER : Z := 0x7f.
Definition PMB_STATUS_MFR_SPECIFIC : Z := 0x80.
Definition PMB_STATUS_FANS_1_2 : Z := 0x81.
Definition PMB_STATUS_FANS_3_4 : Z := 0x82.
Definition PMB_PMBUS_REVISION : Z := 0x98.
Definition PMB_MFR_ID : Z := 0x99.
Definition PMB_MFR_MODEL : Z := 0x9a.
Definition PMB_MFR_REVISION : Z := 0x9b.
Definition PMB_MFR_LOCATION : Z := 0x9c.
Definition PMB_MFR_DATE : Z := 0x9d.
Definition PMB_MFR_SERIAL : Z := 0x9e.
Definition PMB_APP_PROFILES : Z := 0x9f.
Definition PMB_IC_DEVICE_ID : Z := 0xad.
Definition PMB_IC_DEVICE_REV : Z := 0xae.
Definition PMB_USER_DATA (x : Z) : Z := 0xb0 + x.
Definition PMB_MFR_SPECIFIC (x : Z) : Z := 0xd0 + x.

Definition FLG_SHOW_P1 : Z := 1.
Definition FLG_STATUS : Z := 2.
Definition FLG_FORMAT_VOUT : Z := 4.

Definition is_pmb_8bit (cmd : Z) : bool :=
  (Z.land cmd 0xff00 =? 0) && negb (Z.land cmd 0xfe =? 0xfe).

Definition is_pmb_extended (cmd : Z) : bool :=
  Z.land cmd 0xfe00 =? 0xfe00.

Definition no_coefficients : pmbus_coefficients :=
  {| c_valid := 0; c_R := 0; c_m := 0; c_b := 0 |}.

(** One initialiser of the table: the fields not named are zero. *)
Definition OP (code : Z) (name : string) (t : pmbus_cmd_type)
    (u : pmbus_unit_type) (f : Z) : pmbus_cmd_desc :=
  {| tag := Some name; cmd := code; type := t; units := u; flags := f;
     query_byte := 0; c0 := no_coefficients; c1 := no_coefficients |}.

Definition TERMINATOR : pmbus_cmd_desc :=
  {| tag := None; cmd := 0; type := T_UNDEF; units := U_UNDEF; flags := 0;
     query_byte := 0; c0 := no_coefficients; c1 := no_coefficients |}.

(** The initial contents of [pmbus_ops[]], in the order of the source. *)
Definition pmbus_ops_static : list pmbus_cmd_desc := [
  OP 0x00 "page" RW1 U_UNDEF 0;
  OP 0x01 "operation" RW1 U_UNDEF 0;
  OP 0x02 "on_off_config" RW1 U_UNDEF 0;
  OP PMB_CLEAR_FAULT "clear_fault" W0 U_UNDEF 0;
  OP 0x04 "phase" RW1 U_UNDEF 0;
  OP 0x05 "page_plus_write" RWB U_UNDEF 0;
  OP 0x05 "page_plus_read" RWB U_UNDEF 0;
  OP 0x10 "write_protect" RW1 U_UNDEF 0;
  OP 0x11 "store_default_all" W0 U_UNDEF 0;
  OP 0x12 "restore_default_all" W0 U_UNDEF 0;
  OP 0x13 "store_default_code" W1 U_UNDEF 0;
  OP 0x14 "restore_default_code" W1 U_UNDEF 0;
  OP 0x15 "store_user_all" W0 U_UNDEF 0;
  OP 0x16 "restore_user_all" W0 U_UNDEF 0;
  OP 0x17 "store_user_code" W1 U_UNDEF 0;
  OP 0x18 "restore_user_code" W1 U_UNDEF 0;
  OP PMB_CAPABILITY "capability" R1 U_UNDEF FLG_SHOW_P1;
  OP PMB_QUERY "query" RWP_QUERY U_UNDEF 0;
  OP 0x1b "smbalert_mask" RWB U_UNDEF 0;
  OP PMB_VOUT_MODE "vout_mode" RW1 U_UNDEF 0;
  OP 0x21 "vout_command" RW2 U_UNDEF 0;
  OP 0x22 "vout_trim" RW2 VOLTS 0;
  OP 0x23 "vout_cal_offset" RW2 VOLTS 0;
  OP 0x24 "vout_max" RW2 VOLTS FLG_FORMAT_VOUT;
  OP 0x25 "vout_margin_high" RW2 VOLTS FLG_FORMAT_VOUT;
  OP 0x26 "vout_margin_low" RW2 VOLTS FLG_FORMAT_VOUT;
  OP 0x27 "vout_transition_rate" RW2 U_UNDEF 0;
  OP 0x28 "vout_droop" RW2 U_UNDEF 0;
  OP 0x29 "vout_scale_loop" RW2 U_UNDEF 0;
  OP 0x2a "vout_scale_monitor" RW2 U_UNDEF 0;
  OP PMB_COEFFICIENTS "coefficients" RWP_COEFF U_UNDEF 0;
  OP 0x31 "pout_max" RW2 WATTS 0;
  OP 0x32 "max_duty" RW2 U_UNDEF 0;
  OP 0x33 "frequency_switch" RW2 U_UNDEF 0;
  OP 0x35 "vin_on" RW2 VOLTS 0;
  OP 0x36 "vin_off" RW2 VOLTS 0;
  OP 0x37 "interleave" RW2 U_UNDEF 0;
  OP 0x38 "iout_cal_gain" RW2 U_UNDEF 0;
  OP 0x39 "iout_cal_offset" RW2 AMPERES 0;
  OP 0x3a "fan_config_1_2" RW1 U_UNDEF 0;
  OP 0x3b "fan_command_1" RW2 U_UNDEF 0;
  OP 0x3c "fan_command_2" RW2 U_UNDEF 0;
  OP 0x3d "fan_config_3_4" RW1 U_UNDEF 0;
  OP 0x3e "fan_command_3" RW2 U_UNDEF 0;
  OP 0x3f "fan_command_4" RW2 U_UNDEF 0;
  OP 0x40 "vout_ov_fault_limit" RW2 VOLTS FLG_FORMAT_VOUT;
  OP 0x41 "vout_ov_fault_response" RW1 U_UNDEF 0;
  OP 0x42 "vout_ov_warn_limit" RW2 VOLTS FLG_FORMAT_VOUT;
  OP 0x43 "vout_uv_warn_limit" RW2 VOLTS FLG_FORMAT_VOUT;
  OP 0x44 "vout_uv_fault_limit" RW2 VOLTS FLG_FORMAT_VOUT;
  OP 0x45 "vout_uv_fault_response" RW1 U_UNDEF 0;
  OP 0x46 "iout_oc_fault_limit" RW2 AMPERES 0;
  OP 0x47 "iout_oc_fault_response" RW1 U_UNDEF 0;
  OP 0x48 "iout_oc_lv_fault_limit" RW2 VOLTS FLG_FORMAT_VOUT;
  OP 0x49 "iout_oc_lv_fault_response" RW1 U_UNDEF 0;
  OP 0x4a "iout_oc_warn_limit" RW2 AMPERES 0;
  OP 0x4b "iout_uc_fault_limit" RW2 AMPERES 0;
  OP 0x4c "iout_uc_fault_response" RW1 U_UNDEF 0;
  OP 0x4f "ot_fault_limit" RW2 DEGREES_C 0;
  OP 0x50 "ot_fault_response" RW1 U_UNDEF 0;
  OP 0x51 "ot_warn_limit" RW2 DEGREES_C 0;
  OP 0x52 "ut_warn_limit" RW2 DEGREES_C 0;
  OP 0x53 "ut_fault_limit" RW2 DEGREES_C 0;
  OP 0x54 "ut_fault_response" RW1 U_UNDEF 0;
  OP 0x55 "vin_ov_fault_limit" RW2 VOLTS 0;
  OP 0x56 "vin_ov_fault_response" RW1 U_UNDEF 0;
  OP 0x57 "vin_ov_warn_limit" RW2 VOLTS 0;
  OP 0x58 "vin_uv_warn_limit" RW2 VOLTS 0;
  OP 0x59 "vin_uv_fault_limit" RW2 VOLTS 0;
  OP 0x5a "vin_uv_fault_response" RW1 U_UNDEF 0;
  OP 0x5b "iin_oc_fault_limit" RW2 AMPERES 0;
  OP 0x5c "iin_oc_fault_response" RW1 U_UNDEF 0;
  OP 0x5d "iin_oc_warn_limit" RW2 AMPERES 0;
  OP 0x5e "power_good_on" RW2 VOLTS FLG_FORMAT_VOUT;
  OP 0x5f "power_good_off" RW2 VOLTS FLG_FORMAT_VOUT;
  OP 0x60 "ton_delay" RW2 MILLISECONDS 0;
  OP 0x61 "ton_rise" RW2 MILLISECONDS 0;
  OP 0x62 "ton_max_fault_limit" RW2 MILLISECONDS 0;
  OP 0x63 "ton_max_fault_response" RW1 U_UNDEF 0;
  OP 0x64 "toff_delay" RW2 MILLISECONDS 0;
  OP 0x65 "toff_fall" RW2 MILLISECONDS 0;
  OP 0x66 "toff_max_warn_limit" RW2 MILLISECONDS 0;
  OP 0x68 "pout_op_fault_limit" RW2 WATTS 0;
  OP 0x69 "pout_op_fault_response" RW1 U_UNDEF 0;
  OP 0x6a "pout_op_warn_limit" RW2 WATTS 0;
  OP 0x6b "pin_op_warn_limit" RW2 WATTS 0;
  OP PMB_STATUS_BYTE "status_byte" R1 U_UNDEF FLG_STATUS;
  OP PMB_STATUS_WORD "status_word" R2 BITS FLG_STATUS;
  OP PMB_STATUS_VOUT "status_vout" R1 U_UNDEF FLG_STATUS;
  OP PMB_STATUS_IOUT "status_iout" R1 U_UNDEF FLG_STATUS;
  OP PMB_STATUS_INPUT "status_input" R1 U_UNDEF FLG_STATUS;
  OP PMB_STATUS_TEMPERATURE "status_temperature" R1 U_UNDEF FLG_STATUS;
  OP PMB_STATUS_CML "status_cml" R1 U_UNDEF FLG_STATUS;
  OP PMB_STATUS_OTHER "status_other" R1 U_UNDEF FLG_STATUS;
  OP PMB_STATUS_MFR_SPECIFIC "status_mfr_specific" R1 U_UNDEF FLG_STATUS;
  OP PMB_STATUS_FANS_1_2 "status_fans_1_2" R1 U_UNDEF FLG_STATUS;
  OP PMB_STATUS_FANS_3_4 "status_fans_3_4" R1 U_UNDEF FLG_STATUS;
  OP 0x88 "read_vin" R2 VOLTS 0;
  OP 0x89 "read_iin" R2 AMPERES 0;
  OP 0x8a "read_vcap" R2 VOLTS 0;
  OP 0x8b "read_vout" R2 VOLTS FLG_FORMAT_VOUT;
  OP 0x8c "read_iout" R2 AMPERES 0;
  OP 0x8d "read_temperature_1" R2 DEGREES_C 0;
  OP 0x8e "read_temperature_2" R2 DEGREES_C 0;
  OP 0x8f "read_temperature_3" R2 DEGREES_C 0;
  OP 0x90 "read_fan_speed_1" R2 U_UNDEF 0;
  OP 0x91 "read_fan_speed_2" R2 U_UNDEF 0;
  OP 0x92 "read_fan_speed_3" R2 U_UNDEF 0;
  OP 0x93 "read_fan_speed_4" R2 U_UNDEF 0;
  OP 0x94 "read_duty_cycle" R2 U_UNDEF 0;
  OP 0x95 "read_frequency" R2 U_UNDEF 0;
  OP 0x96 "read_pout" R2 WATTS 0;
  OP 0x97 "read_pin" R2 WATTS 0;
  OP PMB_PMBUS_REVISION "pmbus_revision" R1 U_UNDEF FLG_SHOW_P1;
  OP PMB_MFR_ID "mfr_id" RWB STRING FLG_SHOW_P1;
  OP PMB_MFR_MODEL "mfr_model" RWB STRING FLG_SHOW_P1;
  OP PMB_MFR_REVISION "mfr_revision" RWB STRING FLG_SHOW_P1;
  OP PMB_MFR_LOCATION "mfr_location" RWB STRING FLG_SHOW_P1;
  OP PMB_MFR_DATE "mfr_date" RWB STRING FLG_SHOW_P1;
  OP PMB_MFR_SERIAL "mfr_serial" RWB STRING FLG_SHOW_P1;
  OP PMB_APP_PROFILES "app_profile_support" RWB_APP_PROFILE U_UNDEF FLG_SHOW_P1;
  OP 0xa0 "mfr_vin_min" R2 VOLTS 0;
  OP 0xa1 "mfr_vin_max" R2 VOLTS 0;
  OP 0xa2 "mfr_iin_max" R2 AMPERES 0;
  OP 0xa3 "mfr_pin_max" R2 WATTS 0;
  OP 0xa4 "mfr_vout_min" R2 VOLTS 0;
  OP 0xa5 "mfr_vout_max" R2 VOLTS 0;
  OP 0xa5 "mfr_iout_max" R2 AMPERES 0;
  OP 0xa7 "mfr_pout_max" R2 WATTS 0;
  OP 0xa8 "mfr_tambient_max" R2 DEGREES_C 0;
  OP 0xa9 "mfr_tambient_min" R2 DEGREES_C 0;
  OP 0xaa "mfr_efficiency_ll" RWB14 U_UNDEF 0;
  OP 0xab "mfr_efficiency_hl" RWB14 U_UNDEF 0;
  OP 0xac "mfr_pin_accuracy" R1 U_UNDEF 0;
  OP PMB_IC_DEVICE_ID "ic_device_id" RWB STRING FLG_SHOW_P1;
  OP PMB_IC_DEVICE_REV "ic_device_rev" RWB STRING FLG_SHOW_P1;
  OP (PMB_USER_DATA 0) "user_data_00" RWB U_UNDEF 0;
  OP (PMB_USER_DATA 1) "user_data_01" RWB U_UNDEF 0;
  OP (PMB_USER_DATA 2) "user_data_02" RWB U_UNDEF 0;
  OP (PMB_USER_DATA 3) "user_data_03" RWB U_UNDEF 0;
  OP (PMB_USER_DATA 4) "user_data_04" RWB U_UNDEF 0;
  OP (PMB_USER_DATA 5) "user_data_05" RWB U_UNDEF 0;
  OP (PMB_USER_DATA 6) "user_data_06" RWB U_UNDEF 0;
  OP (PMB_USER_DATA 7) "user_data_07" RWB U_UNDEF 0;
  OP (PMB_USER_DATA 8) "user_data_08" RWB U_UNDEF 0;
  OP (PMB_USER_DATA 9) "user_data_09" RWB U_UNDEF 0;
  OP (PMB_USER_DATA 10) "user_data_10" RWB U_UNDEF 0;
  OP (PMB_USER_DATA 11) "user_data_11" RWB U_UNDEF 0;
  OP (PMB_USER_DATA 12) "user_data_12" RWB U_UNDEF 0;
  OP (PMB_USER_DATA 13) "user_data_13" RWB U_UNDEF 0;
  OP (PMB_USER_DATA 14) "user_data_14" RWB U_UNDEF 0;
  OP (PMB_USER_DATA 15) "user_data_15" RWB U_UNDEF 0;
  OP 0xc0 "mfr_max_temp_1" RW2 DEGREES_C 0;
  OP 0xc1 "mfr_max_temp_1" RW2 DEGREES_C 0;
  OP 0xc2 "mfr_max_temp_1" RW2 DEGREES_C 0;
  OP (PMB_MFR_SPECIFIC 0) "mfr_specific_00" T_UNDEF U_UNDEF 0;
  OP (PMB_MFR_SPECIFIC 1) "mfr_specific_01" T_UNDEF U_UNDEF 0;
  OP (PMB_MFR_SPECIFIC 2) "mfr_specific_02" T_UNDEF U_UNDEF 0;
  OP (PMB_MFR_SPECIFIC 3) "mfr_specific_03" T_UNDEF U_UNDEF 0;
  OP (PMB_MFR_SPECIFIC 4) "mfr_specific_04" T_UNDEF U_UNDEF 0;
  OP (PMB_MFR_SPECIFIC 5) "mfr_specific_05" T_UNDEF U_UNDEF 0;
  OP (PMB_MFR_SPECIFIC 6) "mfr_specific_06" T_UNDEF U_UNDEF 0;
  OP (PMB_MFR_SPECIFIC 7) "mfr_specific_07" T_UNDEF U_UNDEF 0;
  OP (PMB_MFR_SPECIFIC 8) "mfr_specific_08" T_UNDEF U_UNDEF 0;
  OP (PMB_MFR_SPECIFIC 9) "mfr_specific_09" T_UNDEF U_UNDEF 0;
  OP (PMB_MFR_SPECIFIC 10) "mfr_specific_10" T_UNDEF U_UNDEF 0;
  OP (PMB_MFR_SPECIFIC 11) "mfr_specific_11" T_UNDEF U_UNDEF 0;
  OP (PMB_MFR_SPECIFIC 12) "mfr_specific_12" T_UNDEF U_UNDEF 0;
  OP (PMB_MFR_SPECIFIC 13) "mfr_specific_13" T_UNDEF U_UNDEF 0;
  OP (PMB_MFR_SPECIFIC 14) "mfr_specific_14" T_UNDEF U_UNDEF 0;
  OP (PMB_MFR_SPECIFIC 15) "mfr_specific_15" T_UNDEF U_UNDEF 0;
  OP (PMB_MFR_SPECIFIC 16) "mfr_specific_16" T_UNDEF U_UNDEF 0;
  OP (PMB_MFR_SPECIFIC 17) "mfr_specific_17" T_UNDEF U_UNDEF 0;
  OP (PMB_MFR_SPECIFIC 18) "mfr_specific_18" T_UNDEF U_UNDEF 0;
  OP (PMB_MFR_SPECIFIC 19) "mfr_specific_19" T_UNDEF U_UNDEF 0;
  OP (PMB_MFR_SPECIFIC 20) "mfr_specific_20" T_UNDEF U_UNDEF 0;
  OP (PMB_MFR_SPECIFIC 21) "mfr_specific_21" T_UNDEF U_UNDEF 0;
  OP (PMB_MFR_SPECIFIC 22) "mfr_specific_22" T_UNDEF U_UNDEF 0;
  OP (PMB_MFR_SPECIFIC 23) "mfr_specific_23" T_UNDEF U_UNDEF 0;
  OP (PMB_MFR_SPECIFIC 24) "mfr_specific_24" T_UNDEF U_UNDEF 0;
  OP (PMB_MFR_SPECIFIC 25) "mfr_specific_25" T_UNDEF U_UNDEF 0;
  OP (PMB_MFR_SPECIFIC 26) "mfr_specific_26" T_UNDEF U_UNDEF 0;
  OP (PMB_MFR_SPECIFIC 27) "mfr_specific_27" T_UNDEF U_UNDEF 0;
  OP (PMB_MFR_SPECIFIC 29) "mfr_specific_28" T_UNDEF U_UNDEF 0;
  OP (PMB_MFR_SPECIFIC 29) "mfr_specific_29" T_UNDEF U_UNDEF 0;
  OP (PMB_MFR_SPECIFIC 30) "mfr_specific_30" T_UNDEF U_UNDEF 0;
  OP (PMB_MFR_SPECIFIC 31) "mfr_specific_31" T_UNDEF U_UNDEF 0;
  OP (PMB_MFR_SPECIFIC 32) "mfr_specific_32" T_UNDEF U_UNDEF 0;
  OP (PMB_MFR_SPECIFIC 33) "mfr_specific_33" T_UNDEF U_UNDEF 0;
  OP (PMB_MFR_SPECIFIC 34) "mfr_specific_34" T_UNDEF U_UNDEF 0;
  OP (PMB_MFR_SPECIFIC 35) "mfr_specific_35" T_UNDEF U_UNDEF 0;
  OP (PMB_MFR_SPECIFIC 36) "mfr_specific_36" T_UNDEF U_UNDEF 0;
  OP (PMB_MFR_SPECIFIC 37) "mfr_specific_37" T_UNDEF U_UNDEF 0;
  OP (PMB_MFR_SPECIFIC 38) "mfr_specific_38" T_UNDEF U_UNDEF 0;
  OP (PMB_MFR_SPECIFIC 39) "mfr_specific_39" T_UNDEF U_UNDEF 0;
  OP (PMB_MFR_SPECIFIC 40) "mfr_specific_40" T_UNDEF U_UNDEF 0;
  OP (PMB_MFR_SPECIFIC 41) "mfr_specific_41" T_UNDEF U_UNDEF 0;
  OP (PMB_MFR_SPECIFIC 42) "mfr_specific_42" T_UNDEF U_UNDEF 0;
  OP (PMB_MFR_SPECIFIC 43) "mfr_specific_43" T_UNDEF U_UNDEF 0;
  OP (PMB_MFR_SPECIFIC 44) "mfr_specific_44" T_UNDEF U_UNDEF 0;
  OP (PMB_MFR_SPECIFIC 45) "mfr_specific_45" T_UNDEF U_UNDEF 0;
  OP 0xfe "mfr_specific_command_ext" T_UNDEF U_UNDEF 0;
  OP 0xff "pmbus_command_ext" T_UNDEF U_UNDEF 0;
  TERMINATOR ].

Definition unsupported : pmbus_cmd_desc :=
  OP 0 "UNSUPPORTED" T_UNDEF U_UNDEF 0.

(* ================================================================== *)
(** ** The bus and the world *)

(** A transaction handed to the adapter through [ioctl]. *)
Inductive request :=
  | I2C_PEC (on : bool)
  | I2C_SMBUS_QUICK (read_write : bool)
  | I2C_SMBUS_READ_BYTE_DATA (command : Z)
  | I2C_SMBUS_READ_WORD_DATA (command : Z)
  | I2C_SMBUS_READ_BLOCK_DATA (command : Z)
  | I2C_SMBUS_WRITE_BYTE (command : Z)
  | I2C_SMBUS_PROC_CALL (command : Z) (word : Z)
  | I2C_SMBUS_BLOCK_PROC_CALL (command : Z) (block : list Z)
  | I2C_RDWR (addr : Z) (wr : list Z) (rdlen : Z).

(** What [ioctl] reports: a failure with its [errno], or the bytes the
    adapter stored, in wire order (low byte first). *)
Inductive response :=
  | Failed (errno : positive)
  | Ok (data : list Z).

Definition transaction : Type := request * response.

(** [&unsupported] or [&pmbus_ops[i]]; the null pointer is the absence of
    a binding in [op]. *)
Inductive desc_ptr :=
  | PUnsupported
  | POp (i : nat).

Global Instance desc_ptr_eq_dec : EqDecision desc_ptr.
Proof. solve_decision. Defined.

Record pmbus_dev := {
  funcs : Z;
  addr : Z;
  revision : Z;
  capability : Z;
  no_query : bool;
  use_pec : bool;
  op : gmap Z desc_ptr          (* op[256]; a missing key is NULL *)
}.

(** The formats named by [pmbus_dev_show_commands]. *)
Inductive format :=
  | F_nodata | F_u8_bitmask | F_x16_vout_mode | F_u16_bitmask
  | F_s16_linear | F_s16_direct | F_u16_vid | F_x16_mfr | F_x16_unknown
  | F_block | F_process_call | F_app_profile | F_unknown_syntax.

(** What [pmbus_dev_show_values] prints after the raw word. *)
Inductive shown :=
  | S_vout (d : float)
  | S_bitmap
  | S_linear (d : float)
  | S_u16 (v : Z)
  | S_direct (d : float)
  | S_u8 (v : Z)
  | S_vid
  | S_mfr
  | S_unknown.

Inductive output :=
  | OutCommand (code : Z) (f : format) (direct : bool)
  | OutByte (code : Z) (value : Z)
  | OutWord (code : Z) (value : Z) (s : shown)
  | OutStatus (code : Z) (value : Z).

Record world := {
  bus : list transaction -> request -> response;
  log : list transaction;
  uninit : nat -> Z;            (* contents of uninitialised storage *)
  enable_pec : bool;
  pmdev : pmbus_dev;
  pmbus_ops : list pmbus_cmd_desc;
  out : list output
}.

Definition set_log (l : list transaction) (w : world) : world :=
  {| bus := bus w; log := l; uninit := uninit w; enable_pec := enable_pec w;
     pmdev := pmdev w; pmbus_ops := pmbus_ops w; out := out w |}.

Definition set_pmdev (d : pmbus_dev) (w : world) : world :=
  {| bus := bus w; log := log w; uninit := uninit w;
     enable_pec := enable_pec w;
     pmdev := d; pmbus_ops := pmbus_ops w; out := out w |}.

Definition set_pmbus_ops (t : list pmbus_cmd_desc) (w : world) : world :=
  {| bus := bus w; log := log w; uninit := uninit w;
     enable_pec := enable_pec w;
     pmdev := pmdev w; pmbus_ops := t; out := out w |}.

Definition set_out (o : list output) (w : world) : world :=
  {| bus := bus w; log := log w; uninit := uninit w;
     enable_pec := enable_pec w;
     pmdev := pmdev w; pmbus_ops := pmbus_ops w; out := o |}.

Definition set_no_query (v : bool) (d : pmbus_dev) : pmbus_dev :=
  {| funcs := funcs d; addr := addr d; revision := revision d;
     capability := capability d; no_query := v; use_pec := use_pec d;
     op := op d |}.

Definition set_use_pec (v : bool) (d : pmbus_dev) : pmbus_dev :=
  {| funcs := funcs d; addr := addr d; revision := revision d;
     capability := capability d; no_query := no_query d; use_pec := v;
     op := op d |}.

Definition set_revision (v : Z) (d : pmbus_dev) : pmbus_dev :=
  {| funcs := funcs d; addr := addr d; revision := v;
     capability := capability d; no_query := no_query d;
     use_pec := use_pec d; op := op d |}.

Definition set_capability (v : Z) (d : pmbus_dev) : pmbus_dev :=
  {| funcs := funcs d; addr := addr d; revision := revision d;
     capability := v; no_query := no_query d; use_pec := use_pec d;
     op := op d |}.

Definition set_op (t : gmap Z desc_ptr) (d : pmbus_dev) : pmbus_dev :=
  {| funcs := funcs d; addr := addr d; revision := revision d;
     capability := capability d; no_query := no_query d;
     use_pec := use_pec d; op := t |}.

(** The state [main] builds before scanning: [memset (&dev, 0, ...)], the
    adapter's functionality word and the device address. *)
Definition initial_dev (f a : Z) : pmbus_dev :=
  {| funcs := f; addr := a; revision := 0; capability := 0;
     no_query := false; use_pec := false; op := ∅ |}.

Definition initial_world (dev : list transaction -> request -> response)
    (junk : nat -> Z) (pec : bool) (f a : Z) : world :=
  {| bus := dev; log := []; uninit := junk; enable_pec := pec;
     pmdev := initial_dev f a; pmbus_ops := pmbus_ops_static; out := [] |}.

(* ================================================================== *)
(** ** The monad of the engine: state, with undefined behaviour *)

Inductive outcome (A : Type) :=
  | Done (a : A) (w : world)
  | Fault.
Arguments Done {A} a w.
Arguments Fault {A}.

Definition M (A : Type) : Type := world -> outcome A.

Definition ret {A} (a : A) : M A := fun w => Done a w.

Definition bind {A B} (m : M A) (f : A -> M B) : M B :=
  fun w => match m w with
           | Done a w' => f a w'
           | Fault => Fault
           end.

Definition fault {A} : M A := fun _ => Fault.
Definition get : M world := fun w => Done w w.
Definition modify (f : world -> world) : M unit := fun w => Done tt (f w).

Notation "x <- m ;; k" := (bind m (fun x => k))
  (at level 90, m at level 89, right associativity).
Notation "m ;;; k" := (bind m (fun _ => k))
  (at level 90, right associativity).

Definition when (b : bool) (m : M unit) : M unit :=
  if b then m else ret tt.

(** [for (i = ...) body] over an explicit list of indices. *)
Fixpoint for_each {A} (l : list A) (body : A -> M unit) : M unit :=
  match l with
  | [] => ret tt
  | x :: l' => body x ;;; for_each l' body
  end.

Definition print (o : output) : M unit :=
  modify (fun w => set_out (out w ++ [o]) w).

(** [ioctl (fd, ...)]: ask the bus, append the transaction to the log. *)
Definition ioctl (rq : request) : M response :=
  fun w => let r := bus w (log w) rq in
           Done r (set_log (log w ++ [(rq, r)]) w).

(** The adapter's packet-error-checking switch after a log: the argument
    of the last [I2C_PEC] request that succeeded. *)
Definition pec_after (init : bool) (l : list transaction) : bool :=
  fold_left (fun st t => match t with
                         | (I2C_PEC on, Ok _) => on
                         | _ => st
                         end) l init.

(** The [i]-th byte and the 16-bit word stored by the adapter. *)
Definition byte_at (i : nat) (data : list Z) : Z := u8 (nth i data 0).
Definition word_of (data : list Z) : Z :=
  Z.lor (Z.shiftl (byte_at 1 data) 8) (byte_at 0 data).

(** A local array after the adapter stored [data] at its start; the rest
    keeps what it held. *)
Definition stored (data : list Z) (old : nat -> Z) : nat -> Z :=
  fun k => if (k <? length data)%nat then byte_at k data else old k.

(** A [u16] that the caller set to [sent] and handed to the adapter, after
    the adapter stored [data] in it, low byte first: the bytes it did not
    store are those of [sent]. *)
Definition word_after (sent : Z) (data : list Z) : Z :=
  let b := stored (take 2 data)
             (fun k => match k with
                       | O => Z.land sent 0xff
                       | _ => Z.shiftr sent 8
                       end) in
  Z.lor (Z.shiftl (b 1%nat) 8) (b O).

(** [memcpy (dst, &src[off], n)] from a local array of [size] bytes. *)
Definition memcpy (dst : list Z) (src : nat -> Z) (size off n : nat)
    : M (list Z) :=
  if (n <=? length dst)%nat && (off + n <=? size)%nat
  then ret (map (fun k => src (off + k)%nat) (seq 0 n) ++ drop n dst)
  else fault.

(* ================================================================== *)
(** ** Pointers into the descriptor table *)

(** [pmdev->op[cmd]]; the array has 256 entries. *)
Definition slot (cmd : Z) : M (option desc_ptr) :=
  if (0 <=? cmd) && (cmd <? 256)
  then (w <- get ;; ret (op (pmdev w) !! cmd))
  else fault.

(** [pmdev->op[cmd] = p]. *)
Definition bind_slot (cmd : Z) (p : desc_ptr) : M unit :=
  if (0 <=? cmd) && (cmd <? 256)
  then modify (fun w => set_pmdev (set_op (<[cmd := p]> (op (pmdev w)))
                                     (pmdev w)) w)
  else fault.

(** [pmbus_ops[i]], read through a pointer to it. *)
Definition deref_op (i : nat) : M pmbus_cmd_desc :=
  w <- get ;;
  match pmbus_ops w !! i with
  | Some d => ret d
  | None => fault
  end.

(** [*p] for a pointer held in a slot. *)
Definition deref (p : option desc_ptr) : M pmbus_cmd_desc :=
  match p with
  | None => fault
  | Some PUnsupported => ret unsupported
  | Some (POp i) => deref_op i
  end.

(** In-place mutation of [pmbus_ops[i]]. *)
Definition update_op (i : nat) (f : pmbus_cmd_desc -> pmbus_cmd_desc)
    : M unit :=
  d <- deref_op i ;;
  modify (fun w => set_pmbus_ops (<[i := f d]> (pmbus_ops w)) w).

Definition with_query_byte (q : Z) (d : pmbus_cmd_desc) : pmbus_cmd_desc :=
  {| tag := tag d; cmd := cmd d; type := type d; units := units d;
     flags := flags d; query_byte := q; c0 := c0 d; c1 := c1 d |}.

(** [op->c[read] = c] *)
Definition with_c (read : Z) (c : pmbus_coefficients) (d : pmbus_cmd_desc)
    : pmbus_cmd_desc :=
  {| tag := tag d; cmd := cmd d; type := type d; units := units d;
     flags := flags d; query_byte := query_byte d;
     c0 := if read =? 0 then c else c0 d;
     c1 := if read =? 0 then c1 d else c |}.

Definition get_c (read : Z) (d : pmbus_cmd_desc) : pmbus_coefficients :=
  if read =? 0 then c0 d else c1 d.

Definition with_R (r : Z) (c : pmbus_coefficients) : pmbus_coefficients :=
  {| c_valid := c_valid c; c_R := r; c_m := c_m c; c_b := c_b c |}.

(* ================================================================== *)
(** ** Transport: read operations *)

Definition smbus_quick (flag : Z) : M Z :=
  r <- ioctl (I2C_SMBUS_QUICK (truthy flag)) ;;
  match r with
  | Failed e => ret (- Z.pos e)
  | Ok _ => ret 0
  end.

(** Returns a byte, or negative errno. *)
Definition pmbus_read_byte_data (cmd : Z) : M Z :=
  if is_pmb_extended cmd then ret (- ENOSYS)
  else if negb (is_pmb_8bit cmd) then ret (- EINVAL)
  else
    r <- ioctl (I2C_SMBUS_READ_BYTE_DATA cmd) ;;
    match r with
    | Failed e => ret (- Z.pos e)
    | Ok data => ret (byte_at 0 data)
    end.

(** Returns a word, or negative errno. *)
Definition pmbus_read_word_data (cmd : Z) : M Z :=
  if is_pmb_extended cmd then ret (- ENOSYS)
  else if negb (is_pmb_8bit cmd) then ret (- EINVAL)
  else
    r <- ioctl (I2C_SMBUS_READ_WORD_DATA cmd) ;;
    match r with
    | Failed e => ret (- Z.pos e)
    | Ok data => ret (word_of data)
    end.

(** The label [try_i2c] of [pmbus_read_block]: [len] is the length byte
    read first, [retval] the error that led here.  [buf] is [u8 buf[256]]
    with [buf[0] = cmd & 0xff] written before the transfer. *)
Definition read_block_try_i2c (cmd read_len : Z) (read_buf : list Z)
    (len retval : Z) : M (Z * list Z) :=
  w <- get ;;
  if truthy (Z.land (funcs (pmdev w)) I2C_FUNC_I2C) then
    r <- ioctl (I2C_RDWR (addr (pmdev w)) [Z.land cmd 0xff] (len + 1)) ;;
    match r with
    | Failed e => ret (- Z.pos e, read_buf)
    | Ok data =>
        let buf := stored (take (Z.to_nat (len + 1)) data)
                     (fun k => match k with
                               | O => Z.land cmd 0xff
                               | _ => uninit w k
                               end) in
        if buf O <=? read_len then
          b <- memcpy read_buf buf 256 1 (Z.to_nat (buf O)) ;;
          ret (buf O, b)
        else
          b <- memcpy read_buf buf 256 1 (Z.to_nat read_len) ;;
          ret (- E2BIG, b)
    end
  else ret (retval, read_buf).

(** Returns the number of bytes copied into [read_buf], or negative
    errno; the second component is [read_buf] afterwards.  [read_buf] is
    [None] for a null pointer, else the current contents of the caller's
    array. *)
Definition pmbus_read_block (cmd read_len : Z) (read_buf : option (list Z))
    : M (Z * list Z) :=
  match read_buf with
  | None => ret (- EINVAL, [])
  | Some buf0 =>
    if read_len =? 0 then ret (- EINVAL, buf0)
    else if is_pmb_extended cmd then ret (- ENOSYS, buf0)
    else if negb (is_pmb_8bit cmd) then ret (- EINVAL, buf0)
    else
      w <- get ;;
      when (use_pec (pmdev w)) (_ <- ioctl (I2C_PEC false) ;; ret tt) ;;;
      len <- pmbus_read_byte_data cmd ;;
      if len <? 0 then ret (len, buf0)
      else
        w <- get ;;
        when (use_pec (pmdev w)) (_ <- ioctl (I2C_PEC true) ;; ret tt) ;;;
        if len >? I2C_SMBUS_BLOCK_MAX then
          read_block_try_i2c cmd read_len buf0 len (- EFBIG)
        else if negb (truthy (Z.land (funcs (pmdev w))
                                I2C_FUNC_SMBUS_READ_BLOCK_DATA)) then
          read_block_try_i2c cmd read_len buf0 len (- EOPNOTSUPP)
        else
          r <- ioctl (I2C_SMBUS_READ_BLOCK_DATA cmd) ;;
          match r with
          | Failed e => read_block_try_i2c cmd read_len buf0 len (- Z.pos e)
          | Ok data =>
              let block := stored (take 34 data) (uninit w) in
              if block O <=? read_len then
                if block O >? 32 then
                  read_block_try_i2c cmd read_len buf0 len (- EFBIG)
                else
                  b <- memcpy buf0 block 34 1 (Z.to_nat (block O)) ;;
                  ret (block O, b)
              else
                b <- memcpy buf0 block 34 1 (Z.to_nat read_len) ;;
                ret (- E2BIG, b)
          end
  end.

(* ================================================================== *)
(** ** Transport: write operations *)

Definition pmbus_quick : M Z := smbus_quick 0.

(** Returns zero, or negative errno. *)
Definition smbus_write_byte (byte : Z) : M Z :=
  r <- ioctl (I2C_SMBUS_WRITE_BYTE byte) ;;
  match r with
  | Failed e => ret (- Z.pos e)
  | Ok _ => ret 0
  end.

(* ================================================================== *)
(** ** COEFFICIENTS and QUERY *)

(** [coefficients (pmdev, &pmbus_ops[i], read)].  [block] is [data.block]:
    it holds the request when the adapter is called, and afterwards the
    reply stored over it. *)
Definition coefficients (i : nat) (read : Z) : M unit :=
  let read := if truthy read then 1 else 0 in
  d <- deref_op i ;;
  w <- get ;;
  sd <- (if truthy (Z.land (funcs (pmdev w))
                      I2C_FUNC_SMBUS_BLOCK_PROC_CALL) then
           let out := [2; u8 (cmd d); read] in
           let block := stored out (uninit w) in
           r <- ioctl (I2C_SMBUS_BLOCK_PROC_CALL PMB_COEFFICIENTS out) ;;
           ret (match r with
                | Failed _ => (-1, block)
                | Ok data => (0, stored (take 34 data) block)
                end)
         else if truthy (Z.land (funcs (pmdev w)) I2C_FUNC_I2C) then
           let out := [PMB_COEFFICIENTS; 2; u8 (cmd d); read] in
           let block := stored out (uninit w) in
           r <- ioctl (I2C_RDWR (addr (pmdev w)) out 6) ;;
           ret (match r with
                | Failed _ => (-1, block)
                | Ok data => (2, stored (take 6 data) block)
                end)
         else ret (- EOPNOTSUPP, uninit w)) ;;
  let status := fst sd in
  let block := snd sd in
  if status <? 0 then ret tt
  else if negb (block O =? 5) then ret tt
  else
    update_op i (fun d =>
      with_c read
        {| c_valid := 1;
           c_R := s8 (block 5%nat);
           c_m := s16 (Z.lor (Z.shiftl (block 2%nat) 8) (block 1%nat));
           c_b := s16 (Z.lor (Z.shiftl (block 4%nat) 8) (block 3%nat)) |}
        d).

(** [(op->cmd << 8) | 1], stored in a [u16]. *)
Definition query_word (code : Z) : Z := u16 (Z.lor (Z.shiftl code 8) 1).

Definition mark_no_query : M unit :=
  modify (fun w => set_pmdev (set_no_query true (pmdev w)) w).

(** [query (pmdev, &pmbus_ops[i])].  The process call sends [word] and
    receives the answer in the same [u16]. *)
Definition query (i : nat) : M unit :=
  d <- deref_op i ;;
  if cmd d >? 0xff then ret tt
  else
    let word := query_word (cmd d) in
    r <- ioctl (I2C_SMBUS_PROC_CALL PMB_QUERY word) ;;
    match r with
    | Failed _ => mark_no_query
    | Ok data =>
        let word := word_after word data in
        if negb (Z.land word 0x00ff =? 1) then mark_no_query
        else
          let word := Z.shiftr word 8 in
          if negb (truthy (Z.land word 0x80)) then
            bind_slot (cmd d) PUnsupported
          else
            update_op i (with_query_byte (u8 word)) ;;;
            bind_slot (cmd d) (POp i) ;;;
            coeff <- slot PMB_COEFFICIENTS ;;
            when ((Z.land (Z.shiftr word 2) 7 =? 3) && bool_decide (is_Some coeff))
              (when (truthy (Z.land word 0x20)) (coefficients i 1) ;;;
               when (truthy (Z.land word 0x40)) (coefficients i 0)) ;;;
            when (cmd d =? PMB_VOUT_MODE)
              (value <- pmbus_read_byte_data (cmd d) ;;
               update_op i (fun d =>
                 with_c 0 (with_R (s8 value) (c0 d))
                   (with_c 1 (with_R (s8 value) (c1 d)) d)))
    end.

(** The loop of [checksupport]: the first entry of the table whose
    [cmd] is [code] is queried.  [i] is the position reached and [k] the number
    of entries from there to the end of the array. *)
Fixpoint query_first (code : Z) (i k : nat) : M unit :=
  w <- get ;;
  if no_query (pmdev w) then ret tt
  else
    match k with
    | O => fault
    | S k' =>
        d <- deref_op i ;;
        match tag d with
        | None => ret tt
        | Some _ =>
            if cmd d =? code then query i
            else query_first code (S i) k'
        end
    end.

(** Return:  negative = can't tell, 0 = no, 1 = yes *)
Definition checksupport (cmd : Z) : M Z :=
  if is_pmb_extended cmd then ret (-1)
  else
    w <- get ;;
    if bool_decide (op (pmdev w) !! PMB_QUERY = Some PUnsupported)
       || no_query (pmdev w)
    then ret (-1)
    else
      p <- slot cmd ;;
      when (bool_decide (p = None))
        (query_first cmd 0 (length (pmbus_ops w))) ;;;
      p <- slot cmd ;;
      ret (if bool_decide (p = Some PUnsupported) then 0 else 1).

(* ================================================================== *)
(** ** Arithmetic on [double] *)

(** The operations the decoders apply to a [double]. *)
Class DoubleOps (D : Type) := {
  of_int : Z -> D;          (* conversion of an [int] *)
  dneg : D -> D;
  dsub : D -> D -> D;
  dmul : D -> D -> D;
  ddiv : D -> D -> D
}.

(** Exact for [|z| < 2^53], which covers every integer converted here. *)
Definition float_of_Z (z : Z) : float :=
  if z <? 0 then PrimFloat.opp (PrimFloat.of_uint63 (Uint63.of_Z (- z)))
  else PrimFloat.of_uint63 (Uint63.of_Z z).

Global Instance binary64 : DoubleOps float := {
  of_int := float_of_Z;
  dneg := PrimFloat.opp;
  dsub := PrimFloat.sub;
  dmul := PrimFloat.mul;
  ddiv := PrimFloat.div
}.

Global Instance rational : DoubleOps Q := {
  of_int := inject_Z;
  dneg := Qopp;
  dsub := Qminus;
  dmul := Qmult;
  ddiv := Qdiv
}.

(** [n] rounds of [d *= x] and of [d /= x]. *)
Fixpoint mul_loop {D} `{DoubleOps D} (n : nat) (x d : D) : D :=
  match n with
  | O => d
  | S n' => mul_loop n' x (dmul d x)
  end.

Fixpoint div_loop {D} `{DoubleOps D} (n : nat) (x d : D) : D :=
  match n with
  | O => d
  | S n' => div_loop n' x (ddiv d x)
  end.

(* ================================================================== *)
(** ** Value decoders of [pmbus_dev_show_values] *)

(** Case 0 of the format switch, for units other than BITS. *)
Definition linear_decode {D} `{DoubleOps D} (value : Z) : D :=
  let d := of_int (Z.land value 0x03ff) in
  let d := if truthy (Z.land value 0x0400) then dneg d else d in
  if truthy (Z.land value 0x8000) then
    ddiv d (of_int (Z.shiftl 1
                      (Z.land (0x0f + 1 - Z.shiftr value 11) 0x0f)))
  else if truthy (Z.land value 0x7100) then
    dmul d (of_int (Z.shiftl 1 (Z.shiftr value 11)))
  else d.

(** Case 3 of the format switch; [c] is [op->c[1]]. *)
Definition direct_decode {D} `{DoubleOps D} (value : Z)
    (c : pmbus_coefficients) : D :=
  let d := of_int (s16 value) in
  let r := c_R c in
  let d := if r <? 0 then mul_loop (Z.to_nat (- r)) (of_int 10) d
           else if r >? 0 then div_loop (Z.to_nat r) (of_int 10) d
           else d in
  let d := dsub d (of_int (c_b c)) in
  ddiv d (of_int (c_m c)).

(** The arithmetic of [pmbus_to_vout_format]; [r] is the [R] held for
    VOUT_MODE. *)
Definition vout_exponent (r : Z) : Z :=
  let exponent := Z.land r 0x1f in
  let mask := 0xf in
  if truthy (Z.land exponent 0x10)
  then - (- (Z.land exponent mask) + Z.land exponent (Z.lnot mask))
  else exponent.

Definition vout_decode {D} `{DoubleOps D} (r value : Z) : D :=
  let exponent := vout_exponent r in
  if exponent >? 0 then mul_loop (Z.to_nat exponent) (of_int 2) (of_int value)
  else div_loop (Z.to_nat (- exponent)) (of_int 2) (of_int value).

(** The inner switch on [(op->query >> 2) & 7]. *)
Definition decode_word (d : pmbus_cmd_desc) (value : Z) : shown :=
  match Z.land (Z.shiftr (query_byte d) 2) 7 with
  | 0 => match units d with
         | BITS => S_bitmap
         | _ => S_linear (linear_decode value)
         end
  | 1 => S_u16 value
  | 3 => S_direct (direct_decode value (c1 d))
  | 4 => S_u8 (Z.land value 0xff)
  | 5 => S_vid
  | 6 => S_mfr
  | _ => S_unknown
  end.

(** The LINEAR11 reading of a word: mantissa in bits 0-10 and exponent in
    bits 11-15, both two's complement. *)
Definition linear11_mantissa (raw : Z) : Z :=
  let y := Z.land raw 0x07ff in
  if Z.testbit raw 10 then y - 2048 else y.

Definition linear11_exponent (raw : Z) : Z :=
  let n := Z.land (Z.shiftr raw 11) 0x1f in
  if Z.testbit n 4 then n - 32 else n.

Definition linear11_value (raw : Z) : Q :=
  (inject_Z (linear11_mantissa raw) * Qpower 2 (linear11_exponent raw))%Q.

(* ================================================================== *)
(** ** Queries used by the reports *)

Definition vout_mode_is_linear : M bool :=
  p <- slot PMB_VOUT_MODE ;;
  if bool_decide (p = Some PUnsupported) then ret false
  else
    d <- deref p ;;
    if truthy (Z.land (c_R (c0 d)) 0xe0) then ret false
    else ret true.

Definition pmbus_to_vout_format (value : Z) : M float :=
  p <- slot PMB_VOUT_MODE ;;
  d <- deref p ;;
  ret (vout_decode (c_R (c0 d)) value).

(** [memset (buf, 0, sizeof buf)] for [u8 buf[256]]; the string returned
    is [buf] up to its first zero byte. *)
Fixpoint c_string (l : list Z) : list Z :=
  match l with
  | [] => []
  | x :: l' => if x =? 0 then [] else x :: c_string l'
  end.

Definition pmbus_read_string (cmd : Z) : M (option (list Z)) :=
  s <- checksupport cmd ;;
  if s =? 0 then ret None
  else
    sb <- pmbus_read_block cmd (256 - 1) (Some (repeat 0 256)) ;;
    ret (if fst sb >? 0 then Some (c_string (snd sb)) else None).

Definition pmbus_list_inventory : M unit :=
  _ <- pmbus_read_string PMB_MFR_ID ;;
  _ <- pmbus_read_string PMB_MFR_MODEL ;;
  _ <- pmbus_read_string PMB_MFR_REVISION ;;
  _ <- pmbus_read_string PMB_MFR_LOCATION ;;
  _ <- pmbus_read_string PMB_MFR_DATE ;;
  _ <- pmbus_read_string PMB_MFR_SERIAL ;;
  _ <- pmbus_read_string PMB_IC_DEVICE_ID ;;
  _ <- pmbus_read_string PMB_IC_DEVICE_REV ;;
  ret tt.

(** The final loop of [pmbus_dev_show_p1]: every entry of the table is
    queried, in order, until the terminator or until QUERY is given up. *)
Fixpoint query_all (i k : nat) : M unit :=
  w <- get ;;
  if no_query (pmdev w) then ret tt
  else
    match k with
    | O => fault
    | S k' =>
        d <- deref_op i ;;
        match tag d with
        | None => ret tt
        | Some _ => query i ;;; query_all (S i) k'
        end
    end.

Definition pmbus_dev_show_p1 : M unit :=
  pmbus_list_inventory ;;;
  s <- checksupport PMB_APP_PROFILES ;;
  when (s =? 1)
    (w <- get ;;
     _ <- pmbus_read_block PMB_APP_PROFILES 513
            (Some (map (uninit w) (seq 0 513))) ;;
     ret tt) ;;;
  w <- get ;;
  if no_query (pmdev w) then ret tt
  else query_all 0 (length (pmbus_ops w)).

(* ================================================================== *)
(** ** Status report *)

Definition status_byte (cmd : Z) : M unit :=
  mode <- checksupport cmd ;;
  if mode =? 0 then ret tt
  else
    value <- pmbus_read_byte_data cmd ;;
    if value <? 0 then ret tt
    else print (OutStatus cmd value).

Definition show_status_vout : M unit := status_byte PMB_STATUS_VOUT.
Definition show_status_iout : M unit := status_byte PMB_STATUS_IOUT.
Definition show_status_input : M unit := status_byte PMB_STATUS_INPUT.
Definition show_status_mfr_specific : M unit :=
  status_byte PMB_STATUS_MFR_SPECIFIC.
Definition show_status_fans : M unit :=
  status_byte PMB_STATUS_FANS_1_2 ;;; status_byte PMB_STATUS_FANS_3_4.
Definition show_status_other : M unit := status_byte PMB_STATUS_OTHER.
Definition show_status_temperature : M unit :=
  status_byte PMB_STATUS_TEMPERATURE.
Definition show_status_cml : M unit := status_byte PMB_STATUS_CML.

Definition bit (n : Z) : Z := Z.shiftl 1 n.

(** [pmbus_dev_show_status] after [value] is settled: the detail
    registers named by its bits. *)
Definition show_status_details (value : Z) : M unit :=
  when (truthy (Z.land value (Z.lor (bit 15) (bit 5)))) show_status_vout ;;;
  when (truthy (Z.land value (Z.lor (bit 14) (bit 4)))) show_status_iout ;;;
  when (truthy (Z.land value (Z.lor (bit 13) (bit 3)))) show_status_input ;;;
  when (truthy (Z.land value (bit 12))) show_status_mfr_specific ;;;
  when (truthy (Z.land value (bit 10))) show_status_fans ;;;
  when (truthy (Z.land value (bit 9))) show_status_other ;;;
  when (truthy (Z.land value (bit 2))) show_status_temperature ;;;
  when (truthy (Z.land value (bit 1))) show_status_cml.

(** [None] stands for the early [return]s. *)
Definition pmbus_dev_show_status : M unit :=
  mode <- checksupport PMB_STATUS_WORD ;;
  rv <- (if negb (mode =? 0) then
           value <- pmbus_read_word_data PMB_STATUS_WORD ;;
           if (mode =? 1) && (value <? 0) then ret None
           else
             when (value >=? 0) (print (OutStatus PMB_STATUS_WORD value)) ;;;
             ret (Some value)
         else ret (Some (- EINVAL))) ;;
  match rv with
  | None => ret tt
  | Some value =>
      rv <- (if value <? 0 then
               mode <- checksupport PMB_STATUS_BYTE ;;
               if negb (mode =? 0) then
                 value <- pmbus_read_byte_data PMB_STATUS_BYTE ;;
                 if value <? 0 then ret None
                 else
                   print (OutStatus PMB_STATUS_BYTE value) ;;;
                   ret (Some value)
               else ret (Some value)
             else ret (Some value)) ;;
      match rv with
      | None => ret tt
      | Some value => show_status_details value
      end
  end.

(* ================================================================== *)
(** ** Command and value reports *)

(** [op->flags == FLG_FORMAT_VOUT && vout_mode_is_linear (pmdev)] *)
Definition is_vout_format (d : pmbus_cmd_desc) : M bool :=
  if flags d =? FLG_FORMAT_VOUT then vout_mode_is_linear else ret false.

Definition word_format (d : pmbus_cmd_desc) : format * bool :=
  match Z.land (Z.shiftr (query_byte d) 2) 7 with
  | 0 => match units d with
         | BITS => (F_u16_bitmask, false)
         | _ => (F_s16_linear, false)
         end
  | 3 => (F_s16_direct, true)
  | 5 => (F_u16_vid, false)
  | 6 => (F_x16_mfr, false)
  | _ => (F_x16_unknown, false)
  end.

(** One round of the loop of [pmbus_dev_show_commands]. *)
Definition show_command (i : Z) : M unit :=
  p <- slot i ;;
  match p with
  | None | Some PUnsupported => ret tt
  | Some (POp j) =>
      d <- deref_op j ;;
      fd <- match type d with
            | W0 => ret (F_nodata, false)
            | RW1 | W1 | R1 => ret (F_u8_bitmask, false)
            | RW2 | R2 =>
                v <- is_vout_format d ;;
                if v : bool then ret (F_x16_vout_mode, false)
                else ret (word_format d)
            | RWB | RWB14 => ret (F_block, false)
            | RWP_QUERY | RWP_COEFF => ret (F_process_call, false)
            | RWB_APP_PROFILE => ret (F_app_profile, false)
            | T_UNDEF => ret (F_unknown_syntax, false)
            end ;;
      print (OutCommand (cmd d) (fst fd) (snd fd))
  end.

Definition slot_indices : list Z := map Z.of_nat (seq 0 255).

Definition pmbus_dev_show_commands : M unit :=
  for_each slot_indices show_command.

(** One round of the loop of [pmbus_dev_show_values]. *)
Definition show_value (i : Z) : M unit :=
  p <- slot i ;;
  match p with
  | None | Some PUnsupported => ret tt
  | Some (POp j) =>
      d <- deref_op j ;;
      if truthy (Z.land (flags d) (Z.lor FLG_SHOW_P1 FLG_STATUS)) then ret tt
      else
        match type d with
        | RW1 | R1 =>
            value <- pmbus_read_byte_data (cmd d) ;;
            if value <? 0 then ret tt
            else print (OutByte (cmd d) value)
        | RW2 | R2 =>
            value <- pmbus_read_word_data (cmd d) ;;
            if value <? 0 then ret tt
            else
              v <- is_vout_format d ;;
              if v : bool then
                x <- pmbus_to_vout_format value ;;
                print (OutWord (cmd d) value (S_vout x))
              else print (OutWord (cmd d) value (decode_word d value))
        | _ => ret tt
        end
  end.

Definition pmbus_dev_show_values : M unit :=
  for_each slot_indices show_value.

Definition pmbus_dev_show (values cmds : bool) : M unit :=
  pmbus_dev_show_p1 ;;;
  when values (pmbus_dev_show_status ;;; pmbus_dev_show_values) ;;;
  when cmds pmbus_dev_show_commands.

(* ================================================================== *)
(** ** Clearing faults and scanning *)

Definition pmbus_clear_fault : M unit :=
  s <- checksupport PMB_CLEAR_FAULT ;;
  when (negb (s =? 0)) (_ <- smbus_write_byte PMB_CLEAR_FAULT ;; ret tt).

Definition pmbus_dev_scan : M Z :=
  w <- get ;;
  status <- (if truthy (Z.land (funcs (pmdev w)) I2C_FUNC_SMBUS_QUICK)
             then pmbus_quick else ret 0) ;;
  if status <? 0 then ret status
  else
    _ <- checksupport PMB_QUERY ;;
    s <- checksupport PMB_CAPABILITY ;;
    when (negb (s =? 0))
      (status <- pmbus_read_byte_data PMB_CAPABILITY ;;
       if status <? 0 then ret tt
       else
         modify (fun w => set_pmdev (set_capability (u8 status) (pmdev w)) w) ;;;
         w <- get ;;
         when (truthy (Z.land status (bit 7)) && enable_pec w)
           (r <- ioctl (I2C_PEC true) ;;
            match r with
            | Failed _ => ret tt
            | Ok _ =>
                modify (fun w => set_pmdev (set_use_pec true (pmdev w)) w)
            end)) ;;;
    s <- checksupport PMB_PMBUS_REVISION ;;
    when (negb (s =? 0))
      (status <- pmbus_read_byte_data PMB_PMBUS_REVISION ;;
       if status <? 0 then ret tt
       else
         modify (fun w => set_pmdev (set_revision (u8 status) (pmdev w)) w)) ;;;
    ret 0.

(* ================================================================== *)
(** ** Sessions *)

(** The operations a session is made of. *)
Inductive session_op :=
  | Scan
  | CheckSupport (cmd : Z)
  | ReadString (cmd : Z)
  | ListInventory
  | ShowP1
  | ShowStatus
  | ShowValues
  | ShowCommands
  | ClearFault.

Definition run_op (o : session_op) : M unit :=
  match o with
  | Scan => _ <- pmbus_dev_scan ;; ret tt
  | CheckSupport cmd => _ <- checksupport cmd ;; ret tt
  | ReadString cmd => _ <- pmbus_read_string cmd ;; ret tt
  | ListInventory => pmbus_list_inventory
  | ShowP1 => pmbus_dev_show_p1
  | ShowStatus => pmbus_dev_show_status
  | ShowValues => pmbus_dev_show_values
  | ShowCommands => pmbus_dev_show_commands
  | ClearFault => pmbus_clear_fault
  end.

Definition run (l : list session_op) : M unit := for_each l run_op.

(** Every operation but the sweep of [pmbus_dev_show_p1]. *)
Definition sweeps (o : session_op) : bool :=
  match o with
  | ShowP1 => true
  | _ => false
  end.

(** The QUERY process calls of a log. *)
Definition is_query_request (rq : request) : bool :=
  match rq with
  | I2C_SMBUS_PROC_CALL _ _ => true
  | _ => false
  end.

Definition is_query_call (t : transaction) : bool := is_query_request (fst t).

Definition query_calls (l : list transaction) : list transaction :=
  filter (fun t => is_query_call t = true) l.

(* ================================================================== *)
(** ** Helper definitions for the statements *)

Global Instance request_eq_dec : EqDecision request.
Proof. solve_decision. Defined.

(** The QUERY negotiations for [code] found in a log. *)
Definition queries_for (code : Z) (l : list transaction)
    : list transaction :=
  filter (fun t => fst t = I2C_SMBUS_PROC_CALL PMB_QUERY (query_word code)) l.

(** The negotiation for [code] fails on a transport error or on a wrong
    echo byte in the word it gets back. *)
Definition negotiation_fails (code : Z) (r : response) : bool :=
  match r with
  | Failed _ => true
  | Ok data =>
      negb (Z.land (word_after (query_word code) data) 0x00ff =? 1)
  end.

(** The answer the bus gives to the negotiation for [code] in [w]. *)
Definition query_reply (w : world) (code : Z) : response :=
  bus w (log w) (I2C_SMBUS_PROC_CALL PMB_QUERY (query_word code)).

(** The linear scan of the table for [code]: [Some (Some i)] is the first
    match, [Some None] the terminator met without a match, [None] a
    table that ends without a terminator. *)
Fixpoint catalog_index (code : Z) (t : list pmbus_cmd_desc) (i : nat)
    : option (option nat) :=
  match t with
  | [] => None
  | d :: t' =>
      match tag d with
      | None => Some None
      | Some _ => if cmd d =? code then Some (Some i)
                  else catalog_index code t' (S i)
      end
  end.

(** The request [coefficients] issues on an adapter with functionality
    [f], if any. *)
Definition coefficients_request (f a : Z) (d : pmbus_cmd_desc) (read : Z)
    : option request :=
  let read := if truthy read then 1 else 0 in
  if truthy (Z.land f I2C_FUNC_SMBUS_BLOCK_PROC_CALL)
  then Some (I2C_SMBUS_BLOCK_PROC_CALL PMB_COEFFICIENTS [2; u8 (cmd d); read])
  else if truthy (Z.land f I2C_FUNC_I2C)
  then Some (I2C_RDWR a [PMB_COEFFICIENTS; 2; u8 (cmd d); read] 6)
  else None.

(** The coefficients held in a reply [len, m_lo, m_hi, b_lo, b_hi, R],
    read from the block it was stored in. *)
Definition reply_coefficients (block : nat -> Z) : pmbus_coefficients :=
  {| c_valid := 1;
     c_R := s8 (block 5%nat);
     c_m := s16 (Z.lor (Z.shiftl (block 2%nat) 8) (block 1%nat));
     c_b := s16 (Z.lor (Z.shiftl (block 4%nat) 8) (block 3%nat)) |}.

(** Results of a session, for statements by computation. *)
Definition slot_after (l : list session_op) (w : world) (code : Z)
    : option (option desc_ptr) :=
  match run l w with
  | Done _ w' => Some (op (pmdev w') !! code)
  | Fault => None
  end.

Definition result_of {A} (o : outcome A) : option A :=
  match o with
  | Done a _ => Some a
  | Fault => None
  end.

Definition world_of {A} (o : outcome A) : option world :=
  match o with
  | Done _ w => Some w
  | Fault => None
  end.

(* ================================================================== *)
(** ** Relations between the state before and after an operation *)

(** Nothing that QUERY owns moved: same slots, same flag, no new QUERY. *)
Definition calm (w w' : world) : Prop :=
  op (pmdev w') = op (pmdev w)
  /\ no_query (pmdev w') = no_query (pmdev w)
  /\ query_calls (log w') = query_calls (log w).

(** Once set, the flag stays and no QUERY is issued. *)
Definition sticky (w w' : world) : Prop :=
  no_query (pmdev w) = true ->
  no_query (pmdev w') = true
  /\ query_calls (log w') = query_calls (log w).

(** A bound slot keeps its pointer and is not negotiated again. *)
Definition bound_stable (w w' : world) : Prop :=
  forall (code : Z) (p : desc_ptr),
    op (pmdev w) !! code = Some p ->
    op (pmdev w') !! code = Some p
    /\ (0 <= code < 256 ->
        queries_for code (log w') = queries_for code (log w)).

Definition steady (w w' : world) : Prop := sticky w w' /\ bound_stable w w'.

(** [m] relates every state to the state it leaves behind. *)
Definition preserves {A} (R : world -> world -> Prop) (m : M A) : Prop :=
  forall w a w', m w = Done a w' -> R w w'.

(* ================================================================== *)
(** * Properties *)

(** ** The monad *)

Lemma bind_done {A B} (m : M A) (f : A -> M B) w b w' :
  bind m f w = Done b w' <->
  exists a w1, m w = Done a w1 /\ f a w1 = Done b w'.
Proof.
  unfold bind. split.
  - destruct (m w) as [a w1|] eqn:E; [eauto | discriminate].
  - intros (a & w1 & -> & H). exact H.
Qed.

Lemma bind_eq {A B} (m : M A) (f : A -> M B) w a w1 :
  m w = Done a w1 -> bind m f w = f a w1.
Proof. unfold bind. intros ->. reflexivity. Qed.

Lemma bind_fault {A B} (m : M A) (f : A -> M B) w :
  m w = Fault -> bind m f w = Fault.
Proof. unfold bind. intros ->. reflexivity. Qed.

Section Frames.
Context (R : world -> world -> Prop) `{!PreOrder R}.

Lemma preserves_ret {A} (a : A) : preserves R (ret a).
Proof. intros w a' w' [= _ <-]. reflexivity. Qed.

Lemma preserves_get : preserves R get.
Proof. intros w a' w' [= _ <-]. reflexivity. Qed.

Lemma preserves_fault {A} : preserves R (@fault A).
Proof. intros w a w' [=]. Qed.

Lemma preserves_bind {A B} (m : M A) (f : A -> M B) :
  preserves R m -> (forall a, preserves R (f a)) -> preserves R (bind m f).
Proof.
  intros Hm Hf w b w' (a & w1 & H1 & H2)%bind_done.
  transitivity w1; [eapply Hm | eapply Hf]; eassumption.
Qed.

Lemma preserves_when (b : bool) (m : M unit) :
  preserves R m -> preserves R (when b m).
Proof. destruct b; [auto | intros _; apply preserves_ret]. Qed.

Lemma preserves_for_each {A} (l : list A) (body : A -> M unit) :
  (forall x, preserves R (body x)) -> preserves R (for_each l body).
Proof.
  intros Hb. induction l as [|x l IH]; simpl.
  - apply preserves_ret.
  - apply preserves_bind; auto.
Qed.
End Frames.

Lemma preserves_weaken {A} (R R' : world -> world -> Prop) (m : M A) :
  (forall w w', R w w' -> R' w w') -> preserves R m -> preserves R' m.
Proof. intros HR Hm w a w' H. eauto. Qed.

Global Instance calm_preorder : PreOrder calm.
Proof.
  split.
  - intros w. repeat split.
  - intros a b c (H1 & H2 & H3) (H4 & H5 & H6). repeat split; congruence.
Qed.

Global Instance sticky_preorder : PreOrder sticky.
Proof.
  split.
  - intros w H. auto.
  - intros a b c H1 H2 Ha. destruct (H1 Ha) as [Hb E1].
    destruct (H2 Hb) as [Hc E2]. split; congruence.
Qed.

Global Instance bound_stable_preorder : PreOrder bound_stable.
Proof.
  split.
  - intros w code p H. auto.
  - intros a b c H1 H2 code p Ha. destruct (H1 _ _ Ha) as [Hb E1].
    destruct (H2 _ _ Hb) as [Hc E2]. split; [exact Hc |].
    intros Hr. rewrite E2, E1; auto.
Qed.

Global Instance steady_preorder : PreOrder steady.
Proof.
  split.
  - intros w. split; reflexivity.
  - intros a b c [H1 H2] [H3 H4]. split; etransitivity; eassumption.
Qed.

Lemma queries_for_query_calls code l :
  queries_for code (query_calls l) = queries_for code l.
Proof.
  unfold queries_for, query_calls. induction l as [|[rq r] l IH]; [done |].
  rewrite (filter_cons _ (rq, r) l).
  destruct (decide (is_query_call (rq, r) = true)) as [E|E].
  - rewrite !filter_cons.
    destruct (decide _); [f_equal |]; exact IH.
  - rewrite (filter_cons _ (rq, r) l).
    destruct (decide _) as [E'|E']; [| exact IH].
    exfalso. apply E. simpl in E'. subst rq. reflexivity.
Qed.

Lemma calm_steady w w' : calm w w' -> steady w w'.
Proof.
  intros (Hop & Hnq & Hq). split.
  - intros H. split; congruence.
  - intros code p H. split; [congruence |]. intros _.
    rewrite <- (queries_for_query_calls code (log w')), Hq.
    apply queries_for_query_calls.
Qed.

Lemma steady_sticky w w' : steady w w' -> sticky w w'.
Proof. intros [H _]. exact H. Qed.

Lemma steady_bound_stable w w' : steady w w' -> bound_stable w w'.
Proof. intros [_ H]. exact H. Qed.

(** ** Operations that leave the QUERY state alone *)

Create HintDb frame discriminated.
#[global] Hint Constants Opaque : frame.
#[global] Hint Variables Opaque : frame.

Lemma query_calls_snoc l rq r :
  is_query_request rq = false -> query_calls (l ++ [(rq, r)]) = query_calls l.
Proof.
  intros H. unfold query_calls. rewrite filter_app, filter_cons.
  rewrite decide_False; [apply app_nil_r |].
  unfold is_query_call. simpl. rewrite H. discriminate.
Qed.

Lemma ioctl_calm rq : is_query_request rq = false -> preserves calm (ioctl rq).
Proof.
  intros H w r w' [= _ <-]. repeat split. simpl. apply query_calls_snoc, H.
Qed.

Lemma modify_calm (f : world -> world) :
  (forall w, calm w (f w)) -> preserves calm (modify f).
Proof. intros H w [] w' [= <-]. apply H. Qed.

Ltac frame_step :=
  lazymatch goal with
  | |- preserves _ (bind _ _) =>
      apply preserves_bind; try exact _; [| intros ?]
  | |- preserves _ (ret _) => apply preserves_ret; exact _
  | |- preserves _ get => apply preserves_get; exact _
  | |- preserves _ fault => apply preserves_fault
  | |- preserves calm (ioctl _) => apply ioctl_calm; reflexivity
  | |- preserves calm (modify _) =>
      apply modify_calm; intros ?; repeat split
  | |- preserves _ (when _ _) => apply preserves_when; try exact _
  | |- preserves _ (for_each _ _) =>
      apply preserves_for_each; try exact _; intros ?
  | |- preserves _ (if ?b then _ else _) => destruct b
  | |- preserves _ (match ?x with _ => _ end) => destruct x
  end.

Ltac frame := repeat (first [frame_step | solve [eauto with frame]]).

Lemma print_calm o : preserves calm (print o).
Proof. unfold print. frame. Qed.

Lemma slot_calm code : preserves calm (slot code).
Proof. unfold slot. frame. Qed.

Lemma deref_op_calm i : preserves calm (deref_op i).
Proof. unfold deref_op. frame. Qed.

#[global] Hint Resolve print_calm slot_calm deref_op_calm : frame.

Lemma deref_calm p : preserves calm (deref p).
Proof. unfold deref. frame. Qed.

Lemma update_op_calm i f : preserves calm (update_op i f).
Proof. unfold update_op. frame. Qed.

Lemma memcpy_calm dst src size off n :
  preserves calm (memcpy dst src size off n).
Proof. unfold memcpy. frame. Qed.

#[global] Hint Resolve deref_calm update_op_calm memcpy_calm : frame.

Lemma smbus_quick_calm flag : preserves calm (smbus_quick flag).
Proof. unfold smbus_quick. frame. Qed.

Lemma pmbus_read_byte_data_calm code :
  preserves calm (pmbus_read_byte_data code).
Proof. unfold pmbus_read_byte_data. frame. Qed.

Lemma pmbus_read_word_data_calm code :
  preserves calm (pmbus_read_word_data code).
Proof. unfold pmbus_read_word_data. frame. Qed.

#[global] Hint Resolve smbus_quick_calm pmbus_read_byte_data_calm
  pmbus_read_word_data_calm : frame.

Lemma read_block_try_i2c_calm code read_len read_buf len retval :
  preserves calm (read_block_try_i2c code read_len read_buf len retval).
Proof. unfold read_block_try_i2c. frame. Qed.

#[global] Hint Resolve read_block_try_i2c_calm : frame.

Lemma pmbus_read_block_calm code read_len read_buf :
  preserves calm (pmbus_read_block code read_len read_buf).
Proof. unfold pmbus_read_block. frame. Qed.

Lemma smbus_write_byte_calm byte : preserves calm (smbus_write_byte byte).
Proof. unfold smbus_write_byte. frame. Qed.

Lemma coefficients_calm i read : preserves calm (coefficients i read).
Proof. unfold coefficients. frame. Qed.

#[global] Hint Resolve pmbus_read_block_calm smbus_write_byte_calm
  coefficients_calm : frame.

Lemma vout_mode_is_linear_calm : preserves calm vout_mode_is_linear.
Proof. unfold vout_mode_is_linear. frame. Qed.

Lemma pmbus_to_vout_format_calm value :
  preserves calm (pmbus_to_vout_format value).
Proof. unfold pmbus_to_vout_format. frame. Qed.

#[global] Hint Resolve vout_mode_is_linear_calm pmbus_to_vout_format_calm
  : frame.

Lemma is_vout_format_calm d : preserves calm (is_vout_format d).
Proof. unfold is_vout_format. frame. Qed.

#[global] Hint Resolve is_vout_format_calm : frame.

Lemma show_command_calm i : preserves calm (show_command i).
Proof. unfold show_command. frame. Qed.

Lemma show_value_calm i : preserves calm (show_value i).
Proof. unfold show_value. frame. Qed.

#[global] Hint Resolve show_command_calm show_value_calm : frame.

Lemma pmbus_dev_show_commands_calm : preserves calm pmbus_dev_show_commands.
Proof. unfold pmbus_dev_show_commands. frame. Qed.

Lemma pmbus_dev_show_values_calm : preserves calm pmbus_dev_show_values.
Proof. unfold pmbus_dev_show_values. frame. Qed.

#[global] Hint Resolve pmbus_dev_show_commands_calm
  pmbus_dev_show_values_calm : frame.

(** ** QUERY: what a negotiation may change *)

Lemma query_word_small code :
  0 <= code < 256 -> query_word code = 256 * code + 1.
Proof.
  intros H. unfold query_word, u16.
  rewrite Z.shiftl_mul_pow2 by lia.
  rewrite <- Z.lxor_lor, <- Z.add_nocarry_lxor.
  - rewrite Z.mod_small; lia.
  - change 1 with (Z.ones 1). rewrite Z.land_ones by lia.
    change (2 ^ 8) with (2 * 128). rewrite Z.mul_assoc.
    rewrite Z.mul_comm, Z.mul_assoc. apply Z.mod_mul. lia.
  - change 1 with (Z.ones 1). rewrite Z.land_ones by lia.
    change (2 ^ 8) with (2 * 128). rewrite Z.mul_assoc.
    rewrite Z.mul_comm, Z.mul_assoc. apply Z.mod_mul. lia.
Qed.

Lemma query_word_inj c c' :
  0 <= c < 256 -> 0 <= c' < 256 -> query_word c = query_word c' -> c = c'.
Proof. intros H H'. rewrite !query_word_small by assumption. lia. Qed.

Lemma queries_for_snoc_other code l rq r :
  rq <> I2C_SMBUS_PROC_CALL PMB_QUERY (query_word code) ->
  queries_for code (l ++ [(rq, r)]) = queries_for code l.
Proof.
  intros H. unfold queries_for. rewrite filter_app, filter_cons.
  rewrite decide_False; [apply app_nil_r | exact H].
Qed.

Lemma bind_slot_bound_stable code p w a w' :
  op (pmdev w) !! code = None ->
  bind_slot code p w = Done a w' -> bound_stable w w'.
Proof.
  unfold bind_slot. intros Hn H.
  destruct ((0 <=? code) && (code <? 256)); [| discriminate].
  injection H as _ <-. intros c q Hc. simpl. split; [| reflexivity].
  rewrite lookup_insert_ne; [exact Hc | congruence].
Qed.

Lemma mark_no_query_bound_stable : preserves bound_stable mark_no_query.
Proof. intros w [] w' [= <-]. intros c q Hc. simpl. auto. Qed.

Lemma calm_bound_stable w w' : calm w w' -> bound_stable w w'.
Proof. intros H. apply steady_bound_stable, calm_steady, H. Qed.

Ltac inv_bind H :=
  let a := fresh "a" in
  let w := fresh "w" in
  let E := fresh "E" in
  apply bind_done in H; destruct H as (a & w & E & H).

(** The part of [query] after the slot is bound: coefficients, and the
    exponent of VOUT_MODE. *)
Lemma query_enrichment_calm i d word :
  preserves calm
    (coeff <- slot PMB_COEFFICIENTS ;;
     when ((Z.land (Z.shiftr word 2) 7 =? 3) && bool_decide (is_Some coeff))
       (when (truthy (Z.land word 0x20)) (coefficients i 1) ;;;
        when (truthy (Z.land word 0x40)) (coefficients i 0)) ;;;
     when (cmd d =? PMB_VOUT_MODE)
       (value <- pmbus_read_byte_data (cmd d) ;;
        update_op i (fun d =>
          with_c 0 (with_R (s8 value) (c0 d))
            (with_c 1 (with_R (s8 value) (c1 d)) d)))).
Proof. frame. Qed.

Lemma query_bound_stable i w d a w' :
  pmbus_ops w !! i = Some d ->
  0 <= cmd d < 256 ->
  op (pmdev w) !! cmd d = None ->
  query i w = Done a w' -> bound_stable w w'.
Proof.
  intros Hd Hr Hn H. unfold query in H.
  inv_bind H. unfold deref_op, bind, get in E. rewrite Hd in E.
  injection E as <- <-.
  destruct (cmd d >? 255); [injection H as _ <-; reflexivity |].
  inv_bind H. injection E as <- <-.
  set (rq := I2C_SMBUS_PROC_CALL PMB_QUERY (query_word (cmd d))) in *.
  set (r := bus w (log w) rq) in *.
  set (w1 := set_log (log w ++ [(rq, r)]) w) in *.
  assert (Hn1 : op (pmdev w1) !! cmd d = None) by exact Hn.
  assert (H01 : bound_stable w w1).
  { intros c q Hc. split; [exact Hc |]. intros Hcr. simpl.
    apply queries_for_snoc_other. unfold rq. intros [= Hw].
    apply query_word_inj in Hw; [congruence | lia | lia]. }
  transitivity w1; [exact H01 |]. clearbody w1. clear H01 Hn.
  destruct r as [e | data].
  { eapply mark_no_query_bound_stable, H. }
  destruct (negb (Z.land (word_after _ data) 255 =? 1)).
  { eapply mark_no_query_bound_stable, H. }
  destruct (negb (truthy _)).
  { eapply bind_slot_bound_stable; eassumption. }
  inv_bind H. apply update_op_calm in E as Hc1.
  inv_bind H. apply bind_slot_bound_stable in E0 as Hb;
    [| destruct Hc1 as [-> _]; exact Hn1].
  transitivity w0; [apply calm_bound_stable, Hc1 |].
  transitivity w2; [exact Hb |].
  apply calm_bound_stable. eapply query_enrichment_calm, H.
Qed.

Lemma query_first_bound_stable code k : forall i w a w',
  0 <= code < 256 ->
  op (pmdev w) !! code = None ->
  query_first code i k w = Done a w' -> bound_stable w w'.
Proof.
  induction k as [|k IH]; intros i w a w' Hr Hn H; simpl in H;
    unfold bind at 1, get in H.
  - destruct (no_query (pmdev w)); [| discriminate].
    injection H as _ <-. reflexivity.
  - destruct (no_query (pmdev w)); [injection H as _ <-; reflexivity |].
    inv_bind H. unfold deref_op, bind, get in E.
    destruct (pmbus_ops w !! i) as [d|] eqn:Hd; [| discriminate].
    injection E as <- <-.
    destruct (tag d); [| injection H as _ <-; reflexivity].
    destruct (cmd d =? code) eqn:Hc.
    + apply Z.eqb_eq in Hc. subst code.
      eapply query_bound_stable; eassumption.
    + eapply IH; eassumption.
Qed.

(** ** [checksupport], equationally *)

(** The value [checksupport] returns from the state it leaves. *)
Definition support_of (w : world) (code : Z) : Z :=
  if bool_decide (op (pmdev w) !! code = Some PUnsupported) then 0 else 1.

(** The entry tests of [checksupport] that answer "can't tell". *)
Definition cannot_tell (w : world) (code : Z) : bool :=
  is_pmb_extended code
  || bool_decide (op (pmdev w) !! PMB_QUERY = Some PUnsupported)
  || no_query (pmdev w).

Lemma checksupport_unfold code w :
  checksupport code w =
  if cannot_tell w code then Done (-1) w
  else if (0 <=? code) && (code <? 256) then
    match op (pmdev w) !! code with
    | Some _ => Done (support_of w code) w
    | None =>
        match query_first code 0 (length (pmbus_ops w)) w with
        | Done _ w' => Done (support_of w' code) w'
        | Fault => Fault
        end
    end
  else Fault.
Proof.
  unfold checksupport, cannot_tell, support_of.
  destruct (is_pmb_extended code); [reflexivity |]. simpl.
  unfold bind at 1, get.
  destruct (bool_decide _ || no_query (pmdev w)); [reflexivity |].
  unfold slot. destruct ((0 <=? code) && (code <? 256)); [| reflexivity].
  unfold bind at 1. unfold bind at 1, get, ret.
  destruct (op (pmdev w) !! code) as [p|] eqn:Hp.
  - rewrite bool_decide_eq_false_2 by discriminate. simpl.
    unfold bind, ret. rewrite Hp. reflexivity.
  - rewrite bool_decide_eq_true_2 by reflexivity. simpl.
    unfold bind at 1.
    destruct (query_first code 0 (length (pmbus_ops w)) w); reflexivity.
Qed.

Lemma checksupport_steady code : preserves steady (checksupport code).
Proof.
  intros w r w' H. rewrite checksupport_unfold in H.
  destruct (cannot_tell w code) eqn:Hg; [injection H as _ <-; reflexivity |].
  destruct ((0 <=? code) && (code <? 256)) eqn:Hr; [| discriminate].
  apply andb_prop in Hr as [Hr1%Z.leb_le Hr2%Z.ltb_lt].
  unfold cannot_tell in Hg. apply orb_false_elim in Hg as [_ Hnq].
  split; [intros Hq; congruence |].
  destruct (op (pmdev w) !! code) eqn:Hp; [injection H as _ <-; reflexivity |].
  destruct (query_first _ _ _ _) eqn:Hq; [| discriminate].
  injection H as _ <-.
  eapply query_first_bound_stable in Hq; [exact Hq | lia | exact Hp].
Qed.

Lemma calm_preserves_steady {A} (m : M A) :
  preserves calm m -> preserves steady m.
Proof. apply preserves_weaken, calm_steady. Qed.

Lemma steady_preserves_sticky {A} (m : M A) :
  preserves steady m -> preserves sticky m.
Proof. apply preserves_weaken, steady_sticky. Qed.

#[global] Hint Resolve checksupport_steady : frame.
#[global] Hint Extern 5 (preserves steady _) =>
  (apply calm_preserves_steady; solve [frame]) : frame.

(** ** The reports and the scan *)

Lemma pmbus_read_string_steady code : preserves steady (pmbus_read_string code).
Proof. unfold pmbus_read_string. frame. Qed.

#[global] Hint Resolve pmbus_read_string_steady : frame.

Lemma pmbus_list_inventory_steady : preserves steady pmbus_list_inventory.
Proof. unfold pmbus_list_inventory. frame. Qed.

Lemma status_byte_steady code : preserves steady (status_byte code).
Proof. unfold status_byte. frame. Qed.

#[global] Hint Resolve pmbus_list_inventory_steady status_byte_steady : frame.

Lemma show_status_details_steady value :
  preserves steady (show_status_details value).
Proof.
  unfold show_status_details, show_status_vout, show_status_iout,
    show_status_input, show_status_mfr_specific, show_status_fans,
    show_status_other, show_status_temperature, show_status_cml.
  frame.
Qed.

#[global] Hint Resolve show_status_details_steady : frame.

Lemma pmbus_dev_show_status_steady : preserves steady pmbus_dev_show_status.
Proof. unfold pmbus_dev_show_status. frame. Qed.

Lemma pmbus_clear_fault_steady : preserves steady pmbus_clear_fault.
Proof. unfold pmbus_clear_fault. frame. Qed.

Lemma pmbus_dev_scan_steady : preserves steady pmbus_dev_scan.
Proof. unfold pmbus_dev_scan, pmbus_quick. frame. Qed.

#[global] Hint Resolve pmbus_dev_show_status_steady pmbus_clear_fault_steady
  pmbus_dev_scan_steady : frame.

Lemma run_op_steady o : sweeps o = false -> preserves steady (run_op o).
Proof. destruct o; intros [=]; unfold run_op; frame. Qed.

Lemma run_steady l :
  forallb (fun o => negb (sweeps o)) l = true -> preserves steady (run l).
Proof.
  unfold run. induction l as [|o l IH]; simpl; intros H.
  - apply preserves_ret. exact _.
  - apply andb_prop in H as [Ho Hl]. apply negb_true_iff in Ho.
    apply preserves_bind; [exact _ | apply run_op_steady, Ho |].
    intros _. apply IH, Hl.
Qed.

(** ** The sweep and whole sessions under a given-up QUERY *)

Lemma query_all_no_query i k w :
  no_query (pmdev w) = true -> query_all i k w = Done tt w.
Proof. destruct k; simpl; unfold bind, get; intros ->; reflexivity. Qed.

Lemma query_all_sticky i k : preserves sticky (query_all i k).
Proof.
  intros w a w' H Hnq. rewrite query_all_no_query in H by assumption.
  injection H as _ <-. auto.
Qed.

#[global] Hint Resolve query_all_sticky : frame.
#[global] Hint Extern 5 (preserves sticky _) =>
  (apply steady_preserves_sticky; solve [frame]) : frame.

Lemma pmbus_dev_show_p1_sticky : preserves sticky pmbus_dev_show_p1.
Proof. unfold pmbus_dev_show_p1. frame. Qed.

#[global] Hint Resolve pmbus_dev_show_p1_sticky : frame.

Lemma run_op_sticky o : preserves sticky (run_op o).
Proof.
  destruct (sweeps o) eqn:Ho.
  - destruct o; try discriminate. apply pmbus_dev_show_p1_sticky.
  - apply steady_preserves_sticky, run_op_steady, Ho.
Qed.

Lemma run_sticky l : preserves sticky (run l).
Proof.
  unfold run. apply preserves_for_each; [exact _ |]. apply run_op_sticky.
Qed.

Lemma checksupport_no_query code w :
  no_query (pmdev w) = true -> checksupport code w = Done (-1) w.
Proof.
  intros H. rewrite checksupport_unfold. unfold cannot_tell.
  rewrite H, orb_true_r. reflexivity.
Qed.

(** What [query] does when the negotiation fails. *)
Lemma query_failure i w d :
  pmbus_ops w !! i = Some d ->
  cmd d <= 0xff ->
  negotiation_fails (cmd d) (query_reply w (cmd d)) = true ->
  query i w =
  Done tt (set_pmdev (set_no_query true (pmdev w))
             (set_log (log w ++ [(I2C_SMBUS_PROC_CALL PMB_QUERY
                                    (query_word (cmd d)),
                                  query_reply w (cmd d))]) w)).
Proof.
  intros Hd Hc Hf. unfold query.
  unfold bind at 1. unfold deref_op, bind at 1, get. rewrite Hd.
  unfold ret at 1.
  destruct (cmd d >? 255) eqn:E; [apply Z.gtb_lt in E; lia |].
  unfold bind at 1, ioctl. fold (query_reply w (cmd d)).
  unfold negotiation_fails in Hf.
  destruct (query_reply w (cmd d)) as [e|data]; [reflexivity |].
  rewrite Hf. reflexivity.
Qed.

(** C1.  When a QUERY negotiation fails, on a transport error or on an
    echo byte other than 1, [query] sets [no_query]; from then on, after
    any further operations of the session, the flag is still set, no
    QUERY process call has been added to the log, and [checksupport]
    answers -1 for every command code without touching the state, hence
    without any bus transaction. *)
Theorem query_failure_is_permanent (w : world) (i : nat)
    (d : pmbus_cmd_desc)
    (Hd : pmbus_ops w !! i = Some d)
    (Hcmd : cmd d <= 0xff)
    (Hfail : negotiation_fails (cmd d) (query_reply w (cmd d)) = true) :
  exists w1,
    query i w = Done tt w1
    /\ no_query (pmdev w1) = true
    /\ forall (l : list session_op) (w2 : world),
         run l w1 = Done tt w2 ->
         no_query (pmdev w2) = true
         /\ query_calls (log w2) = query_calls (log w1)
         /\ forall code : Z, checksupport code w2 = Done (-1) w2.
Proof.
  eexists. split; [apply query_failure; eassumption |].
  split; [reflexivity |]. intros l w2 Hrun.
  apply run_sticky in Hrun. destruct Hrun as [Hnq Hq]; [reflexivity |].
  repeat split; [exact Hnq | exact Hq |].
  intros code. apply checksupport_no_query, Hnq.
Qed.

(** A bus on which every transaction fails with EIO. *)
Definition dead_bus (h : list transaction) (rq : request) : response :=
  Failed 5.

Definition dead_world : world :=
  initial_world dead_bus (fun _ => 0) false I2C_FUNC_I2C 0x10.

Lemma query_failure_is_permanent_witness :
  exists w1,
    query 0 dead_world = Done tt w1
    /\ no_query (pmdev w1) = true
    /\ forall (l : list session_op) (w2 : world),
         run l w1 = Done tt w2 ->
         no_query (pmdev w2) = true
         /\ query_calls (log w2) = query_calls (log w1)
         /\ forall code : Z, checksupport code w2 = Done (-1) w2.
Proof.
  apply (query_failure_is_permanent dead_world 0
           (OP 0x00 "page" RW1 U_UNDEF 0)).
  - reflexivity.
  - simpl. lia.
  - reflexivity.
Defined.

(** ** The lookup loop of [checksupport] *)

Lemma query_first_catalog code w : forall t pre,
  no_query (pmdev w) = false ->
  pmbus_ops w = pre ++ t ->
  query_first code (length pre) (length t) w =
  match catalog_index code t (length pre) with
  | Some (Some i) => query i w
  | Some None => Done tt w
  | None => Fault
  end.
Proof.
  induction t as [|d t IH]; intros pre Hnq Ht; simpl;
    unfold bind at 1, get; rewrite Hnq; [reflexivity |].
  unfold bind at 1, deref_op, bind at 1, get.
  rewrite Ht, lookup_app_r, Nat.sub_diag by lia. simpl. unfold ret at 1.
  destruct (tag d); [| reflexivity].
  destruct (cmd d =? code); [reflexivity |].
  specialize (IH (pre ++ [d]) Hnq). rewrite length_app in IH. simpl in IH.
  rewrite Nat.add_1_r in IH. apply IH. rewrite <- app_assoc. exact Ht.
Qed.

Lemma query_first_lookup code w :
  no_query (pmdev w) = false ->
  query_first code 0 (length (pmbus_ops w)) w =
  match catalog_index code (pmbus_ops w) 0 with
  | Some (Some i) => query i w
  | Some None => Done tt w
  | None => Fault
  end.
Proof. intros H. apply (query_first_catalog code w (pmbus_ops w) [] H eq_refl). Qed.

Lemma catalog_index_found code : forall t i j,
  catalog_index code t i = Some (Some j) ->
  exists d, t !! (j - i)%nat = Some d /\ cmd d = code /\ (i <= j)%nat.
Proof.
  induction t as [|d t IH]; intros i j H; simpl in H; [discriminate |].
  destruct (tag d); [| discriminate].
  destruct (cmd d =? code) eqn:E.
  - injection H as <-. rewrite Nat.sub_diag. exists d.
    apply Z.eqb_eq in E. auto.
  - apply IH in H as (d' & Hd & Hc & Hle). exists d'.
    replace (j - i)%nat with (S (j - S i)) by lia. simpl. split; [exact Hd |].
    split; [exact Hc | lia].
Qed.

Lemma small_not_extended code :
  0 <= code < 256 -> is_pmb_extended code = false.
Proof.
  intros H. unfold is_pmb_extended. apply Z.eqb_neq.
  rewrite <- (Z.mod_small code (2 ^ 8)) by (simpl; lia).
  rewrite <- Z.land_ones, <- Z.land_assoc by lia.
  change (Z.land (Z.ones 8) 65024) with 0. rewrite Z.land_0_r. discriminate.
Qed.

(** The answers of consecutive [checksupport] calls. *)
Fixpoint checksupport_each (codes : list Z) : M (list Z) :=
  match codes with
  | [] => ret []
  | code :: rest =>
      r <- checksupport code ;;
      rs <- checksupport_each rest ;;
      ret (r :: rs)
  end.

(** C9, as stated, fails.  On a bus where every transaction fails, the
    first [checksupport (PMB_CAPABILITY)] answers 1 and sets [no_query].
    After it the slot of CAPABILITY and the slot of 0x06, a code the
    table does not list, are null, not the sentinel, and [checksupport]
    answers -1 for both. *)
Lemma unbound_slot_can_answer_unknown :
  result_of (checksupport_each [PMB_CAPABILITY; PMB_CAPABILITY; 0x06]
               dead_world)
    = Some [1; -1; -1]
  /\ catalog_index 0x06 pmbus_ops_static 0 = Some None
  /\ match checksupport_each [PMB_CAPABILITY; PMB_CAPABILITY; 0x06]
             dead_world with
     | Done _ w' => op (pmdev w') !! PMB_CAPABILITY = None
                    /\ op (pmdev w') !! 0x06 = None
     | Fault => False
     end.
Proof. repeat split; vm_compute; reflexivity. Qed.

(** C9, amended.  Past its entry tests (QUERY itself not bound to the
    sentinel, [no_query] clear), [checksupport] on an 8-bit command code
    answers 1 whenever the slot it leaves is not bound to [&unsupported],
    and 0 only when it is.  In particular it answers 1 with the slot
    still null: for every code that the table does not list, where
    nothing at all is done; and on the very call whose negotiation fails,
    which sets [no_query] and leaves the slot unbound. *)
Theorem checksupport_yes_unless_sentinel (w : world) (code : Z)
    (Hrange : 0 <= code < 256)
    (Hquery : op (pmdev w) !! PMB_QUERY <> Some PUnsupported)
    (Hnq : no_query (pmdev w) = false) :
  (forall r w', checksupport code w = Done r w' ->
     (op (pmdev w') !! code <> Some PUnsupported -> r = 1)
     /\ (op (pmdev w') !! code = Some PUnsupported -> r = 0))
  /\ (op (pmdev w) !! code = None ->
      catalog_index code (pmbus_ops w) 0 = Some None ->
      checksupport code w = Done 1 w)
  /\ (forall i,
      op (pmdev w) !! code = None ->
      catalog_index code (pmbus_ops w) 0 = Some (Some i) ->
      negotiation_fails code (query_reply w code) = true ->
      exists w', checksupport code w = Done 1 w'
                 /\ no_query (pmdev w') = true
                 /\ op (pmdev w') !! code = None).
Proof.
  assert (Hg : cannot_tell w code = false).
  { unfold cannot_tell. rewrite Hnq, bool_decide_eq_false_2 by exact Hquery.
    rewrite small_not_extended by exact Hrange. reflexivity. }
  assert (Hr : (0 <=? code) && (code <? 256) = true).
  { apply andb_true_intro. split; [apply Z.leb_le | apply Z.ltb_lt]; lia. }
  assert (Hres : forall r w', checksupport code w = Done r w' ->
                               r = support_of w' code).
  { intros r w' H. rewrite checksupport_unfold, Hg, Hr in H.
    destruct (op (pmdev w) !! code);
      [| destruct (query_first _ _ _ _); [| discriminate]];
      injection H as <- <-; reflexivity. }
  repeat split.
  - intros Hs. rewrite (Hres _ _ H). unfold support_of.
    rewrite bool_decide_eq_false_2 by exact Hs. reflexivity.
  - intros Hs. rewrite (Hres _ _ H). unfold support_of.
    rewrite bool_decide_eq_true_2 by exact Hs. reflexivity.
  - intros Hn Ha. rewrite checksupport_unfold, Hg, Hr, Hn.
    rewrite query_first_lookup, Ha by exact Hnq.
    unfold support_of. rewrite Hn, bool_decide_eq_false_2 by discriminate.
    reflexivity.
  - intros i Hn Hi Hf. rewrite checksupport_unfold, Hg, Hr, Hn.
    rewrite query_first_lookup, Hi by exact Hnq.
    apply catalog_index_found in Hi as (d & Hd & Hc & _).
    rewrite Nat.sub_0_r in Hd. subst code.
    rewrite (query_failure i w d Hd) by (lia || exact Hf).
    match goal with
    | |- exists w', Done _ ?X = _ /\ _ => exists X
    end.
    split; [| split; [reflexivity | exact Hn]].
    unfold support_of. simpl. rewrite Hn.
    rewrite bool_decide_eq_false_2 by discriminate. reflexivity.
Qed.

Lemma checksupport_yes_unless_sentinel_witness :
  checksupport 0x06 dead_world = Done 1 dead_world
  /\ exists w', checksupport PMB_CAPABILITY dead_world = Done 1 w'
                /\ no_query (pmdev w') = true
                /\ op (pmdev w') !! PMB_CAPABILITY = None.
Proof.
  split.
  - apply (proj1 (proj2 (checksupport_yes_unless_sentinel dead_world 0x06
                           ltac:(lia) ltac:(vm_compute; discriminate)
                           eq_refl))).
    + reflexivity.
    + reflexivity.
  - apply (proj2 (proj2 (checksupport_yes_unless_sentinel dead_world
                           PMB_CAPABILITY
                           ltac:(unfold PMB_CAPABILITY; lia)
                           ltac:(vm_compute; discriminate)
                           eq_refl)) 16%nat).
    + reflexivity.
    + reflexivity.
    + reflexivity.
Defined.

(** ** Bound slots over a session *)

(** A device that implements QUERY and reports every command, QUERY
    included, as not supported. *)
Definition refusing_bus (h : list transaction) (rq : request) : response :=
  match rq with
  | I2C_SMBUS_PROC_CALL _ _ => Ok [1; 0]
  | _ => Failed 5
  end.

Definition refusing_world : world :=
  initial_world refusing_bus (fun _ => 0) false I2C_FUNC_I2C 0x10.

(** A device that reports CAPABILITY as not supported and fails every
    other negotiation. *)
Definition capless_bus (h : list transaction) (rq : request) : response :=
  match rq with
  | I2C_SMBUS_PROC_CALL _ word =>
      if word =? query_word PMB_CAPABILITY then Ok [1; 0] else Failed 5
  | _ => Failed 5
  end.

Definition capless_world : world :=
  initial_world capless_bus (fun _ => 0) false I2C_FUNC_I2C 0x10.

(** C3, as stated, fails.  With a device that reports QUERY itself as not
    supported, [checksupport (PMB_QUERY)] answers 0 and the next call
    for the same code answers -1.  With a device that reports CAPABILITY
    as not supported and then fails the negotiation for PMBUS_REVISION,
    [checksupport (PMB_CAPABILITY)] answers 0, then -1. *)
Lemma unsupported_answer_can_turn_unknown :
  result_of (checksupport_each [PMB_QUERY; PMB_QUERY] refusing_world)
    = Some [0; -1]
  /\ result_of (checksupport_each
                  [PMB_CAPABILITY; PMB_PMBUS_REVISION; PMB_CAPABILITY]
                  capless_world)
    = Some [0; 1; -1].
Proof. split; vm_compute; reflexivity. Qed.

(** C3, amended.  Once [checksupport (cmd)] has answered 0, then after
    any further operations of the session other than the sweep of
    [pmbus_dev_show_p1], the slot is still bound to [&unsupported], no
    QUERY for that code has been added to the log, and a further
    [checksupport (cmd)] leaves the state untouched, so issues no bus
    transaction, and answers 0, unless [no_query] has been set or QUERY's
    own slot is bound to [&unsupported], where it answers -1. *)
Theorem unsupported_answer_persists (w w1 w2 : world) (code : Z)
    (l : list session_op)
    (H0 : checksupport code w = Done 0 w1)
    (Hl : forallb (fun o => negb (sweeps o)) l = true)
    (Hrun : run l w1 = Done tt w2) :
  op (pmdev w2) !! code = Some PUnsupported
  /\ queries_for code (log w2) = queries_for code (log w1)
  /\ checksupport code w2
     = Done (if cannot_tell w2 code then -1 else 0) w2.
Proof.
  rewrite checksupport_unfold in H0.
  destruct (cannot_tell w code) eqn:Hg; [discriminate |].
  destruct ((0 <=? code) && (code <? 256)) eqn:Hr; [| discriminate].
  assert (H1 : op (pmdev w1) !! code = Some PUnsupported).
  { assert (Hs : support_of w1 code = 0).
    { destruct (op (pmdev w) !! code);
        [| destruct (query_first _ _ _ _); [| discriminate]];
        injection H0 as E <-; exact E. }
    unfold support_of in Hs.
    destruct (bool_decide _) eqn:E; [| discriminate].
    apply bool_decide_eq_true_1 in E. exact E. }
  apply run_steady in Hrun; [| exact Hl].
  destruct (proj2 Hrun code PUnsupported H1) as [H2 Hq].
  split; [exact H2 |]. split.
  - apply Hq. apply andb_prop in Hr as [?%Z.leb_le ?%Z.ltb_lt]. lia.
  - rewrite checksupport_unfold. destruct (cannot_tell w2 code); [reflexivity |].
    rewrite Hr, H2. unfold support_of.
    rewrite bool_decide_eq_true_2 by exact H2. reflexivity.
Qed.

(** The state a session leaves, the initial one if it faults. *)
Definition world_after (l : list session_op) (w : world) : world :=
  match run l w with
  | Done _ w' => w'
  | Fault => w
  end.

(** The state after the refusing device was asked about CAPABILITY. *)
Definition refused_world : world :=
  match checksupport PMB_CAPABILITY refusing_world with
  | Done _ w => w
  | Fault => refusing_world
  end.

Lemma unsupported_answer_persists_witness :
  let w2 := world_after [ReadString PMB_MFR_ID; ShowStatus; ShowValues;
                         ShowCommands; ClearFault;
                         CheckSupport PMB_CAPABILITY] refused_world in
  op (pmdev w2) !! PMB_CAPABILITY = Some PUnsupported
  /\ queries_for PMB_CAPABILITY (log w2)
     = queries_for PMB_CAPABILITY (log refused_world)
  /\ checksupport PMB_CAPABILITY w2
     = Done (if cannot_tell w2 PMB_CAPABILITY then -1 else 0) w2.
Proof.
  apply (unsupported_answer_persists refusing_world refused_world _
           PMB_CAPABILITY
           [ReadString PMB_MFR_ID; ShowStatus; ShowValues; ShowCommands;
            ClearFault; CheckSupport PMB_CAPABILITY]).
  - vm_compute. reflexivity.
  - reflexivity.
  - vm_compute. reflexivity.
Defined.

(** A device that reports a command as supported the first time it is
    asked about it and as not supported every time after. *)
Definition fickle_bus (h : list transaction) (rq : request) : response :=
  match rq with
  | I2C_SMBUS_PROC_CALL _ _ =>
      if existsb (fun t => bool_decide (fst t = rq)) h
      then Ok [1; 0] else Ok [1; 0xa0]
  | _ => Failed 5
  end.

Definition fickle_world : world :=
  initial_world fickle_bus (fun _ => 0) false I2C_FUNC_I2C 0x10.

(** C4, as stated, fails.  After [pmbus_dev_scan] the CAPABILITY slot is
    bound to its descriptor, entry 16 of the table; the sweep of
    [pmbus_dev_show_p1] negotiates it again and, the device answering
    otherwise, rebinds the slot to [&unsupported]. *)
Lemma sweep_rebinds_bound_slot :
  slot_after [Scan] fickle_world PMB_CAPABILITY = Some (Some (POp 16))
  /\ slot_after [Scan; ShowP1] fickle_world PMB_CAPABILITY
     = Some (Some PUnsupported).
Proof. split; vm_compute; reflexivity. Qed.

(** C4, amended.  Over any sequence of session operations other than the
    sweep of [pmbus_dev_show_p1] (scan, [checksupport] calls, inventory
    strings, status, value and command reports, fault clearing), a slot
    that is bound, to [&unsupported] or to a descriptor, is bound to the
    same pointer at the end. *)
Theorem bound_slot_kept_without_sweep (w w' : world) (l : list session_op)
    (code : Z) (p : desc_ptr)
    (Hl : forallb (fun o => negb (sweeps o)) l = true)
    (Hrun : run l w = Done tt w')
    (Hb : op (pmdev w) !! code = Some p) :
  op (pmdev w') !! code = Some p.
Proof.
  apply run_steady in Hrun; [| exact Hl].
  apply (proj2 Hrun code p Hb).
Qed.

Lemma bound_slot_kept_without_sweep_witness :
  op (pmdev (world_after [Scan; ListInventory; ShowStatus; ShowValues;
                          ShowCommands; ClearFault] refused_world))
    !! PMB_CAPABILITY = Some PUnsupported.
Proof.
  apply (bound_slot_kept_without_sweep refused_world _
           [Scan; ListInventory; ShowStatus; ShowValues; ShowCommands;
            ClearFault]).
  - reflexivity.
  - vm_compute. reflexivity.
  - vm_compute. reflexivity.
Defined.

(** ** Block reads *)

Lemma pmb_8bit_not_extended code :
  is_pmb_8bit code = true -> is_pmb_extended code = false.
Proof.
  unfold is_pmb_8bit, is_pmb_extended.
  intros [H _]%andb_prop. apply Z.eqb_eq in H. apply Z.eqb_neq.
  replace (Z.land code 0xfe00) with (Z.land (Z.land code 0xff00) 0xfe00).
  - rewrite H. discriminate.
  - rewrite <- Z.land_assoc. reflexivity.
Qed.

(** Stepping through a computation. *)
Lemma bind_get {B} (f : world -> M B) w : bind get f w = f w w.
Proof. reflexivity. Qed.

Lemma bind_ret {A B} (a : A) (f : A -> M B) w : bind (ret a) f w = f a w.
Proof. reflexivity. Qed.

Lemma bind_ioctl {B} rq (f : response -> M B) w :
  bind (ioctl rq) f w
  = f (bus w (log w) rq) (set_log (log w ++ [(rq, bus w (log w) rq)]) w).
Proof. reflexivity. Qed.

Lemma bind_modify {B} g (f : unit -> M B) w :
  bind (modify g) f w = f tt (g w).
Proof. reflexivity. Qed.

Lemma bind_bind {A B C} (m : M A) (f : A -> M B) (g : B -> M C) w :
  bind (bind m f) g w = bind m (fun a => bind (f a) g) w.
Proof. unfold bind. destruct (m w); reflexivity. Qed.

Lemma bind_fault_l {A B} (f : A -> M B) w : bind fault f w = Fault.
Proof. reflexivity. Qed.

Lemma pec_after_app init l l' :
  pec_after init (l ++ l') = pec_after (pec_after init l) l'.
Proof. unfold pec_after. apply fold_left_app. Qed.

(** C5, where the code departs from it.  With PEC in use, when the byte
    read that discovers the block length fails, [pmbus_read_block]
    returns the error at once: the only transactions it made are the
    request that switches PEC off and the failed read, and the adapter is
    left with PEC off although [use_pec] is still set. *)
Theorem read_block_failure_leaves_pec_off (w : world) (code read_len : Z)
    (buf : list Z) (e : positive)
    (Hpec : use_pec (pmdev w) = true)
    (Hlen : read_len <> 0)
    (H8 : is_pmb_8bit code = true)
    (Hoff : bus w (log w) (I2C_PEC false) = Ok [])
    (Hfail : bus w (log w ++ [(I2C_PEC false, Ok [])])
               (I2C_SMBUS_READ_BYTE_DATA code) = Failed e) :
  exists w',
    pmbus_read_block code read_len (Some buf) w = Done (- Z.pos e, buf) w'
    /\ log w' = log w ++ [(I2C_PEC false, Ok []);
                          (I2C_SMBUS_READ_BYTE_DATA code, Failed e)]
    /\ use_pec (pmdev w') = true
    /\ forall init, pec_after init (log w') = false.
Proof.
  unfold pmbus_read_block.
  destruct (read_len =? 0) eqn:E0; [apply Z.eqb_eq in E0; contradiction |].
  rewrite (pmb_8bit_not_extended code H8), H8. change (negb true) with false. cbv iota.
  rewrite bind_get, Hpec. unfold when.
  rewrite !bind_bind, bind_ioctl, Hoff, !bind_ret.
  unfold pmbus_read_byte_data.
  rewrite (pmb_8bit_not_extended code H8), H8. change (negb true) with false. cbv iota.
  rewrite bind_bind, bind_ioctl. cbn [bus log set_log].
  rewrite Hfail, bind_ret.
  replace (- Z.pos e <? 0) with true by (symmetry; apply Z.ltb_lt; lia).
  eexists. split; [reflexivity |]. simpl. rewrite <- app_assoc. simpl.
  repeat split; [exact Hpec |]. intros init.
  rewrite pec_after_app. reflexivity.
Qed.

(** A bus that accepts the PEC switch and fails every transfer. *)
Definition pec_only_bus (h : list transaction) (rq : request) : response :=
  match rq with
  | I2C_PEC _ => Ok []
  | _ => Failed 5
  end.

Definition pec_world : world :=
  set_pmdev (set_use_pec true (initial_dev I2C_FUNC_I2C 0x10))
    (set_log [(I2C_PEC true, Ok [])]
       (initial_world pec_only_bus (fun _ => 0) true I2C_FUNC_I2C 0x10)).

Lemma read_block_failure_leaves_pec_off_witness :
  exists w',
    pmbus_read_block PMB_MFR_ID 255 (Some (repeat 0 256)) pec_world
    = Done (- 5, repeat 0 256) w'
    /\ log w' = log pec_world ++ [(I2C_PEC false, Ok []);
                                  (I2C_SMBUS_READ_BYTE_DATA PMB_MFR_ID,
                                   Failed 5)]
    /\ use_pec (pmdev w') = true
    /\ forall init, pec_after init (log w') = false.
Proof.
  apply (read_block_failure_leaves_pec_off pec_world PMB_MFR_ID 255
           (repeat 0 256) 5).
  - reflexivity.
  - lia.
  - reflexivity.
  - reflexivity.
  - reflexivity.
Defined.

Lemma memcpy_done dst src size off n :
  (n <= length dst)%nat -> (off + n <= size)%nat ->
  forall w, memcpy dst src size off n w
            = Done (map (fun k => src (off + k)%nat) (seq 0 n) ++ drop n dst) w.
Proof.
  intros H1 H2 w. unfold memcpy.
  rewrite (proj2 (Nat.leb_le _ _) H1), (proj2 (Nat.leb_le _ _) H2).
  reflexivity.
Qed.

Lemma stored_lt data old k :
  (k < length data)%nat -> stored data old k = byte_at k data.
Proof.
  intros H. unfold stored. rewrite (proj2 (Nat.ltb_lt _ _) H). reflexivity.
Qed.

(** The fall-back of [pmbus_read_block] when the raw transfer answers
    with a length byte larger than the caller's buffer. *)
Lemma read_block_try_i2c_too_big w code read_len read_buf len retval
    n payload :
  truthy (Z.land (funcs (pmdev w)) I2C_FUNC_I2C) = true ->
  bus w (log w) (I2C_RDWR (addr (pmdev w)) [Z.land code 0xff] (len + 1))
    = Ok (n :: payload) ->
  0 <= len ->
  read_len < u8 n ->
  Z.to_nat read_len = length read_buf ->
  (length read_buf <= length payload)%nat ->
  (length read_buf <= Z.to_nat len)%nat ->
  (length read_buf < 256)%nat ->
  exists w',
    read_block_try_i2c code read_len read_buf len retval w
    = Done (- E2BIG, map u8 (take (length read_buf) payload)) w'.
Proof.
  intros Hf Hb Hl Hn Hrl Hp Hlen H256. unfold read_block_try_i2c.
  rewrite bind_get, Hf, bind_ioctl, Hb.
  cbv zeta.
  assert (H0 : stored (take (Z.to_nat (len + 1)) (n :: payload))
                 (fun k => match k with
                           | O => Z.land code 255
                           | S _ => uninit w k
                           end) O = u8 n).
  { rewrite stored_lt; [| rewrite length_take; simpl; lia].
    replace (Z.to_nat (len + 1)) with (S (Z.to_nat len)) by lia.
    reflexivity. }
  cbn [uninit set_log]. rewrite H0.
  destruct (u8 n <=? read_len) eqn:E; [apply Z.leb_le in E; lia |].
  rewrite Hrl.
  unfold bind at 1. rewrite memcpy_done by lia.
  eexists. unfold ret. f_equal. f_equal.
  rewrite drop_all, app_nil_r.
  replace (Z.to_nat (len + 1)) with (S (Z.to_nat len)) by lia.
  rewrite firstn_cons.
  apply list_eq. intros k. rewrite !list_lookup_fmap.
  destruct (decide (k < length read_buf)%nat) as [Hk|Hk].
  - rewrite lookup_seq_lt by exact Hk. rewrite lookup_take_lt by exact Hk.
    simpl. rewrite stored_lt by (simpl; rewrite length_take; lia).
    unfold byte_at. simpl.
    destruct (lookup_lt_is_Some_2 payload k) as [y Hy]; [lia |].
    rewrite Hy. simpl.
    assert (Hy' : take (Z.to_nat len) payload !! k = Some y).
    { rewrite lookup_take_lt by lia. exact Hy. }
    rewrite (nth_lookup_Some _ _ _ _ Hy'). reflexivity.
  - rewrite lookup_seq_ge by lia. rewrite lookup_take_ge by lia. reflexivity.
Qed.

(** C6.  A block read whose length byte is 40, into a buffer of 20
    bytes, on an adapter with the raw-message function whose raw transfer
    answers with the length byte 40 and the data: [pmbus_read_block]
    returns -E2BIG and the buffer holds the first 20 data bytes. *)
Theorem read_block_40_into_20 (w : world) (code : Z)
    (buf payload : list Z)
    (H8 : is_pmb_8bit code = true)
    (Hbuf : length buf = 20%nat)
    (Hpay : length payload = 40%nat)
    (Hi2c : truthy (Z.land (funcs (pmdev w)) I2C_FUNC_I2C) = true)
    (Hlen : forall h, bus w h (I2C_SMBUS_READ_BYTE_DATA code) = Ok [40])
    (Hraw : forall h, bus w h (I2C_RDWR (addr (pmdev w))
                                 [Z.land code 0xff] 41)
                      = Ok (40 :: payload)) :
  exists w',
    pmbus_read_block code 20 (Some buf) w
    = Done (- E2BIG, map u8 (take 20 payload)) w'.
Proof.
  unfold pmbus_read_block. change (20 =? 0) with false. cbv iota.
  rewrite (pmb_8bit_not_extended code H8), H8.
  change (negb true) with false. cbv iota.
  rewrite bind_get.
  assert (Hstep : forall w1,
            bus w1 = bus w -> pmdev w1 = pmdev w ->
            exists w',
              bind (pmbus_read_byte_data code)
                (fun len =>
                   if len <? 0 then ret (len, buf)
                   else
                     w2 <- get ;;
                     when (use_pec (pmdev w2))
                       (_ <- ioctl (I2C_PEC true) ;; ret tt) ;;;
                     if len >? I2C_SMBUS_BLOCK_MAX then
                       read_block_try_i2c code 20 buf len (- EFBIG)
                     else if negb (truthy (Z.land (funcs (pmdev w2))
                                     I2C_FUNC_SMBUS_READ_BLOCK_DATA)) then
                       read_block_try_i2c code 20 buf len (- EOPNOTSUPP)
                     else
                       r <- ioctl (I2C_SMBUS_READ_BLOCK_DATA code) ;;
                       match r with
                       | Failed e =>
                           read_block_try_i2c code 20 buf len (- Z.pos e)
                       | Ok data =>
                           let block := stored (take 34 data) (uninit w2) in
                           if block O <=? 20 then
                             if block O >? 32 then
                               read_block_try_i2c code 20 buf len (- EFBIG)
                             else
                               b <- memcpy buf block 34 1
                                      (Z.to_nat (block O)) ;;
                               ret (block O, b)
                           else
                             b <- memcpy buf block 34 1 (Z.to_nat 20) ;;
                             ret (- E2BIG, b)
                       end) w1
              = Done (- E2BIG, map u8 (take 20 payload)) w').
  { intros w1 Hb Hd. unfold pmbus_read_byte_data.
    rewrite (pmb_8bit_not_extended code H8), H8.
    change (negb true) with false. cbv iota.
    rewrite bind_bind, bind_ioctl, Hb, Hlen, bind_ret.
    change (byte_at 0 [40] <? 0) with false. cbv iota.
    change (byte_at 0 [40] >? I2C_SMBUS_BLOCK_MAX) with true. cbv iota.
    rewrite bind_get.
    assert (Htry : forall w3,
              bus w3 = bus w -> pmdev w3 = pmdev w ->
              exists w',
                read_block_try_i2c code 20 buf (byte_at 0 [40]) (- EFBIG) w3
                = Done (- E2BIG, map u8 (take 20 payload)) w').
    { intros w3 Hb3 Hd3.
      rewrite <- Hbuf.
      apply (read_block_try_i2c_too_big w3 code 20 buf (byte_at 0 [40])
               (- EFBIG) 40 payload).
      - rewrite Hd3. exact Hi2c.
      - rewrite Hb3, Hd3. apply Hraw.
      - vm_compute. discriminate.
      - vm_compute. reflexivity.
      - rewrite Hbuf. reflexivity.
      - rewrite Hbuf, Hpay. lia.
      - rewrite Hbuf. vm_compute. lia.
      - rewrite Hbuf. lia. }
    destruct (use_pec (pmdev _)); unfold when.
    - rewrite !bind_bind, bind_ioctl, !bind_ret. apply Htry; [apply Hb | apply Hd].
    - rewrite bind_ret. apply Htry; [apply Hb | apply Hd]. }
  destruct (use_pec (pmdev w)); unfold when.
  - rewrite !bind_bind, bind_ioctl, !bind_ret. apply Hstep; reflexivity.
  - rewrite bind_ret. apply Hstep; reflexivity.
Qed.

(** A device whose MFR_ID block is 40 bytes long: 1, 2, ..., 40. *)
Definition long_payload : list Z := map Z.of_nat (seq 1 40).

Definition long_block_bus (h : list transaction) (rq : request) : response :=
  match rq with
  | I2C_SMBUS_READ_BYTE_DATA _ => Ok [40]
  | I2C_RDWR _ _ _ => Ok (40 :: long_payload)
  | _ => Failed 5
  end.

Definition long_block_world : world :=
  initial_world long_block_bus (fun _ => 0xee) false I2C_FUNC_I2C 0x10.

Lemma read_block_40_into_20_witness :
  exists w',
    pmbus_read_block PMB_MFR_ID 20 (Some (repeat 0 20)) long_block_world
    = Done (- E2BIG, map u8 (take 20 long_payload)) w'.
Proof.
  apply (read_block_40_into_20 long_block_world PMB_MFR_ID (repeat 0 20)
           long_payload).
  - reflexivity.
  - reflexivity.
  - reflexivity.
  - reflexivity.
  - intros h. reflexivity.
  - intros h. reflexivity.
Defined.

(** ** The COEFFICIENTS exchange *)

(** [data.block] as [coefficients] fills it before the call: the bytes of
    the request, then storage that was never written. *)
Definition request_block (junk : nat -> Z) (rq : request) : nat -> Z :=
  match rq with
  | I2C_SMBUS_BLOCK_PROC_CALL _ out => stored out junk
  | I2C_RDWR _ out _ => stored out junk
  | _ => junk
  end.

(** The length byte [data.block[0]] after a successful exchange: the
    first byte of the reply, or with an empty reply the byte the request
    put there. *)
Definition declared_length (rq : request) (data : list Z) : Z :=
  match data with
  | x :: _ => u8 x
  | [] => match rq with
          | I2C_SMBUS_BLOCK_PROC_CALL _ out => byte_at 0 out
          | I2C_RDWR _ out _ => byte_at 0 out
          | _ => 0
          end
  end.

Lemma stored_take n data old k :
  (k < n)%nat -> stored (take n data) old k = stored data old k.
Proof.
  intros Hk. unfold stored. rewrite length_take.
  destruct (Nat.ltb_spec k (length data)).
  - rewrite (proj2 (Nat.ltb_lt _ _)) by lia.
    unfold byte_at. f_equal. rewrite <- (take_drop n data) at 2.
    rewrite app_nth1 by (rewrite length_take; lia). reflexivity.
  - rewrite (proj2 (Nat.ltb_ge _ _)) by lia. reflexivity.
Qed.

Lemma reply_coefficients_take n data old :
  (6 <= n)%nat ->
  reply_coefficients (stored (take n data) old)
  = reply_coefficients (stored data old).
Proof.
  intros H. unfold reply_coefficients. rewrite !stored_take by lia.
  reflexivity.
Qed.

Lemma stored_length_byte data out junk :
  out <> [] ->
  stored data (stored out junk) O
  = match data with
    | x :: _ => u8 x
    | [] => byte_at 0 out
    end.
Proof.
  intros Ho. destruct data as [|x data]; [| reflexivity].
  destruct out as [|y out]; [contradiction | reflexivity].
Qed.

(** C7.  [coefficients] always returns, leaves [pmdev] alone, and
    changes the table only when the exchange succeeded with the length
    byte 5: then the addressed coefficient slot of the descriptor gets
    [m], [b], [R] from the block and becomes valid.  On a transport
    failure, on an adapter with neither function, or with any other
    length byte, the table, hence the slot's [m], [b], [R] and validity,
    is exactly what it was.  The length byte is the first byte of the
    reply; when the adapter stored nothing it is the first byte of the
    request, 2 or 0x30, and nothing is assigned. *)
Theorem coefficients_changes_only_on_five (w : world) (i : nat) (read : Z)
    (d : pmbus_cmd_desc)
    (Hd : pmbus_ops w !! i = Some d) :
  exists w',
    coefficients i read w = Done tt w'
    /\ pmdev w' = pmdev w
    /\ pmbus_ops w'
       = match coefficients_request (funcs (pmdev w)) (addr (pmdev w)) d read
         with
         | None => pmbus_ops w
         | Some rq =>
             match bus w (log w) rq with
             | Failed _ => pmbus_ops w
             | Ok data =>
                 if declared_length rq data =? 5
                 then <[i := with_c (if truthy read then 1 else 0)
                               (reply_coefficients
                                  (stored data (request_block (uninit w) rq)))
                               d]> (pmbus_ops w)
                 else pmbus_ops w
             end
         end
    /\ forall rq,
         coefficients_request (funcs (pmdev w)) (addr (pmdev w)) d read
         = Some rq ->
         bus w (log w) rq = Ok [] ->
         pmbus_ops w' = pmbus_ops w.
Proof.
  assert (Hmain : exists w',
    coefficients i read w = Done tt w'
    /\ pmdev w' = pmdev w
    /\ pmbus_ops w'
       = match coefficients_request (funcs (pmdev w)) (addr (pmdev w)) d read
         with
         | None => pmbus_ops w
         | Some rq =>
             match bus w (log w) rq with
             | Failed _ => pmbus_ops w
             | Ok data =>
                 if declared_length rq data =? 5
                 then <[i := with_c (if truthy read then 1 else 0)
                               (reply_coefficients
                                  (stored data (request_block (uninit w) rq)))
                               d]> (pmbus_ops w)
                 else pmbus_ops w
             end
         end).
  { unfold coefficients, coefficients_request.
    unfold deref_op at 1. rewrite bind_bind, bind_get, Hd, bind_ret, bind_get.
    set (rd := if truthy read then 1 else 0).
    destruct (truthy (Z.land (funcs (pmdev w)) I2C_FUNC_SMBUS_BLOCK_PROC_CALL)).
    - cbv zeta. rewrite !bind_bind, bind_ioctl, bind_ret.
      destruct (bus w (log w) _) as [e|data]; cbn [fst snd].
      + change (-1 <? 0) with true. cbv iota. eexists. split; [reflexivity |].
        split; reflexivity.
      + change (0 <? 0) with false. cbv iota.
        rewrite stored_take by lia. cbn [uninit set_log request_block].
        rewrite stored_length_byte by discriminate.
        fold (declared_length
                (I2C_SMBUS_BLOCK_PROC_CALL PMB_COEFFICIENTS
                   [2; u8 (cmd d); rd]) data).
        destruct (declared_length _ data =? 5) eqn:E; cbn [negb].
        * unfold update_op, deref_op.
          rewrite !bind_bind, bind_get. cbn [pmbus_ops set_log].
          rewrite Hd, bind_ret. unfold modify. eexists.
          split; [reflexivity |]. split; [reflexivity |].
          cbn [pmbus_ops set_pmbus_ops set_log].
          rewrite <- (reply_coefficients_take 34 data) by lia. reflexivity.
        * eexists. split; [reflexivity |]. split; reflexivity.
    - destruct (truthy (Z.land (funcs (pmdev w)) I2C_FUNC_I2C)).
      + cbv zeta. rewrite !bind_bind, bind_ioctl, bind_ret.
        destruct (bus w (log w) _) as [e|data]; cbn [fst snd].
        * change (-1 <? 0) with true. cbv iota. eexists.
          split; [reflexivity |]. split; reflexivity.
        * change (2 <? 0) with false. cbv iota.
          rewrite stored_take by lia. cbn [uninit set_log request_block].
          rewrite stored_length_byte by discriminate.
          fold (declared_length
                  (I2C_RDWR (addr (pmdev w))
                     [PMB_COEFFICIENTS; 2; u8 (cmd d); rd] 6) data).
          destruct (declared_length _ data =? 5) eqn:E; cbn [negb].
          -- unfold update_op, deref_op.
             rewrite !bind_bind, bind_get. cbn [pmbus_ops set_log].
             rewrite Hd, bind_ret. unfold modify. eexists.
             split; [reflexivity |]. split; [reflexivity |].
             cbn [pmbus_ops set_pmbus_ops set_log].
             rewrite <- (reply_coefficients_take 6 data) by lia. reflexivity.
          -- eexists. split; [reflexivity |]. split; reflexivity.
      + rewrite bind_ret. cbn [fst snd].
        change (- EOPNOTSUPP <? 0) with true. cbv iota.
        eexists. split; [reflexivity |]. split; reflexivity. }
  destruct Hmain as (w' & Hrun & Hdev & Hops).
  exists w'. split; [exact Hrun |]. split; [exact Hdev |].
  split; [exact Hops |].
  intros rq Hrq Hbus. rewrite Hops, Hrq, Hbus.
  unfold coefficients_request in Hrq.
  destruct (truthy (Z.land (funcs (pmdev w)) I2C_FUNC_SMBUS_BLOCK_PROC_CALL));
    [injection Hrq as <-; reflexivity |].
  destruct (truthy (Z.land (funcs (pmdev w)) I2C_FUNC_I2C));
    [injection Hrq as <-; reflexivity | discriminate].
Qed.

(** An adapter that reports success and stores nothing, with the value 5
    in every byte that was never written. *)
Definition mute_bus (h : list transaction) (rq : request) : response :=
  match rq with
  | I2C_SMBUS_BLOCK_PROC_CALL _ _ => Ok []
  | _ => Failed 5
  end.

Definition mute_world : world :=
  initial_world mute_bus (fun _ => 5) false
    I2C_FUNC_SMBUS_BLOCK_PROC_CALL 0x10.

Lemma coefficients_changes_only_on_five_witness :
  exists w',
    coefficients 97 1 mute_world = Done tt w'
    /\ pmdev w' = pmdev mute_world
    /\ pmbus_ops w' = pmbus_ops mute_world
    /\ forall rq,
         coefficients_request (funcs (pmdev mute_world))
           (addr (pmdev mute_world)) (OP 0x88 "read_vin" R2 VOLTS 0) 1
         = Some rq ->
         bus mute_world (log mute_world) rq = Ok [] ->
         pmbus_ops w' = pmbus_ops mute_world.
Proof.
  apply (coefficients_changes_only_on_five mute_world 97 1
           (OP 0x88 "read_vin" R2 VOLTS 0)).
  reflexivity.
Defined.

(** ** The decoders *)

Lemma mul_loop_Q n (x : Q) : forall d : Q,
  (mul_loop n x d == d * x ^ Z.of_nat n)%Q.
Proof.
  induction n as [|n IH]; intros d.
  - simpl. ring.
  - cbn [mul_loop]. rewrite IH. cbn [dmul rational].
    rewrite Nat2Z.inj_succ. unfold Z.succ.
    rewrite Qpower_plus' by lia. simpl (x ^ 1)%Q. ring.
Qed.

Lemma div_loop_Q n (x : Q) : forall d : Q,
  (div_loop n x d == d / x ^ Z.of_nat n)%Q.
Proof.
  induction n as [|n IH]; intros d.
  - simpl. unfold Qdiv. change (/ 1)%Q with 1%Q. ring.
  - cbn [div_loop]. rewrite IH. cbn [ddiv rational].
    rewrite Nat2Z.inj_succ. unfold Z.succ.
    rewrite Qpower_plus' by lia. simpl (x ^ 1)%Q.
    unfold Qdiv. rewrite Qinv_mult_distr. ring.
Qed.

(** The scaling loops of the DIRECT decoder, over the rationals. *)
Lemma direct_scaling_Q (r : Z) (d : Q) :
  ((if r <? 0 then mul_loop (Z.to_nat (- r)) (of_int 10) d
    else if r >? 0 then div_loop (Z.to_nat r) (of_int 10) d
    else d) == d / 10 ^ r)%Q.
Proof.
  destruct (Z.ltb_spec r 0) as [Hneg|Hpos].
  - rewrite mul_loop_Q, Z2Nat.id by lia. cbn [of_int rational].
    rewrite Qpower_opp. reflexivity.
  - destruct (r >? 0) eqn:E.
    + rewrite Z.gtb_ltb in E. apply Z.ltb_lt in E.
      rewrite div_loop_Q, Z2Nat.id by lia. reflexivity.
    + assert (r = 0) as -> by (rewrite Z.gtb_ltb in E; apply Z.ltb_ge in E; lia).
      simpl. unfold Qdiv. change (/ 1)%Q with 1%Q. ring.
Qed.

(** C8.  For a command whose format class is 3, [pmbus_dev_show_values]
    decodes the word as DIRECT with the read-direction coefficients
    [c[1]].  The decoder starts from the word as a signed 16-bit number,
    multiplies by ten -R times when R is negative and divides by ten R
    times when R is positive, subtracts [b] and divides by [m]; over the
    rationals that is (signed16 (raw) / 10^R - b) / m.  In binary64, with
    R = 2, m = 1, b = 0 the word 250 decodes to 2.5, and with R = -2,
    m = 1, b = 0 the word 3 decodes to 300. *)
Theorem direct_decode_formula (d : pmbus_cmd_desc) (value : Z)
    (Hfmt : Z.land (Z.shiftr (query_byte d) 2) 7 = 3) :
  decode_word d value = S_direct (direct_decode value (c1 d))
  /\ (direct_decode (D:=Q) value (c1 d)
      == (inject_Z (s16 value) / 10 ^ c_R (c1 d) - inject_Z (c_b (c1 d)))
         / inject_Z (c_m (c1 d)))%Q
  /\ direct_decode (D:=float) 250
       {| c_valid := 1; c_R := 2; c_m := 1; c_b := 0 |} = 2.5%float
  /\ direct_decode (D:=float) 3
       {| c_valid := 1; c_R := -2; c_m := 1; c_b := 0 |} = 300%float.
Proof.
  split; [unfold decode_word; rewrite Hfmt; reflexivity |].
  split; [| split; vm_compute; reflexivity].
  unfold direct_decode. cbv zeta. cbn [ddiv dsub rational].
  rewrite direct_scaling_Q. reflexivity.
Qed.

Lemma direct_decode_formula_witness :
  let d := with_c 1 {| c_valid := 1; c_R := 2; c_m := 1; c_b := 0 |}
             (with_query_byte 0xac (OP 0x88 "read_vin" R2 VOLTS 0)) in
  decode_word d 250 = S_direct 2.5%float.
Proof.
  apply (direct_decode_formula
           (with_c 1 {| c_valid := 1; c_R := 2; c_m := 1; c_b := 0 |}
              (with_query_byte 0xac (OP 0x88 "read_vin" R2 VOLTS 0)))
           250).
  reflexivity.
Defined.

(** C2, where the code departs from it.  The decoder of
    [pmbus_dev_show_values] for the LINEAR format takes the low ten bits
    as a magnitude and bit 10 as a sign, scales up only when one of the
    bits of 0x7100 is set, and scales down by 2^((16 - e) mod 16) for an
    exponent field e of 16 to 31.  So the word 0x0801 (mantissa 1,
    exponent 1) decodes to 1 where LINEAR11 gives 2; 0x07ff (mantissa -1,
    exponent 0) decodes to -1023 where LINEAR11 gives -1; and 0x8001
    (mantissa 1, exponent -16) decodes to 1 where LINEAR11 gives
    1/65536.  The results are the same in binary64 and over the
    rationals. *)
Theorem linear_decode_departs_from_linear11 :
  (linear_decode (D:=float) 0x0801 = 1%float
   /\ (linear_decode (D:=Q) 0x0801 == 1)%Q
   /\ (linear11_value 0x0801 == 2)%Q)
  /\ (linear_decode (D:=float) 0x07ff = (-1023)%float
      /\ (linear_decode (D:=Q) 0x07ff == -1023)%Q
      /\ (linear11_value 0x07ff == -1)%Q)
  /\ (linear_decode (D:=float) 0x8001 = 1%float
      /\ (linear_decode (D:=Q) 0x8001 == 1)%Q
      /\ (linear11_value 0x8001 == 1 # 65536)%Q).
Proof. repeat split; vm_compute; reflexivity. Qed.

(** ** The reports and the VOUT_MODE slot *)

(** The reports of commands and values change the log and the output
    only. *)
Definition same_tables (w w' : world) : Prop :=
  bus w' = bus w /\ pmdev w' = pmdev w /\ pmbus_ops w' = pmbus_ops w.

Global Instance same_tables_preorder : PreOrder same_tables.
Proof.
  split.
  - intros w. repeat split.
  - intros a b c (H1 & H2 & H3) (H4 & H5 & H6). repeat split; congruence.
Qed.

Lemma ioctl_same_tables rq : preserves same_tables (ioctl rq).
Proof. intros w r w' [= _ <-]. repeat split. Qed.

Lemma print_same_tables o : preserves same_tables (print o).
Proof. intros w [] w' [= <-]. repeat split. Qed.

#[global] Hint Resolve ioctl_same_tables print_same_tables : frame.

Lemma slot_same_tables code : preserves same_tables (slot code).
Proof. unfold slot. frame. Qed.

Lemma deref_op_same_tables i : preserves same_tables (deref_op i).
Proof. unfold deref_op. frame. Qed.

#[global] Hint Resolve slot_same_tables deref_op_same_tables : frame.

Lemma deref_same_tables p : preserves same_tables (deref p).
Proof. unfold deref. frame. Qed.

Lemma pmbus_read_byte_data_same_tables code :
  preserves same_tables (pmbus_read_byte_data code).
Proof. unfold pmbus_read_byte_data. frame. Qed.

Lemma pmbus_read_word_data_same_tables code :
  preserves same_tables (pmbus_read_word_data code).
Proof. unfold pmbus_read_word_data. frame. Qed.

#[global] Hint Resolve deref_same_tables pmbus_read_byte_data_same_tables
  pmbus_read_word_data_same_tables : frame.

Lemma vout_mode_is_linear_same_tables : preserves same_tables vout_mode_is_linear.
Proof. unfold vout_mode_is_linear. frame. Qed.

Lemma pmbus_to_vout_format_same_tables value :
  preserves same_tables (pmbus_to_vout_format value).
Proof. unfold pmbus_to_vout_format. frame. Qed.

#[global] Hint Resolve vout_mode_is_linear_same_tables
  pmbus_to_vout_format_same_tables : frame.

Lemma is_vout_format_same_tables d : preserves same_tables (is_vout_format d).
Proof. unfold is_vout_format. frame. Qed.

#[global] Hint Resolve is_vout_format_same_tables : frame.

Lemma show_command_same_tables i : preserves same_tables (show_command i).
Proof. unfold show_command. frame. Qed.

Lemma show_value_same_tables i : preserves same_tables (show_value i).
Proof. unfold show_value. frame. Qed.

(** A loop faults when one of its rounds faults in every state that the
    rounds before it can leave. *)
Lemma for_each_fault {A} (P : world -> Prop) (body : A -> M unit) (x : A) :
  (forall y w a w', P w -> body y w = Done a w' -> P w') ->
  (forall w, P w -> body x w = Fault) ->
  forall l w, In x l -> P w -> for_each l body w = Fault.
Proof.
  intros Hstep Hx. induction l as [|y l IH]; intros w Hin HP; [destruct Hin |].
  simpl. unfold bind.
  destruct (body y w) as [a w'|] eqn:E; [| reflexivity].
  destruct Hin as [->|Hin].
  - rewrite Hx in E by exact HP. discriminate.
  - apply IH; [exact Hin | eapply Hstep; eassumption].
Qed.

Lemma slot_value code w :
  0 <= code < 256 -> slot code w = Done (op (pmdev w) !! code) w.
Proof.
  intros H. unfold slot.
  rewrite (proj2 (Z.leb_le _ _)), (proj2 (Z.ltb_lt _ _)) by lia. reflexivity.
Qed.

Lemma vout_mode_is_linear_null w :
  op (pmdev w) !! PMB_VOUT_MODE = None -> vout_mode_is_linear w = Fault.
Proof.
  intros H. unfold vout_mode_is_linear.
  rewrite (bind_eq _ _ _ _ _ (slot_value PMB_VOUT_MODE w ltac:(unfold PMB_VOUT_MODE; lia))).
  rewrite H. reflexivity.
Qed.

Lemma vout_mode_is_linear_bound w p :
  op (pmdev w) !! PMB_VOUT_MODE = Some p ->
  (forall j, p = POp j -> is_Some (pmbus_ops w !! j)) ->
  exists b, vout_mode_is_linear w = Done b w.
Proof.
  intros H Hv. unfold vout_mode_is_linear.
  rewrite (bind_eq _ _ _ _ _ (slot_value PMB_VOUT_MODE w ltac:(unfold PMB_VOUT_MODE; lia))).
  rewrite H. destruct p as [|j].
  - rewrite bool_decide_eq_true_2 by reflexivity. eexists. reflexivity.
  - rewrite bool_decide_eq_false_2 by discriminate.
    destruct (Hv j eq_refl) as [d Hd].
    unfold deref, deref_op. rewrite bind_bind, bind_get, Hd, bind_ret.
    destruct (truthy _); eexists; reflexivity.
Qed.

Lemma in_slot_indices i : 0 <= i < 255 -> In i slot_indices.
Proof.
  intros H. unfold slot_indices. apply in_map_iff. exists (Z.to_nat i).
  split; [lia |]. apply in_seq. lia.
Qed.

Lemma show_command_null_vout w i j d :
  op (pmdev w) !! PMB_VOUT_MODE = None ->
  0 <= i < 255 ->
  op (pmdev w) !! i = Some (POp j) ->
  pmbus_ops w !! j = Some d ->
  type d = RW2 \/ type d = R2 ->
  flags d = FLG_FORMAT_VOUT ->
  show_command i w = Fault.
Proof.
  intros Hn Hi Hs Hd Ht Hf. unfold show_command.
  rewrite (bind_eq _ _ _ _ _ (slot_value i w ltac:(lia))), Hs.
  unfold deref_op at 1. rewrite bind_bind, bind_get, Hd, bind_ret.
  assert (Hv : is_vout_format d w = Fault).
  { unfold is_vout_format. rewrite Hf. apply vout_mode_is_linear_null, Hn. }
  destruct Ht as [-> | ->]; rewrite bind_bind, (bind_fault _ _ _ Hv);
    reflexivity.
Qed.

Lemma show_value_null_vout w i j d :
  op (pmdev w) !! PMB_VOUT_MODE = None ->
  0 <= i < 255 ->
  op (pmdev w) !! i = Some (POp j) ->
  pmbus_ops w !! j = Some d ->
  type d = RW2 \/ type d = R2 ->
  flags d = FLG_FORMAT_VOUT ->
  is_pmb_8bit (cmd d) = true ->
  (exists data, bus w (log w) (I2C_SMBUS_READ_WORD_DATA (cmd d)) = Ok data) ->
  show_value i w = Fault.
Proof.
  intros Hn Hi Hs Hd Ht Hf H8 [data Hr]. unfold show_value.
  rewrite (bind_eq _ _ _ _ _ (slot_value i w ltac:(lia))), Hs.
  unfold deref_op at 1. rewrite bind_bind, bind_get, Hd, bind_ret.
  rewrite Hf. change (truthy _) with false. cbv iota.
  assert (Hw : forall k,
    bind (pmbus_read_word_data (cmd d))
      (fun value => if value <? 0 then ret tt
                    else v <- is_vout_format d ;; k value v) w = Fault).
  { intros k. unfold pmbus_read_word_data.
    rewrite (pmb_8bit_not_extended _ H8), H8. change (negb true) with false.
    cbv iota. rewrite bind_bind, bind_ioctl, Hr, bind_ret.
    assert (Hpos : (word_of data <? 0) = false).
    { apply Z.ltb_ge. unfold word_of, byte_at, u8.
      apply Z.lor_nonneg. split; [apply Z.shiftl_nonneg |];
        apply Z.mod_pos_bound; lia. }
    rewrite Hpos. apply bind_fault.
    unfold is_vout_format. rewrite Hf. apply vout_mode_is_linear_null, Hn. }
  destruct Ht as [-> | ->]; apply Hw.
Qed.

(** C10.  With the VOUT_MODE slot still null, [vout_mode_is_linear]
    dereferences the null pointer.  The command report and the value
    report reach that access, and fault, as soon as some slot below 255
    is bound to a word-sized descriptor whose flags are exactly
    FLG_FORMAT_VOUT (for the value report, one whose word can be read).
    Binding the VOUT_MODE slot, to [&unsupported] or to an entry of the
    table, is what makes the access valid. *)
Theorem vout_mode_null_access (w : world)
    (Hnull : op (pmdev w) !! PMB_VOUT_MODE = None) :
  vout_mode_is_linear w = Fault
  /\ (forall i j d,
        0 <= i < 255 ->
        op (pmdev w) !! i = Some (POp j) ->
        pmbus_ops w !! j = Some d ->
        type d = RW2 \/ type d = R2 ->
        flags d = FLG_FORMAT_VOUT ->
        pmbus_dev_show_commands w = Fault)
  /\ (forall i j d,
        0 <= i < 255 ->
        op (pmdev w) !! i = Some (POp j) ->
        pmbus_ops w !! j = Some d ->
        type d = RW2 \/ type d = R2 ->
        flags d = FLG_FORMAT_VOUT ->
        is_pmb_8bit (cmd d) = true ->
        (forall h, exists data,
            bus w h (I2C_SMBUS_READ_WORD_DATA (cmd d)) = Ok data) ->
        pmbus_dev_show_values w = Fault)
  /\ (forall p,
        (forall j, p = POp j -> is_Some (pmbus_ops w !! j)) ->
        let w1 := set_pmdev (set_op (<[PMB_VOUT_MODE := p]> (op (pmdev w)))
                               (pmdev w)) w in
        exists b, vout_mode_is_linear w1 = Done b w1).
Proof.
  split; [apply vout_mode_is_linear_null, Hnull |]. split; [| split].
  - intros i j d Hi Hs Hd Ht Hf. unfold pmbus_dev_show_commands.
    apply (for_each_fault (same_tables w) show_command i).
    + intros y w1 a w2 HP H. transitivity w1; [exact HP |].
      eapply show_command_same_tables, H.
    + intros w1 (Hb & Hp & Ho).
      apply (show_command_null_vout w1 i j d); rewrite ?Hp, ?Ho; assumption.
    + apply in_slot_indices, Hi.
    + reflexivity.
  - intros i j d Hi Hs Hd Ht Hf H8 Hr. unfold pmbus_dev_show_values.
    apply (for_each_fault (same_tables w) show_value i).
    + intros y w1 a w2 HP H. transitivity w1; [exact HP |].
      eapply show_value_same_tables, H.
    + intros w1 (Hb & Hp & Ho).
      apply (show_value_null_vout w1 i j d); rewrite ?Hp, ?Ho, ?Hb;
        try assumption. apply Hr.
    + apply in_slot_indices, Hi.
    + reflexivity.
  - intros p Hv w1. apply (vout_mode_is_linear_bound w1 p).
    + unfold w1. simpl. apply lookup_insert_eq.
    + exact Hv.
Qed.

(** A device that reports every command as supported and readable, and
    answers every word read. *)
Definition eager_bus (h : list transaction) (rq : request) : response :=
  match rq with
  | I2C_SMBUS_PROC_CALL _ _ => Ok [1; 0xa0]
  | I2C_SMBUS_READ_WORD_DATA _ => Ok [1; 8]
  | _ => Failed 5
  end.

(** The state after that device was asked about VOUT_MAX only. *)
Definition vout_max_only_world : world :=
  world_after [CheckSupport 0x24]
    (initial_world eager_bus (fun _ => 0) false I2C_FUNC_I2C 0x10).

Lemma vout_mode_null_access_witness :
  vout_mode_is_linear vout_max_only_world = Fault
  /\ pmbus_dev_show_commands vout_max_only_world = Fault
  /\ pmbus_dev_show_values vout_max_only_world = Fault.
Proof.
  destruct (vout_mode_null_access vout_max_only_world eq_refl)
    as (H1 & H2 & H3 & _).
  split; [exact H1 |]. split.
  - apply (H2 0x24 23%nat
             (with_query_byte 0xa0
                (OP 0x24 "vout_max" RW2 VOLTS FLG_FORMAT_VOUT))).
    + lia.
    + reflexivity.
    + reflexivity.
    + left. reflexivity.
    + reflexivity.
  - apply (H3 0x24 23%nat
             (with_query_byte 0xa0
                (OP 0x24 "vout_max" RW2 VOLTS FLG_FORMAT_VOUT))).
    + lia.
    + reflexivity.
    + reflexivity.
    + left. reflexivity.
    + reflexivity.
    + reflexivity.
    + intros h. exists [1; 8]. reflexivity.
Defined.

(* ================================================================== *)
(** * Invariants of whole sessions *)

(** ** A relation kept by the primitives is kept by the engine *)

(** Everything but the sweep, from [checksupport] and the primitives. *)
Section NonSweep.
Context (R : world -> world -> Prop) `{!PreOrder R}.
Hypothesis R_ioctl : forall rq, preserves R (ioctl rq).
Hypothesis R_print : forall o, preserves R (print o).
Hypothesis R_capability : forall v,
  preserves R (modify (fun w => set_pmdev (set_capability v (pmdev w)) w)).
Hypothesis R_use_pec :
  preserves R (modify (fun w => set_pmdev (set_use_pec true (pmdev w)) w)).
Hypothesis R_revision : forall v,
  preserves R (modify (fun w => set_pmdev (set_revision v (pmdev w)) w)).
Hypothesis R_checksupport : forall code, preserves R (checksupport code).

#[local] Hint Resolve R_ioctl R_print R_capability R_use_pec R_revision
  R_checksupport : frame.

Lemma slot_respects code : preserves R (slot code).
Proof using PreOrder0. unfold slot. frame. Qed.

Lemma deref_op_respects i : preserves R (deref_op i).
Proof using PreOrder0. unfold deref_op. frame. Qed.

#[local] Hint Resolve slot_respects deref_op_respects : frame.

Lemma deref_respects p : preserves R (deref p).
Proof using PreOrder0. unfold deref. frame. Qed.

Lemma memcpy_respects dst src size off n :
  preserves R (memcpy dst src size off n).
Proof using PreOrder0. unfold memcpy. frame. Qed.

Lemma pmbus_read_byte_data_respects code :
  preserves R (pmbus_read_byte_data code).
Proof using PreOrder0 R_ioctl. unfold pmbus_read_byte_data. frame. Qed.

Lemma pmbus_read_word_data_respects code :
  preserves R (pmbus_read_word_data code).
Proof using PreOrder0 R_ioctl. unfold pmbus_read_word_data. frame. Qed.

Lemma smbus_quick_respects flag : preserves R (smbus_quick flag).
Proof using PreOrder0 R_ioctl. unfold smbus_quick. frame. Qed.

Lemma smbus_write_byte_respects byte : preserves R (smbus_write_byte byte).
Proof using PreOrder0 R_ioctl. unfold smbus_write_byte. frame. Qed.

#[local] Hint Resolve deref_respects memcpy_respects
  pmbus_read_byte_data_respects pmbus_read_word_data_respects
  smbus_quick_respects smbus_write_byte_respects : frame.

Lemma read_block_try_i2c_respects code read_len read_buf len retval :
  preserves R (read_block_try_i2c code read_len read_buf len retval).
Proof using PreOrder0 R_ioctl. unfold read_block_try_i2c. frame. Qed.

#[local] Hint Resolve read_block_try_i2c_respects : frame.

Lemma pmbus_read_block_respects code read_len read_buf :
  preserves R (pmbus_read_block code read_len read_buf).
Proof using PreOrder0 R_ioctl. unfold pmbus_read_block. frame. Qed.

Lemma vout_mode_is_linear_respects : preserves R vout_mode_is_linear.
Proof using PreOrder0. unfold vout_mode_is_linear. frame. Qed.

Lemma pmbus_to_vout_format_respects value :
  preserves R (pmbus_to_vout_format value).
Proof using PreOrder0. unfold pmbus_to_vout_format. frame. Qed.

#[local] Hint Resolve pmbus_read_block_respects vout_mode_is_linear_respects
  pmbus_to_vout_format_respects : frame.

Lemma is_vout_format_respects d : preserves R (is_vout_format d).
Proof using PreOrder0. unfold is_vout_format. frame. Qed.

#[local] Hint Resolve is_vout_format_respects : frame.

Lemma show_command_respects i : preserves R (show_command i).
Proof using PreOrder0 R_print. unfold show_command. frame. Qed.

Lemma show_value_respects i : preserves R (show_value i).
Proof using PreOrder0 R_print R_ioctl. unfold show_value. frame. Qed.

#[local] Hint Resolve show_command_respects show_value_respects : frame.

Lemma pmbus_dev_show_commands_respects : preserves R pmbus_dev_show_commands.
Proof using PreOrder0 R_print. unfold pmbus_dev_show_commands. frame. Qed.

Lemma pmbus_dev_show_values_respects : preserves R pmbus_dev_show_values.
Proof using PreOrder0 R_print R_ioctl. unfold pmbus_dev_show_values. frame. Qed.

Lemma pmbus_read_string_respects code : preserves R (pmbus_read_string code).
Proof using PreOrder0 R_ioctl R_checksupport.
  unfold pmbus_read_string. frame.
Qed.

#[local] Hint Resolve pmbus_dev_show_commands_respects
  pmbus_dev_show_values_respects pmbus_read_string_respects : frame.

Lemma pmbus_list_inventory_respects : preserves R pmbus_list_inventory.
Proof using PreOrder0 R_ioctl R_checksupport.
  unfold pmbus_list_inventory. frame.
Qed.

Lemma status_byte_respects code : preserves R (status_byte code).
Proof using PreOrder0 R_ioctl R_print R_checksupport.
  unfold status_byte. frame.
Qed.

#[local] Hint Resolve pmbus_list_inventory_respects status_byte_respects
  : frame.

Lemma show_status_details_respects value :
  preserves R (show_status_details value).
Proof using PreOrder0 R_ioctl R_print R_checksupport.
  unfold show_status_details, show_status_vout, show_status_iout,
    show_status_input, show_status_mfr_specific, show_status_fans,
    show_status_other, show_status_temperature, show_status_cml.
  frame.
Qed.

#[local] Hint Resolve show_status_details_respects : frame.

Lemma pmbus_dev_show_status_respects : preserves R pmbus_dev_show_status.
Proof using PreOrder0 R_ioctl R_print R_checksupport.
  unfold pmbus_dev_show_status. frame.
Qed.

Lemma pmbus_clear_fault_respects : preserves R pmbus_clear_fault.
Proof using PreOrder0 R_ioctl R_checksupport.
  unfold pmbus_clear_fault. frame.
Qed.

Lemma pmbus_dev_scan_respects : preserves R pmbus_dev_scan.
Proof using PreOrder0 R_ioctl R_capability R_use_pec R_revision
  R_checksupport.
  unfold pmbus_dev_scan, pmbus_quick. frame.
Qed.

#[local] Hint Resolve pmbus_dev_show_status_respects
  pmbus_clear_fault_respects pmbus_dev_scan_respects : frame.

Lemma run_op_respects o : sweeps o = false -> preserves R (run_op o).
Proof using PreOrder0 R_ioctl R_print R_capability R_use_pec R_revision
  R_checksupport.
  destruct o; intros [=]; unfold run_op; frame.
Qed.

Lemma run_respects l :
  forallb (fun o => negb (sweeps o)) l = true -> preserves R (run l).
Proof using PreOrder0 R_ioctl R_print R_capability R_use_pec R_revision
  R_checksupport.
  unfold run. induction l as [|o l IH]; simpl; intros H.
  - apply preserves_ret. exact _.
  - apply andb_prop in H as [Ho Hl]. apply negb_true_iff in Ho.
    apply preserves_bind; [exact _ | apply run_op_respects, Ho |].
    intros _. apply IH, Hl.
Qed.
End NonSweep.

(** The sweep too, from [query] and the primitives. *)
Section WithSweep.
Context (R : world -> world -> Prop) `{!PreOrder R}.
Hypothesis R_ioctl : forall rq, preserves R (ioctl rq).
Hypothesis R_print : forall o, preserves R (print o).
Hypothesis R_capability : forall v,
  preserves R (modify (fun w => set_pmdev (set_capability v (pmdev w)) w)).
Hypothesis R_use_pec :
  preserves R (modify (fun w => set_pmdev (set_use_pec true (pmdev w)) w)).
Hypothesis R_revision : forall v,
  preserves R (modify (fun w => set_pmdev (set_revision v (pmdev w)) w)).
Hypothesis R_query : forall i, preserves R (query i).

#[local] Hint Resolve R_ioctl R_print R_capability R_use_pec R_revision
  R_query : frame.
#[local] Hint Extern 1 (PreOrder _) => exact _ : frame.
#[local] Hint Resolve slot_respects deref_op_respects
  pmbus_read_block_respects : frame.

Lemma query_first_respects code k : forall i,
  preserves R (query_first code i k).
Proof using PreOrder0 R_query.
  induction k as [|k IH]; intros i; simpl; frame.
Qed.

#[local] Hint Resolve query_first_respects : frame.

Lemma checksupport_respects code : preserves R (checksupport code).
Proof using PreOrder0 R_query. unfold checksupport. frame. Qed.

Lemma query_all_respects k : forall i, preserves R (query_all i k).
Proof using PreOrder0 R_query.
  induction k as [|k IH]; intros i; simpl; frame.
Qed.

#[local] Hint Resolve checksupport_respects query_all_respects
  pmbus_list_inventory_respects : frame.

Lemma pmbus_dev_show_p1_respects : preserves R pmbus_dev_show_p1.
Proof using PreOrder0 R_ioctl R_query. unfold pmbus_dev_show_p1. frame. Qed.

Lemma run_op_respects_all o : preserves R (run_op o).
Proof using PreOrder0 R_ioctl R_print R_capability R_use_pec R_revision
  R_query.
  destruct (sweeps o) eqn:Ho.
  - destruct o; try discriminate. apply pmbus_dev_show_p1_respects.
  - apply run_op_respects; auto with frame.
Qed.

Lemma run_respects_all l : preserves R (run l).
Proof using PreOrder0 R_ioctl R_print R_capability R_use_pec R_revision
  R_query.
  unfold run. apply preserves_for_each; [exact _ |].
  apply run_op_respects_all.
Qed.
End WithSweep.

(** ** The slots and the table stay sound *)

(** The constant part of a descriptor: what the table's initialisers
    give. *)
Definition static_part (d : pmbus_cmd_desc)
    : option string * Z * pmbus_cmd_type * pmbus_unit_type * Z :=
  (tag d, cmd d, type d, units d, flags d).

(** The table kept its length and the constant part of every entry. *)
Definition same_catalog (w w' : world) : Prop :=
  map static_part (pmbus_ops w') = map static_part (pmbus_ops w).

(** No slot went back to null. *)
Definition never_unbinds (w w' : world) : Prop :=
  forall code, is_Some (op (pmdev w) !! code) ->
               is_Some (op (pmdev w') !! code).

(** Every bound slot lies in the array, and a slot bound to a descriptor
    holds a pointer to an entry of the table whose [cmd] is the slot's
    index. *)
Definition slots_sound (w : world) : Prop :=
  forall (code : Z) (p : desc_ptr),
    op (pmdev w) !! code = Some p ->
    0 <= code < 256
    /\ forall i, p = POp i ->
         exists d, pmbus_ops w !! i = Some d /\ cmd d = code.

Definition orderly (w w' : world) : Prop :=
  same_catalog w w'
  /\ never_unbinds w w'
  /\ (slots_sound w -> slots_sound w').

Global Instance orderly_preorder : PreOrder orderly.
Proof.
  split.
  - intros w. split; [reflexivity |]. split; [intros code H; exact H | auto].
  - intros a b c (H1 & H2 & H3) (H4 & H5 & H6).
    split; [unfold same_catalog in *; congruence |].
    split; [intros code H; auto | auto].
Qed.

Lemma same_catalog_lookup w w' i d :
  same_catalog w w' -> pmbus_ops w !! i = Some d ->
  exists d', pmbus_ops w' !! i = Some d' /\ static_part d' = static_part d.
Proof.
  unfold same_catalog. intros H Hd.
  assert (Hm : map static_part (pmbus_ops w) !! i = Some (static_part d)).
  { rewrite list_lookup_fmap, Hd. reflexivity. }
  rewrite <- H, list_lookup_fmap in Hm.
  destruct (pmbus_ops w' !! i) as [d'|]; [| discriminate].
  exists d'. split; [reflexivity |]. simpl in Hm. congruence.
Qed.

(** A step that leaves the slots alone and keeps the catalog. *)
Lemma table_step_orderly w w' :
  op (pmdev w') = op (pmdev w) -> same_catalog w w' -> orderly w w'.
Proof.
  intros Hop Hc. split; [exact Hc |]. split.
  - intros code H. rewrite Hop. exact H.
  - intros Hs code p Hp. rewrite Hop in Hp.
    destruct (Hs code p Hp) as [Hr Hi]. split; [exact Hr |].
    intros i ->. destruct (Hi i eq_refl) as (d & Hd & Hcmd).
    destruct (same_catalog_lookup w w' i d Hc Hd) as (d' & Hd' & Hst).
    exists d'. split; [exact Hd' |].
    unfold static_part in Hst. congruence.
Qed.

Lemma ioctl_orderly rq : preserves orderly (ioctl rq).
Proof. intros w r w' [= _ <-]. apply table_step_orderly; reflexivity. Qed.

Lemma modify_orderly (f : world -> world) :
  (forall w, op (pmdev (f w)) = op (pmdev w)) ->
  (forall w, pmbus_ops (f w) = pmbus_ops w) ->
  preserves orderly (modify f).
Proof.
  intros H1 H2 w [] w' [= <-]. apply table_step_orderly; [apply H1 |].
  unfold same_catalog. rewrite H2. reflexivity.
Qed.

Lemma update_op_orderly i f :
  (forall d, static_part (f d) = static_part d) ->
  preserves orderly (update_op i f).
Proof.
  intros Hf w [] w' H. unfold update_op, deref_op in H.
  rewrite bind_bind, bind_get in H.
  destruct (pmbus_ops w !! i) as [d|] eqn:Hd; [| discriminate].
  rewrite bind_ret in H. injection H as <-.
  apply table_step_orderly; [reflexivity |].
  unfold same_catalog. simpl. rewrite list_fmap_insert, Hf.
  apply list_insert_id. rewrite list_lookup_fmap, Hd. reflexivity.
Qed.

#[global] Hint Resolve ioctl_orderly : frame.
#[global] Hint Extern 1 (preserves orderly (modify _)) =>
  (apply modify_orderly; intros ?; reflexivity) : frame.
#[global] Hint Extern 1 (preserves orderly (update_op _ _)) =>
  (apply update_op_orderly; intros ?; reflexivity) : frame.
#[global] Hint Extern 1 (preserves orderly (print _)) =>
  (apply modify_orderly; intros ?; reflexivity) : frame.
#[global] Hint Extern 1 (preserves orderly mark_no_query) =>
  (apply modify_orderly; intros ?; reflexivity) : frame.

Lemma coefficients_orderly i read : preserves orderly (coefficients i read).
Proof.
  unfold coefficients. frame;
    first [apply deref_op_respects; exact _ | idtac].
Qed.

Lemma query_enrichment_orderly i d word :
  preserves orderly
    (coeff <- slot PMB_COEFFICIENTS ;;
     when ((Z.land (Z.shiftr word 2) 7 =? 3) && bool_decide (is_Some coeff))
       (when (truthy (Z.land word 0x20)) (coefficients i 1) ;;;
        when (truthy (Z.land word 0x40)) (coefficients i 0)) ;;;
     when (cmd d =? PMB_VOUT_MODE)
       (value <- pmbus_read_byte_data (cmd d) ;;
        update_op i (fun d =>
          with_c 0 (with_R (s8 value) (c0 d))
            (with_c 1 (with_R (s8 value) (c1 d)) d)))).
Proof.
  pose proof coefficients_orderly.
  pose proof (slot_respects orderly).
  pose proof (pmbus_read_byte_data_respects orderly ioctl_orderly).
  frame.
Qed.

Lemma bind_slot_orderly code p w a w' :
  (forall i, p = POp i -> exists d, pmbus_ops w !! i = Some d /\ cmd d = code) ->
  bind_slot code p w = Done a w' -> orderly w w'.
Proof.
  unfold bind_slot. intros Hp H.
  destruct ((0 <=? code) && (code <? 256)) eqn:Hr; [| discriminate].
  apply andb_prop in Hr as [Hr1%Z.leb_le Hr2%Z.ltb_lt].
  injection H as _ <-. split; [reflexivity |]. split.
  - intros c Hc. simpl. destruct (decide (code = c)) as [->|Hne].
    + rewrite lookup_insert_eq. eauto.
    + rewrite lookup_insert_ne by exact Hne. exact Hc.
  - intros Hs c q. simpl. destruct (decide (code = c)) as [->|Hne].
    + rewrite lookup_insert_eq. intros [= ->]. split; [lia | exact Hp].
    + rewrite lookup_insert_ne by exact Hne. apply Hs.
Qed.

Lemma query_orderly i : preserves orderly (query i).
Proof.
  intros w a w' H. unfold query in H.
  inv_bind H. unfold deref_op in E. rewrite bind_get in E.
  destruct (pmbus_ops w !! i) as [d|] eqn:Hd; [| discriminate].
  injection E as <- <-.
  destruct (cmd d >? 255); [injection H as _ <-; reflexivity |].
  cbv zeta in H. inv_bind H.
  transitivity w0; [eapply ioctl_orderly, E |].
  assert (Hd0 : pmbus_ops w0 !! i = Some d).
  { injection E as _ <-. exact Hd. }
  clear E Hd. revert H. generalize a w0 Hd0. clear a w0 Hd0 w.
  intros a w Hd H.
  destruct a0 as [e | data].
  { injection H as _ <-. apply table_step_orderly; reflexivity. }
  destruct (negb (Z.land (word_after _ data) 255 =? 1)).
  { injection H as _ <-. apply table_step_orderly; reflexivity. }
  destruct (negb (truthy _)).
  { eapply bind_slot_orderly; [| exact H]. discriminate. }
  inv_bind H.
  assert (Hd0 : exists d0, pmbus_ops w0 !! i = Some d0 /\ cmd d0 = cmd d).
  { unfold update_op, deref_op in E. rewrite bind_bind, bind_get, Hd in E.
    rewrite bind_ret in E. injection E as _ <-. simpl.
    eexists. split; [apply list_lookup_insert_eq |]; [| reflexivity].
    eapply lookup_lt_Some, Hd. }
  transitivity w0; [eapply update_op_orderly; [| exact E]; reflexivity |].
  inv_bind H.
  transitivity w1.
  { eapply bind_slot_orderly; [| exact E0]. intros j [= <-]. exact Hd0. }
  eapply query_enrichment_orderly, H.
Qed.

(** Every session keeps [orderly]. *)
Lemma run_orderly l : preserves orderly (run l).
Proof.
  apply run_respects_all; first [exact _ | intros].
  - apply ioctl_orderly.
  - apply modify_orderly; intros ?; reflexivity.
  - apply modify_orderly; intros ?; reflexivity.
  - apply modify_orderly; intros ?; reflexivity.
  - apply modify_orderly; intros ?; reflexivity.
  - apply query_orderly.
Qed.

(** X7.  In any session, the sweep included: the table keeps its length and
    the tag, code, type, units and flags of every entry; a bound slot
    never becomes null again; and when every bound slot lies in the array
    and points to an entry whose code is the slot's index at the start,
    so it does at the end.  The last holds in particular from the state
    [main] starts with, where no slot is bound. *)
Theorem session_keeps_slots_sound (w w' : world) (l : list session_op)
    (Hs : slots_sound w)
    (Hrun : run l w = Done tt w') :
  slots_sound w'
  /\ map static_part (pmbus_ops w') = map static_part (pmbus_ops w)
  /\ forall code, is_Some (op (pmdev w) !! code) ->
                  is_Some (op (pmdev w') !! code).
Proof.
  destruct (run_orderly l w tt w' Hrun) as (H1 & H2 & H3).
  split; [apply H3, Hs |]. split; [exact H1 | exact H2].
Qed.

Lemma initial_slots_sound dev junk pec f a :
  slots_sound (initial_world dev junk pec f a).
Proof. intros code p H. simpl in H. rewrite lookup_empty in H. discriminate. Qed.

Lemma session_keeps_slots_sound_witness :
  let w := initial_world eager_bus (fun _ => 0) false I2C_FUNC_I2C 0x10 in
  let w' := world_after [Scan; ShowP1; ShowStatus; ShowValues; ShowCommands] w in
  slots_sound w'
  /\ map static_part (pmbus_ops w') = map static_part (pmbus_ops w)
  /\ forall code, is_Some (op (pmdev w) !! code) ->
                  is_Some (op (pmdev w') !! code).
Proof.
  apply (session_keeps_slots_sound _ _
           [Scan; ShowP1; ShowStatus; ShowValues; ShowCommands]).
  - apply initial_slots_sound.
  - vm_compute. reflexivity.
Defined.

(** ** What a negotiation leaves behind *)

(** The high byte of the QUERY answer. *)
Definition query_answer (code : Z) (r : response) : Z :=
  match r with
  | Failed _ => 0
  | Ok data => Z.shiftr (word_after (query_word code) data) 8
  end.

(** What the device said of a descriptor: its constant part and the
    query byte. *)
Definition described (d : pmbus_cmd_desc)
    : option string * Z * pmbus_cmd_type * pmbus_unit_type * Z * Z :=
  (static_part d, query_byte d).

(** Only coefficients moved: same session record, same descriptions. *)
Definition enriched (w w' : world) : Prop :=
  pmdev w' = pmdev w
  /\ map described (pmbus_ops w') = map described (pmbus_ops w).

Global Instance enriched_preorder : PreOrder enriched.
Proof.
  split.
  - intros w. split; reflexivity.
  - intros a b c [H1 H2] [H3 H4]. split; congruence.
Qed.

Lemma ioctl_enriched rq : preserves enriched (ioctl rq).
Proof. intros w r w' [= _ <-]. split; reflexivity. Qed.

Lemma update_op_enriched i f :
  (forall d, described (f d) = described d) ->
  preserves enriched (update_op i f).
Proof.
  intros Hf w [] w' H. unfold update_op, deref_op in H.
  rewrite bind_bind, bind_get in H.
  destruct (pmbus_ops w !! i) as [d|] eqn:Hd; [| discriminate].
  rewrite bind_ret in H. injection H as <-. split; [reflexivity |].
  simpl. rewrite list_fmap_insert, Hf.
  apply list_insert_id. rewrite list_lookup_fmap, Hd. reflexivity.
Qed.

#[global] Hint Resolve ioctl_enriched : frame.
#[global] Hint Extern 1 (preserves enriched (update_op _ _)) =>
  (apply update_op_enriched; intros ?; reflexivity) : frame.

Lemma coefficients_enriched i read : preserves enriched (coefficients i read).
Proof.
  pose proof (deref_op_respects enriched).
  unfold coefficients. frame.
Qed.

Lemma query_enrichment_enriched i d word :
  preserves enriched
    (coeff <- slot PMB_COEFFICIENTS ;;
     when ((Z.land (Z.shiftr word 2) 7 =? 3) && bool_decide (is_Some coeff))
       (when (truthy (Z.land word 0x20)) (coefficients i 1) ;;;
        when (truthy (Z.land word 0x40)) (coefficients i 0)) ;;;
     when (cmd d =? PMB_VOUT_MODE)
       (value <- pmbus_read_byte_data (cmd d) ;;
        update_op i (fun d =>
          with_c 0 (with_R (s8 value) (c0 d))
            (with_c 1 (with_R (s8 value) (c1 d)) d)))).
Proof.
  pose proof coefficients_enriched.
  pose proof (slot_respects enriched).
  pose proof (pmbus_read_byte_data_respects enriched ioctl_enriched).
  frame.
Qed.

Lemma enriched_lookup w w' i d :
  enriched w w' -> pmbus_ops w !! i = Some d ->
  exists d', pmbus_ops w' !! i = Some d' /\ described d' = described d.
Proof.
  intros [_ H] Hd.
  assert (Hm : map described (pmbus_ops w) !! i = Some (described d)).
  { rewrite list_lookup_fmap, Hd. reflexivity. }
  rewrite <- H, list_lookup_fmap in Hm.
  destruct (pmbus_ops w' !! i) as [d'|]; [| discriminate].
  exists d'. split; [reflexivity |]. simpl in Hm. congruence.
Qed.

(** The three ways out of [query]. *)
Lemma query_cases i w d a w' :
  pmbus_ops w !! i = Some d ->
  cmd d <= 0xff ->
  query i w = Done a w' ->
  let r := query_reply w (cmd d) in
  let w1 := set_log (log w ++ [(I2C_SMBUS_PROC_CALL PMB_QUERY
                                  (query_word (cmd d)), r)]) w in
  (negotiation_fails (cmd d) r = true
   /\ w' = set_pmdev (set_no_query true (pmdev w)) w1)
  \/ (negotiation_fails (cmd d) r = false
      /\ truthy (Z.land (query_answer (cmd d) r) 0x80) = false
      /\ 0 <= cmd d
      /\ w' = set_pmdev (set_op (<[cmd d := PUnsupported]> (op (pmdev w)))
                           (pmdev w)) w1)
  \/ (negotiation_fails (cmd d) r = false
      /\ truthy (Z.land (query_answer (cmd d) r) 0x80) = true
      /\ 0 <= cmd d
      /\ enriched
           (set_pmdev (set_op (<[cmd d := POp i]> (op (pmdev w))) (pmdev w))
              (set_pmbus_ops
                 (<[i := with_query_byte (u8 (query_answer (cmd d) r)) d]>
                    (pmbus_ops w)) w1))
           w').
Proof.
  intros Hd Hc H r w1. unfold query in H.
  unfold deref_op at 1 in H. rewrite bind_bind, bind_get, Hd, bind_ret in H.
  destruct (cmd d >? 255) eqn:E; [apply Z.gtb_lt in E; lia |].
  cbv zeta in H. rewrite bind_ioctl in H.
  fold (query_reply w (cmd d)) in H. fold r in H. fold w1 in H.
  destruct r as [e|data] eqn:Hr.
  { left. split; [reflexivity |]. injection H as _ <-. reflexivity. }
  unfold negotiation_fails, query_answer.
  destruct (negb (Z.land (word_after _ data) 255 =? 1)).
  { left. split; [reflexivity |]. injection H as _ <-. reflexivity. }
  right.
  destruct (truthy (Z.land (word_after _ data ≫ 8) 128)); cbn [negb] in H.
  - right. split; [reflexivity |]. split; [reflexivity |].
    unfold update_op in H. unfold deref_op in H at 1.
    rewrite !bind_bind, bind_get in H. cbn [pmbus_ops set_log] in H.
    unfold w1 in H at 1. cbn [pmbus_ops set_log] in H.
    rewrite Hd, bind_ret, bind_modify in H.
    unfold bind_slot in H at 1.
    destruct ((0 <=? cmd d) && (cmd d <? 256)) eqn:Er;
      [| rewrite bind_fault_l in H; discriminate].
    apply andb_prop in Er as [Er1%Z.leb_le _]. split; [exact Er1 |].
    rewrite bind_modify in H.
    eapply query_enrichment_enriched, H.
  - left. split; [reflexivity |]. split; [reflexivity |].
    unfold bind_slot in H.
    destruct ((0 <=? cmd d) && (cmd d <? 256)) eqn:Er; [| discriminate].
    apply andb_prop in Er as [Er1%Z.leb_le _]. split; [exact Er1 |].
    injection H as _ <-. reflexivity.
Qed.

(** X5.  What [query] leaves behind, for an entry with an 8-bit code, by
    the word it holds after the process call.  On a failed negotiation
    (transport error, or low byte other than 1) it sets [no_query] and
    touches neither the slots nor the table.  When the high byte has bit
    7 clear it binds the slot of the entry's code to [&unsupported] and
    leaves the table alone.  Otherwise it binds that slot to the entry
    and stores the high byte as the entry's query byte, the constant part
    of the entry unchanged.  No other slot is written in either case.
    The bytes of the word that the adapter did not store are those of
    [(cmd << 8) | 1], which the code put there. *)
Theorem query_outcome (w w' : world) (i : nat) (d : pmbus_cmd_desc)
    (Hd : pmbus_ops w !! i = Some d)
    (Hc : cmd d <= 0xff)
    (Hrun : query i w = Done tt w') :
  let r := query_reply w (cmd d) in
  if negotiation_fails (cmd d) r then
    no_query (pmdev w') = true
    /\ op (pmdev w') = op (pmdev w)
    /\ pmbus_ops w' = pmbus_ops w
  else if truthy (Z.land (query_answer (cmd d) r) 0x80) then
    no_query (pmdev w') = no_query (pmdev w)
    /\ op (pmdev w') = <[cmd d := POp i]> (op (pmdev w))
    /\ exists d', pmbus_ops w' !! i = Some d'
                  /\ query_byte d' = u8 (query_answer (cmd d) r)
                  /\ static_part d' = static_part d
  else
    no_query (pmdev w') = no_query (pmdev w)
    /\ op (pmdev w') = <[cmd d := PUnsupported]> (op (pmdev w))
    /\ pmbus_ops w' = pmbus_ops w.
Proof.
  intros r.
  destruct (query_cases i w d tt w' Hd Hc Hrun)
    as [[Hf ->] | [(Hf & Hb & _ & ->) | (Hf & Hb & _ & He)]];
    fold r in Hf |- *; rewrite Hf; try (fold r in Hb; rewrite Hb).
  - repeat split.
  - repeat split.
  - fold r in He. destruct He as [Hp Ht]. rewrite Hp. simpl.
    split; [reflexivity |]. split; [reflexivity |].
    set (w3 := set_pmdev _ _) in *.
    assert (H3 : pmbus_ops w3 !! i
                 = Some (with_query_byte (u8 (query_answer (cmd d) r)) d)).
    { simpl. apply list_lookup_insert_eq. eapply lookup_lt_Some, Hd. }
    destruct (enriched_lookup w3 w' i _ (conj Hp Ht) H3) as (d' & Hd' & Hdd).
    exists d'. split; [exact Hd' |]. unfold described in Hdd.
    injection Hdd as E1 E2 E3 E4 E5 E6. split; [exact E6 |].
    unfold static_part. congruence.
Qed.

(** A device that supports VOUT_MODE and reads 0x17 from it. *)
Definition vout_mode_bus (h : list transaction) (rq : request) : response :=
  match rq with
  | I2C_SMBUS_PROC_CALL _ _ => Ok [1; 0xe0]
  | I2C_SMBUS_READ_BYTE_DATA _ => Ok [0x17]
  | _ => Failed 5
  end.

Definition vout_mode_world : world :=
  initial_world vout_mode_bus (fun _ => 0) false I2C_FUNC_I2C 0x10.

Lemma query_outcome_witness :
  let w' := match query 19 vout_mode_world with
            | Done _ w' => w'
            | Fault => vout_mode_world
            end in
  no_query (pmdev w') = false
  /\ op (pmdev w') = <[PMB_VOUT_MODE := POp 19]> ∅
  /\ exists d', pmbus_ops w' !! 19%nat = Some d'
                /\ query_byte d' = 0xe0
                /\ static_part d'
                   = static_part (OP PMB_VOUT_MODE "vout_mode" RW1 U_UNDEF 0).
Proof.
  apply (query_outcome vout_mode_world _ 19
           (OP PMB_VOUT_MODE "vout_mode" RW1 U_UNDEF 0)).
  - reflexivity.
  - vm_compute. discriminate.
  - vm_compute. reflexivity.
Defined.

(** What a byte read returns for a given answer of the bus. *)
Definition byte_result (r : response) : Z :=
  match r with
  | Failed e => - Z.pos e
  | Ok data => byte_at 0 data
  end.

(** X6.  When [query] finds VOUT_MODE supported, it ends with a byte read of
    VOUT_MODE and stores what that read returned, narrowed to a signed
    byte, as [R] of both coefficient slots of the descriptor: the two are
    equal, and when the read fails they hold the negated errno. *)
Theorem vout_mode_exponent_in_both_slots (w w' : world) (i : nat)
    (d : pmbus_cmd_desc)
    (Hd : pmbus_ops w !! i = Some d)
    (Hv : cmd d = PMB_VOUT_MODE)
    (Hrun : query i w = Done tt w')
    (Hok : negotiation_fails PMB_VOUT_MODE (query_reply w PMB_VOUT_MODE) = false)
    (Hsup : truthy (Z.land (query_answer PMB_VOUT_MODE (query_reply w PMB_VOUT_MODE)) 0x80)
            = true) :
  exists d' r,
    pmbus_ops w' !! i = Some d'
    /\ last (log w') = Some (I2C_SMBUS_READ_BYTE_DATA PMB_VOUT_MODE, r)
    /\ c_R (c0 d') = s8 (byte_result r)
    /\ c_R (c1 d') = s8 (byte_result r).
Proof.
  unfold query in Hrun.
  unfold deref_op at 1 in Hrun.
  rewrite bind_bind, bind_get, Hd, bind_ret, Hv in Hrun.
  change (PMB_VOUT_MODE >? 255) with false in Hrun. cbv iota zeta in Hrun.
  rewrite bind_ioctl in Hrun. fold (query_reply w PMB_VOUT_MODE) in Hrun.
  destruct (query_reply w PMB_VOUT_MODE) as [e|data] eqn:Hr; [discriminate |].
  unfold negotiation_fails in Hok. unfold query_answer in Hsup.
  rewrite Hok, Hsup in Hrun. cbn [negb] in Hrun.
  inv_bind Hrun. inv_bind Hrun. inv_bind Hrun. inv_bind Hrun.
  clear E E0 E1 E2.
  change (PMB_VOUT_MODE =? PMB_VOUT_MODE) with true in Hrun.
  unfold when, pmbus_read_byte_data in Hrun.
  change (is_pmb_extended PMB_VOUT_MODE) with false in Hrun.
  change (is_pmb_8bit PMB_VOUT_MODE) with true in Hrun.
  cbn [negb] in Hrun. cbv iota in Hrun.
  rewrite bind_bind, bind_ioctl in Hrun.
  set (r := bus w3 (log w3) (I2C_SMBUS_READ_BYTE_DATA PMB_VOUT_MODE)) in *.
  assert (Hres : forall (B : Type) (f : Z -> M B) w,
            bind (match r with
                  | Failed e => ret (- Z.pos e)
                  | Ok data => ret (byte_at 0 data)
                  end) f w = f (byte_result r) w).
  { intros B f w5. destruct r; reflexivity. }
  rewrite Hres in Hrun. unfold update_op, deref_op in Hrun.
  rewrite bind_bind, bind_get in Hrun. cbn [pmbus_ops set_log] in Hrun.
  destruct (pmbus_ops w3 !! i) as [d3|] eqn:Hd3; [| discriminate].
  rewrite bind_ret in Hrun. injection Hrun as <-.
  eexists. exists r. split; [| split; [| split]].
  - simpl. apply list_lookup_insert_eq. eapply lookup_lt_Some, Hd3.
  - simpl. apply last_snoc.
  - reflexivity.
  - reflexivity.
Qed.

Lemma vout_mode_exponent_in_both_slots_witness :
  let w' := match query 19 vout_mode_world with
            | Done _ w' => w'
            | Fault => vout_mode_world
            end in
  exists d' r,
    pmbus_ops w' !! 19%nat = Some d'
    /\ last (log w') = Some (I2C_SMBUS_READ_BYTE_DATA PMB_VOUT_MODE, r)
    /\ c_R (c0 d') = s8 (byte_result r)
    /\ c_R (c1 d') = s8 (byte_result r).
Proof.
  apply (vout_mode_exponent_in_both_slots vout_mode_world _ 19
           (OP PMB_VOUT_MODE "vout_mode" RW1 U_UNDEF 0)).
  - reflexivity.
  - reflexivity.
  - vm_compute. reflexivity.
  - reflexivity.
  - reflexivity.
Defined.

(** ** The sweep covers the table *)

(** Entry [i] of a table and every entry before it carry a tag: the
    sweep reaches entry [i]. *)
Definition listed (t : list pmbus_cmd_desc) (i : nat) : bool :=
  forallb (fun d => bool_decide (tag d <> None)) (take (S i) t).

Lemma listed_lookup t i j :
  listed t i = true -> (j <= i)%nat -> (i < length t)%nat ->
  exists d, t !! j = Some d /\ tag d <> None.
Proof.
  unfold listed. intros H Hj Hi.
  destruct (lookup_lt_is_Some_2 t j) as [d Hd]; [lia |].
  exists d. split; [exact Hd |].
  rewrite forallb_forall in H.
  assert (Hin : In d (take (S i) t)).
  { apply list_elem_of_In, list_elem_of_lookup. exists j.
    rewrite lookup_take_lt by lia. exact Hd. }
  apply H in Hin. apply bool_decide_eq_true_1 in Hin. exact Hin.
Qed.

Lemma query_all_orderly k i : preserves orderly (query_all i k).
Proof.
  apply query_all_respects; [exact _ | apply query_orderly].
Qed.

Lemma query_binds_or_gives_up i w d a w' :
  pmbus_ops w !! i = Some d ->
  cmd d <= 0xff ->
  query i w = Done a w' ->
  no_query (pmdev w') = false ->
  is_Some (op (pmdev w') !! cmd d).
Proof.
  intros Hd Hc H Hn.
  destruct (query_cases i w d a w' Hd Hc H)
    as [[_ ->] | [(_ & _ & _ & ->) | (_ & _ & _ & [Hp _])]].
  - discriminate.
  - simpl. rewrite lookup_insert_eq. eauto.
  - rewrite Hp. simpl. rewrite lookup_insert_eq. eauto.
Qed.

Lemma query_all_binds w0 k : forall i w a w',
  same_catalog w0 w ->
  query_all i k w = Done a w' ->
  no_query (pmdev w') = false ->
  forall j d,
    (i <= j)%nat ->
    pmbus_ops w0 !! j = Some d ->
    listed (pmbus_ops w0) j = true ->
    cmd d <= 0xff ->
    is_Some (op (pmdev w') !! cmd d).
Proof.
  induction k as [|k IH]; intros i w a w' Hc H Halive j d Hij Hd Hl Hcmd;
    simpl in H; rewrite bind_get in H.
  - destruct (no_query (pmdev w)) eqn:Hn; [| discriminate].
    injection H as _ <-. congruence.
  - destruct (no_query (pmdev w)) eqn:Hn; [injection H as _ <-; congruence |].
    unfold deref_op in H at 1. rewrite bind_bind, bind_get in H.
    destruct (pmbus_ops w !! i) as [di|] eqn:Hdi; [| discriminate].
    rewrite bind_ret in H.
    assert (Hlt : (j < length (pmbus_ops w0))%nat)
      by (eapply lookup_lt_Some, Hd).
    destruct (listed_lookup _ j i Hl Hij Hlt) as (d0 & Hd0 & Htag).
    destruct (same_catalog_lookup w0 w i d0 Hc Hd0) as (di' & Hdi' & Hst).
    rewrite Hdi in Hdi'. injection Hdi' as <-.
    assert (Ht : tag di = tag d0) by (unfold static_part in Hst; congruence).
    destruct (tag di) eqn:Etag; [| congruence].
    inv_bind H.
    assert (Hn1 : no_query (pmdev w1) = false).
    { destruct (no_query (pmdev w1)) eqn:E1; [| reflexivity].
      rewrite query_all_no_query in H by exact E1.
      injection H as _ <-. congruence. }
    destruct (decide (j = i)) as [->|Hne].
    + rewrite Hd in Hd0. injection Hd0 as <-.
      assert (Hcd : cmd di = cmd d) by (unfold static_part in Hst; congruence).
      assert (Hb : is_Some (op (pmdev w1) !! cmd di)).
      { eapply query_binds_or_gives_up; [exact Hdi | lia | exact E | exact Hn1]. }
      rewrite <- Hcd.
      apply (proj1 (proj2 (query_all_orderly _ _ _ _ _ H))). exact Hb.
    + assert (Hc1 : same_catalog w0 w1).
      { unfold same_catalog in *.
        rewrite <- Hc. apply (proj1 (query_orderly i w a0 w1 E)). }
      assert (Hle : (S i <= j)%nat) by lia.
      exact (IH (S i) w1 a w' Hc1 H Halive j d Hle Hd Hl Hcmd).
Qed.

(** X8.  When [pmbus_dev_show_p1] completes and QUERY has not been given up,
    the slot of every 8-bit code that the sweep reaches in the table is
    bound, to the descriptor or to [&unsupported]. *)
Theorem sweep_binds_every_entry (w w' : world) (i : nat)
    (d : pmbus_cmd_desc)
    (Hrun : pmbus_dev_show_p1 w = Done tt w')
    (Halive : no_query (pmdev w') = false)
    (Hd : pmbus_ops w !! i = Some d)
    (Hl : listed (pmbus_ops w) i = true)
    (Hc : cmd d <= 0xff) :
  is_Some (op (pmdev w') !! cmd d).
Proof.
  unfold pmbus_dev_show_p1 in Hrun.
  inv_bind Hrun. inv_bind Hrun. inv_bind Hrun. rewrite bind_get in Hrun.
  destruct (no_query (pmdev w2)) eqn:Hn; [injection Hrun as <-; congruence |].
  assert (Ho : orderly w w2).
  { assert (Hcs : forall code, preserves orderly (checksupport code)).
    { intros code. apply checksupport_respects; [exact _ | apply query_orderly]. }
    transitivity w0.
    { eapply pmbus_list_inventory_respects; [exact _ | apply ioctl_orderly
                                            | exact Hcs | exact E]. }
    transitivity w1; [eapply Hcs, E0 |].
    destruct (a0 =? 1); [| injection E1 as _ <-; reflexivity].
    unfold when in E1. rewrite bind_get in E1. inv_bind E1.
    injection E1 as _ <-.
    eapply pmbus_read_block_respects; [exact _ | apply ioctl_orderly | exact E2]. }
  eapply (query_all_binds w); [exact (proj1 Ho) | exact Hrun | exact Halive
                              | apply Nat.le_0_l | exact Hd | exact Hl | exact Hc].
Qed.

Definition eager_world : world :=
  initial_world eager_bus (fun _ => 0) false I2C_FUNC_I2C 0x10.

Lemma sweep_binds_every_entry_witness :
  is_Some (op (pmdev (world_after [ShowP1] eager_world)) !! PMB_VOUT_MODE).
Proof.
  apply (sweep_binds_every_entry eager_world
           (world_after [ShowP1] eager_world) 19
           (OP PMB_VOUT_MODE "vout_mode" RW1 U_UNDEF 0)).
  - vm_compute. reflexivity.
  - vm_compute. reflexivity.
  - reflexivity.
  - vm_compute. reflexivity.
  - vm_compute. discriminate.
Defined.

(** ** Command codes and the transport's argument checks *)

(** A test holds for [n] consecutive integers from [z]. *)
Fixpoint holds_from (P : Z -> bool) (z : Z) (n : nat) : bool :=
  match n with
  | O => true
  | S n' => P z && holds_from P (z + 1) n'
  end.

Lemma holds_from_spec P n : forall z x,
  holds_from P z n = true -> z <= x < z + Z.of_nat n -> P x = true.
Proof.
  induction n as [|n IH]; intros z x H Hx; [lia |].
  simpl in H. apply andb_prop in H as [H0 H1].
  destruct (Z.eq_dec x z) as [->|Hne]; [exact H0 |].
  apply (IH (z + 1)); [exact H1 | lia].
Qed.

Lemma code_classes_checked :
  holds_from (fun c =>
      Bool.eqb (is_pmb_8bit c) (c <=? 0xfd)
      && Bool.eqb (is_pmb_extended c) (0xfe00 <=? c)) 0 (Z.to_nat 65536)
  = true.
Proof. vm_compute. reflexivity. Qed.

Lemma code_classes code :
  0 <= code < 65536 ->
  is_pmb_8bit code = (code <=? 0xfd)
  /\ is_pmb_extended code = (0xfe00 <=? code).
Proof.
  intros H. pose proof (holds_from_spec _ _ 0 code code_classes_checked) as Hc.
  rewrite Z2Nat.id in Hc by lia. specialize (Hc ltac:(lia)). cbv beta in Hc.
  apply andb_prop in Hc as [H1 H2].
  apply Bool.eqb_prop in H1, H2. auto.
Qed.

(** X1.  For a 16-bit command code, the three read operations go to the bus
    only for the codes 0x00 to 0xfd.  For a code from 0xfe to 0xfdff
    they return -EINVAL and for a code from 0xfe00 on -ENOSYS, in both
    cases without a bus transaction and without a change of state;
    [pmbus_read_block] leaves the caller's buffer as it was. *)
Theorem reads_reject_codes_above_0xfd (w : world) (code read_len : Z)
    (buf : list Z)
    (Hcode : 0xfd < code < 65536)
    (Hlen : read_len <> 0) :
  let err := if code <? 0xfe00 then - EINVAL else - ENOSYS in
  pmbus_read_byte_data code w = Done err w
  /\ pmbus_read_word_data code w = Done err w
  /\ pmbus_read_block code read_len (Some buf) w = Done (err, buf) w.
Proof.
  destruct (code_classes code ltac:(lia)) as [H8 Hx].
  assert (E8 : is_pmb_8bit code = false).
  { rewrite H8. apply Z.leb_gt. lia. }
  unfold pmbus_read_byte_data, pmbus_read_word_data, pmbus_read_block.
  rewrite E8, Hx.
  destruct (read_len =? 0) eqn:E0; [apply Z.eqb_eq in E0; contradiction |].
  destruct (Z.leb_spec 0xfe00 code) as [Hge|Hlt].
  - rewrite (proj2 (Z.ltb_ge _ _) Hge). repeat split.
  - rewrite (proj2 (Z.ltb_lt _ _) Hlt). repeat split.
Qed.

Lemma reads_reject_codes_above_0xfd_witness :
  pmbus_read_byte_data 0xff01 dead_world = Done (- ENOSYS) dead_world
  /\ pmbus_read_word_data 0xff01 dead_world = Done (- ENOSYS) dead_world
  /\ pmbus_read_block 0xff01 8 (Some [1; 2; 3]) dead_world
     = Done (- ENOSYS, [1; 2; 3]) dead_world.
Proof.
  apply (reads_reject_codes_above_0xfd dead_world 0xff01 8 [1; 2; 3]).
  - lia.
  - lia.
Defined.

(** ** PEC around the length read *)

Definition is_pec_request (rq : request) : bool :=
  match rq with
  | I2C_PEC _ => true
  | _ => false
  end.

(** The log grew, by transactions that do not switch PEC. *)
Definition no_pec_switch (w w' : world) : Prop :=
  exists rest,
    log w' = log w ++ rest
    /\ forallb (fun t => negb (is_pec_request (fst t))) rest = true.

Global Instance no_pec_switch_preorder : PreOrder no_pec_switch.
Proof.
  split.
  - intros w. exists []. split; [symmetry; apply app_nil_r | reflexivity].
  - intros a b c (r1 & H1 & F1) (r2 & H2 & F2). exists (r1 ++ r2). split.
    + rewrite H2, H1. symmetry. apply app_assoc.
    + rewrite forallb_app. apply andb_true_intro. split; assumption.
Qed.

Lemma ioctl_no_pec_switch rq :
  is_pec_request rq = false -> preserves no_pec_switch (ioctl rq).
Proof.
  intros H w r w' [= <- <-]. eexists. split; [reflexivity |].
  simpl. rewrite H. reflexivity.
Qed.

#[global] Hint Extern 1 (preserves no_pec_switch (ioctl _)) =>
  (apply ioctl_no_pec_switch; reflexivity) : frame.

Lemma memcpy_no_pec_switch dst src size off n :
  preserves no_pec_switch (memcpy dst src size off n).
Proof. unfold memcpy. frame. Qed.

#[global] Hint Resolve memcpy_no_pec_switch : frame.

Lemma read_block_try_i2c_no_pec_switch code read_len read_buf len retval :
  preserves no_pec_switch
    (read_block_try_i2c code read_len read_buf len retval).
Proof. unfold read_block_try_i2c. frame. Qed.

#[global] Hint Resolve read_block_try_i2c_no_pec_switch : frame.

(** X3.  With PEC in use, when the byte read that discovers the block length
    succeeds, the transactions of [pmbus_read_block] begin with the
    request to switch PEC off, that byte read, and the request to switch
    PEC on; whatever follows, on the SMBus path or on the raw path and
    whether it succeeds or not, switches PEC no more. *)
Theorem read_block_brackets_length_read (w w' : world) (code read_len : Z)
    (buf b : list Z) (r : Z) (data : list Z)
    (Hpec : use_pec (pmdev w) = true)
    (Hlen : read_len <> 0)
    (H8 : is_pmb_8bit code = true)
    (Hread : bus w (log w ++ [(I2C_PEC false, bus w (log w) (I2C_PEC false))])
               (I2C_SMBUS_READ_BYTE_DATA code) = Ok data)
    (Hrun : pmbus_read_block code read_len (Some buf) w = Done (r, b) w') :
  exists r0 r1 rest,
    log w' = log w ++ (I2C_PEC false, r0)
                   :: (I2C_SMBUS_READ_BYTE_DATA code, Ok data)
                   :: (I2C_PEC true, r1) :: rest
    /\ forallb (fun t => negb (is_pec_request (fst t))) rest = true.
Proof.
  unfold pmbus_read_block in Hrun.
  destruct (read_len =? 0) eqn:E0; [apply Z.eqb_eq in E0; contradiction |].
  rewrite (pmb_8bit_not_extended code H8), H8 in Hrun.
  change (negb true) with false in Hrun. cbv iota in Hrun.
  rewrite bind_get, Hpec in Hrun. unfold when in Hrun at 1.
  rewrite !bind_bind, bind_ioctl, !bind_ret in Hrun.
  unfold pmbus_read_byte_data in Hrun at 1.
  rewrite (pmb_8bit_not_extended code H8), H8 in Hrun.
  change (negb true) with false in Hrun. cbv iota in Hrun.
  rewrite bind_bind, bind_ioctl in Hrun. cbn [bus log set_log] in Hrun.
  rewrite Hread, bind_ret in Hrun.
  assert (Hpos : (byte_at 0 data <? 0) = false).
  { apply Z.ltb_ge. unfold byte_at, u8. apply Z.mod_pos_bound. lia. }
  rewrite Hpos, bind_get in Hrun. cbn [pmdev set_log] in Hrun.
  rewrite Hpec in Hrun. unfold when in Hrun at 1.
  rewrite !bind_bind, bind_ioctl, !bind_ret in Hrun.
  cbn [bus log set_log] in Hrun.
  match type of Hrun with
  | ?m ?w3 = _ =>
      assert (Hrest : no_pec_switch w3 w');
        [assert (Hm : preserves no_pec_switch m); [| eapply Hm, Hrun] |]
  end.
  { cbn [pmdev funcs uninit set_log]. frame. }
  destruct Hrest as (rest & Hl & Hf). cbn [log set_log] in Hl.
  eexists _, _, rest. split; [| exact Hf].
  rewrite Hl, <- !app_assoc. reflexivity.
Qed.

(** A device whose MFR_ID block holds "ab", on an adapter with PEC. *)
Definition short_block_bus (h : list transaction) (rq : request) : response :=
  match rq with
  | I2C_PEC _ => Ok []
  | I2C_SMBUS_READ_BYTE_DATA _ => Ok [2]
  | I2C_RDWR _ _ _ => Ok [2; 97; 98]
  | _ => Failed 5
  end.

Definition short_block_world : world :=
  set_pmdev (set_use_pec true (initial_dev I2C_FUNC_I2C 0x10))
    (initial_world short_block_bus (fun _ => 0) true I2C_FUNC_I2C 0x10).

Lemma read_block_brackets_length_read_witness :
  exists r0 r1 rest,
    log (match pmbus_read_block PMB_MFR_ID 255 (Some (repeat 0 256))
                 short_block_world with
         | Done _ w' => w'
         | Fault => short_block_world
         end)
    = log short_block_world
      ++ (I2C_PEC false, r0) :: (I2C_SMBUS_READ_BYTE_DATA PMB_MFR_ID, Ok [2])
         :: (I2C_PEC true, r1) :: rest
    /\ forallb (fun t => negb (is_pec_request (fst t))) rest = true.
Proof.
  apply (read_block_brackets_length_read short_block_world _ PMB_MFR_ID 255
           (repeat 0 256) ([97; 98] ++ repeat 0 254) 2 [2]).
  - reflexivity.
  - lia.
  - reflexivity.
  - reflexivity.
  - vm_compute. reflexivity.
Defined.

(** ** The caller's buffer *)

Ltac inv_bind_as H E :=
  apply bind_done in H; destruct H as (? & ? & E & H).

Lemma memcpy_inv dst src size off n w b w' :
  memcpy dst src size off n w = Done b w' ->
  w' = w
  /\ (n <= length dst)%nat
  /\ b = map (fun k => src (off + k)%nat) (seq 0 n) ++ drop n dst.
Proof.
  unfold memcpy. destruct (_ && _) eqn:E; [| discriminate].
  intros [= <- <-]. apply andb_prop in E as [E1%Nat.leb_le _]. auto.
Qed.

(** How a block read may leave the buffer: [n] bytes written at its
    start, the rest and the size as they were. *)
Definition filled (n : nat) (buf b : list Z) : Prop :=
  length b = length buf /\ drop n b = drop n buf /\ (n <= length buf)%nat.

Lemma memcpy_filled dst src size off n w b w' :
  memcpy dst src size off n w = Done b w' -> filled n dst b.
Proof.
  intros (_ & Hn & ->)%memcpy_inv. unfold filled.
  rewrite length_app, length_map, length_seq, length_drop.
  split; [lia |]. split; [| exact Hn].
  rewrite drop_app_length'; [reflexivity |].
  rewrite length_map, length_seq. reflexivity.
Qed.

(** The outcomes of a block read: an error with the buffer untouched, the
    count [r] with [r] bytes written, or -E2BIG with [read_len] bytes
    written. *)
Definition block_outcome (read_len : Z) (buf : list Z) (rb : Z * list Z)
    : Prop :=
  (fst rb < 0 /\ snd rb = buf)
  \/ (0 <= fst rb <= read_len /\ filled (Z.to_nat (fst rb)) buf (snd rb))
  \/ (fst rb = - E2BIG /\ filled (Z.to_nat read_len) buf (snd rb)).

Lemma read_block_try_i2c_outcome code read_len buf len retval w rb w' :
  retval < 0 ->
  read_block_try_i2c code read_len buf len retval w = Done rb w' ->
  block_outcome read_len buf rb.
Proof.
  intros Hneg H. unfold read_block_try_i2c in H. rewrite bind_get in H.
  destruct (truthy _); [| injection H as <- _; left; split; [exact Hneg | reflexivity]].
  rewrite bind_ioctl in H.
  destruct (bus w (log w) _) as [e|data];
    [injection H as <- _; left; split; [simpl; lia | reflexivity] |].
  cbv zeta in H.
  match type of H with
  | context [stored ?d0 ?o 0%nat <=? read_len] => set (b0 := stored d0 o 0%nat) in *
  end.
  destruct (b0 <=? read_len) eqn:Ele; inv_bind_as H Hm; injection H as <- _;
    apply memcpy_filled in Hm.
  - apply Z.leb_le in Ele. destruct (Z.ltb_spec b0 0) as [Hn|Hp].
    + left. split; [exact Hn |]. simpl.
      replace (Z.to_nat b0) with 0%nat in Hm by lia.
      destruct Hm as (_ & Hm & _). rewrite !drop_0 in Hm. exact Hm.
    + right. left. split; [simpl; lia | exact Hm].
  - right. right. split; [reflexivity | exact Hm].
Qed.

Lemma pmbus_read_block_outcome code read_len buf w r b w' :
  pmbus_read_block code read_len (Some buf) w = Done (r, b) w' ->
  block_outcome read_len buf (r, b).
Proof.
  intros Hrun.
  unfold pmbus_read_block in Hrun.
  destruct (read_len =? 0); [injection Hrun as <- <- _; left; split; reflexivity |].
  destruct (is_pmb_extended code); [injection Hrun as <- <- _; left; split; reflexivity |].
  destruct (negb (is_pmb_8bit code));
    [injection Hrun as <- <- _; left; split; reflexivity |].
  rewrite bind_get in Hrun. inv_bind Hrun. inv_bind Hrun.
  destruct (a0 <? 0) eqn:En;
    [injection Hrun as <- <- _; left; split;
     [apply Z.ltb_lt, En | reflexivity] |].
  rewrite bind_get in Hrun. inv_bind Hrun.
  assert (Htry : forall retval w3,
            retval < 0 ->
            read_block_try_i2c code read_len buf a0 retval w3
            = Done (r, b) w' -> block_outcome read_len buf (r, b)).
  { intros retval w3 Hneg H3.
    eapply read_block_try_i2c_outcome; eassumption. }
  destruct (a0 >? I2C_SMBUS_BLOCK_MAX);
    [eapply Htry; [| exact Hrun]; reflexivity |].
  destruct (negb (truthy _));
    [eapply Htry; [| exact Hrun]; reflexivity |].
  rewrite bind_ioctl in Hrun.
  destruct (bus w2 (log w2) _) as [e|data];
    [eapply Htry; [| exact Hrun]; lia |].
  cbv zeta in Hrun.
  match type of Hrun with
  | context [stored ?d0 ?o 0%nat <=? read_len] =>
      set (b0 := stored d0 o 0%nat) in *
  end.
  destruct (b0 <=? read_len) eqn:Ele.
  - destruct (b0 >? 32); [eapply Htry; [| exact Hrun]; reflexivity |].
    inv_bind_as Hrun Hm. injection Hrun as <- <- _.
    apply memcpy_filled in Hm.
    apply Z.leb_le in Ele. destruct (Z.ltb_spec b0 0) as [Hn|Hp].
    + left. split; [exact Hn |]. simpl.
      replace (Z.to_nat b0) with 0%nat in Hm by lia.
      destruct Hm as (_ & Hm & _). rewrite !drop_0 in Hm. exact Hm.
    + right. left. split; [simpl; lia | exact Hm].
  - inv_bind_as Hrun Hm. injection Hrun as <- <- _.
    apply memcpy_filled in Hm.
    right. right. split; [reflexivity | exact Hm].
Qed.

(** X2.  [pmbus_read_block] never changes the size of the caller's buffer and
    writes only at its start: when it returns a count, the count is at
    most [read_len] and only that many bytes were written; when it
    returns -E2BIG, only the first [read_len] bytes were written; on
    every other error the buffer is untouched. *)
Theorem read_block_buffer_discipline (w w' : world) (code read_len : Z)
    (buf b : list Z) (r : Z)
    (Hrun : pmbus_read_block code read_len (Some buf) w = Done (r, b) w') :
  length b = length buf
  /\ (0 <= r -> r <= read_len
               /\ drop (Z.to_nat r) b = drop (Z.to_nat r) buf)
  /\ (r < 0 -> drop (Z.to_nat read_len) b = drop (Z.to_nat read_len) buf)
  /\ (r < 0 -> r <> - E2BIG -> b = buf).
Proof.
  pose proof (pmbus_read_block_outcome _ _ _ _ _ _ _ Hrun) as Ho.
  clear Hrun.
  destruct Ho as [[Hr Hb] | [[Hr (Hl & Hd & Hn)] | [Hr (Hl & Hd & Hn)]]];
    cbn [fst snd] in *.
  - subst b. split; [reflexivity |]. split; [intros; exfalso; lia |].
    split; reflexivity.
  - split; [exact Hl |]. split; [intros _; split; [lia | exact Hd] |].
    split; intros; exfalso; lia.
  - subst r. split; [exact Hl |].
    split; [intros H0; exfalso; unfold E2BIG in H0; lia |].
    split; [intros _; exact Hd | intros _ Hne; contradiction].
Qed.

Lemma read_block_buffer_discipline_witness :
  length ([97; 98] ++ repeat 0 254) = length (repeat 0 256)
  /\ (0 <= 2 -> 2 <= 255
               /\ drop (Z.to_nat 2) ([97; 98] ++ repeat 0 254)
                  = drop (Z.to_nat 2) (repeat 0 256))
  /\ (2 < 0 -> drop (Z.to_nat 255) ([97; 98] ++ repeat 0 254)
               = drop (Z.to_nat 255) (repeat 0 256))
  /\ (2 < 0 -> 2 <> - E2BIG -> [97; 98] ++ repeat 0 254 = repeat 0 256).
Proof.
  apply (read_block_buffer_discipline short_block_world
           (match pmbus_read_block PMB_MFR_ID 255 (Some (repeat 0 256))
                    short_block_world with
            | Done _ w' => w'
            | Fault => short_block_world
            end) PMB_MFR_ID 255).
  vm_compute. reflexivity.
Defined.

(* ================================================================== *)
(** * Absence of faults *)

(** ** Weakest preconditions *)

(** [m], run from [w], returns, and its result and final state satisfy
    [Q]. *)
Definition wp {A} (m : M A) (Q : A -> world -> Prop) (w : world) : Prop :=
  match m w with
  | Done a w' => Q a w'
  | Fault => False
  end.

(** [m] returns from every state that satisfies [P], in a state that
    satisfies [P]. *)
Definition steps {A} (P : world -> Prop) (m : M A) : Prop :=
  forall w, P w -> wp m (fun _ w' => P w') w.

Lemma wp_ret {A} (a : A) Q w : wp (ret a) Q w <-> Q a w.
Proof. reflexivity. Qed.

Lemma wp_bind {A B} (m : M A) (f : A -> M B) Q w :
  wp (bind m f) Q w <-> wp m (fun a w' => wp (f a) Q w') w.
Proof. unfold wp, bind. destruct (m w); reflexivity. Qed.

Lemma wp_get Q w : wp get Q w <-> Q w w.
Proof. reflexivity. Qed.

Lemma wp_mono {A} (m : M A) (Q Q' : A -> world -> Prop) w :
  (forall a w', Q a w' -> Q' a w') -> wp m Q w -> wp m Q' w.
Proof. unfold wp. destruct (m w); auto. Qed.

Lemma wp_done {A} (m : M A) Q w :
  wp m Q w <-> exists a w', m w = Done a w' /\ Q a w'.
Proof.
  unfold wp. split.
  - destruct (m w) as [a w'|]; [eauto | tauto].
  - intros (a & w' & -> & H). exact H.
Qed.

Lemma steps_ret {A} P (a : A) : steps P (ret a).
Proof. intros w H. exact H. Qed.

Lemma steps_bind {A B} P (m : M A) (f : A -> M B) :
  steps P m -> (forall a, steps P (f a)) -> steps P (bind m f).
Proof.
  intros Hm Hf w H. apply wp_bind. eapply wp_mono; [| apply Hm, H].
  intros a w' H'. apply Hf, H'.
Qed.

Lemma steps_get P : steps P get.
Proof. intros w H. exact H. Qed.

(** The continuation of [get] may rely on the state it was given. *)
Lemma steps_bind_get {B} P (f : world -> M B) :
  (forall w, P w -> wp (f w) (fun _ w' => P w') w) -> steps P (bind get f).
Proof. intros Hf w H. apply wp_bind, wp_get, Hf, H. Qed.

Lemma steps_when P (b : bool) (m : M unit) : steps P m -> steps P (when b m).
Proof. destruct b; [auto | intros _; apply steps_ret]. Qed.

Lemma steps_for_each {A} P (l : list A) (body : A -> M unit) :
  (forall x, In x l -> steps P (body x)) -> steps P (for_each l body).
Proof.
  induction l as [|x l IH]; intros Hb; simpl.
  - apply steps_ret.
  - apply steps_bind; [apply Hb; left; reflexivity |].
    intros _. apply IH. intros y Hy. apply Hb. right. exact Hy.
Qed.

Lemma steps_at {A} (P : world -> Prop) (m : M A) w :
  steps P m -> P w -> wp m (fun _ w' => P w') w.
Proof. intros H. apply H. Qed.

(** A property of the state that the log and the output do not enter. *)
Class Blind (P : world -> Prop) : Prop := {
  blind_log : forall w l, P w -> P (set_log l w);
  blind_out : forall w o, P w -> P (set_out o w)
}.

Lemma steps_ioctl P `{!Blind P} rq : steps P (ioctl rq).
Proof. intros w H. unfold wp, ioctl. apply blind_log, H. Qed.

Lemma steps_print P `{!Blind P} o : steps P (print o).
Proof. intros w H. unfold wp, print, modify. apply blind_out, H. Qed.

Ltac walk_step :=
  lazymatch goal with
  | |- steps _ (bind _ _) => apply steps_bind; [| intros ?]
  | |- steps _ (ret _) => apply steps_ret
  | |- steps _ get => apply steps_get
  | |- steps _ (when _ _) => apply steps_when
  | |- steps _ (ioctl _) => apply steps_ioctl; exact _
  | |- steps _ (print _) => apply steps_print; exact _
  | |- steps _ (if ?b then _ else _) => destruct b
  | |- steps _ (match ?x with _ => _ end) => destruct x
  end.

Ltac walk := repeat (first [walk_step | solve [eauto with frame]]).

Section Transport.
Context (P : world -> Prop) `{!Blind P}.

Lemma smbus_quick_steps flag : steps P (smbus_quick flag).
Proof using Blind0. unfold smbus_quick. walk. Qed.

Lemma pmbus_read_byte_data_steps code : steps P (pmbus_read_byte_data code).
Proof using Blind0. unfold pmbus_read_byte_data. walk. Qed.

Lemma pmbus_read_word_data_steps code : steps P (pmbus_read_word_data code).
Proof using Blind0. unfold pmbus_read_word_data. walk. Qed.

Lemma smbus_write_byte_steps byte : steps P (smbus_write_byte byte).
Proof using Blind0. unfold smbus_write_byte. walk. Qed.
End Transport.

Lemma steps_modify P (f : world -> world) :
  (forall w, P w -> P (f w)) -> steps P (modify f).
Proof. intros H w HP. apply H, HP. Qed.

(** ** The invariant of a session *)

(** The table has the entries of the catalog, up to what QUERY and
    COEFFICIENTS write into them. *)
Definition catalog_kept (w : world) : Prop :=
  map static_part (pmbus_ops w) = map static_part pmbus_ops_static.

(** Storage that was never written still holds bytes. *)
Definition bytes_junk (w : world) : Prop := forall k, 0 <= uninit w k < 256.

(** Entry [i] of the catalog is a voltage in the format VOUT_MODE
    selects. *)
Definition vout_flagged (i : nat) : bool :=
  match pmbus_ops_static !! i with
  | Some d => flags d =? FLG_FORMAT_VOUT
  | None => false
  end.

(** While a slot points to such an entry, the slot of VOUT_MODE is not
    null. *)
Definition vout_guarded (w : world) : Prop :=
  forall (c : Z) (j : nat),
    op (pmdev w) !! c = Some (POp j) ->
    vout_flagged j = true ->
    is_Some (op (pmdev w) !! PMB_VOUT_MODE).

Definition tidy (w : world) : Prop :=
  catalog_kept w /\ bytes_junk w /\ slots_sound w /\ vout_guarded w.

(** No entry of the catalog for [code] is a VOUT-format voltage. *)
Definition plain (code : Z) : bool :=
  forallb (fun d => negb ((cmd d =? code) && (flags d =? FLG_FORMAT_VOUT)))
          pmbus_ops_static.

(** A code [checksupport] may be asked about: within the slot array, or
    extended. *)
Definition in_slots (code : Z) : bool :=
  is_pmb_extended code || ((0 <=? code) && (code <? 256)).

Definition usable (code : Z) : bool := in_slots code && plain code.

Global Instance tidy_blind : Blind tidy.
Proof. split; intros w ? H; exact H. Qed.

(** *** Facts about the catalog *)

Lemma catalog_length : length pmbus_ops_static = 204%nat.
Proof. vm_compute. reflexivity. Qed.

Lemma catalog_cmds_fit :
  forallb (fun d => (0 <=? cmd d) && (cmd d <? 256)) pmbus_ops_static = true.
Proof. vm_compute. reflexivity. Qed.

Lemma catalog_terminated :
  exists d, pmbus_ops_static !! 203%nat = Some d /\ tag d = None.
Proof. eexists. split; reflexivity. Qed.

Lemma vout_flagged_late :
  forallb (fun i => negb (vout_flagged i) || (19 <? i)%nat) (seq 0 204) = true.
Proof. vm_compute. reflexivity. Qed.

Lemma catalog_kept_length w :
  catalog_kept w -> length (pmbus_ops w) = 204%nat.
Proof.
  intros H. apply (f_equal length) in H. rewrite !length_map in H.
  rewrite H. apply catalog_length.
Qed.

Lemma catalog_kept_lookup w i :
  catalog_kept w -> (i < 204)%nat ->
  exists d d0, pmbus_ops w !! i = Some d
               /\ pmbus_ops_static !! i = Some d0
               /\ static_part d = static_part d0.
Proof.
  intros H Hi.
  destruct (lookup_lt_is_Some_2 pmbus_ops_static i) as [d0 Hd0];
    [rewrite catalog_length; exact Hi |].
  destruct (lookup_lt_is_Some_2 (pmbus_ops w) i) as [d Hd];
    [rewrite catalog_kept_length by exact H; exact Hi |].
  exists d, d0. split; [exact Hd |]. split; [exact Hd0 |].
  assert (Hm : map static_part (pmbus_ops w) !! i = Some (static_part d)).
  { rewrite list_lookup_fmap, Hd. reflexivity. }
  rewrite H, list_lookup_fmap, Hd0 in Hm. simpl in Hm. congruence.
Qed.

Lemma catalog_kept_inside w i d :
  catalog_kept w -> pmbus_ops w !! i = Some d -> (i < 204)%nat.
Proof.
  intros H Hd. rewrite <- (catalog_kept_length w H).
  eapply lookup_lt_Some, Hd.
Qed.

Lemma catalog_cmd_fits i d0 :
  pmbus_ops_static !! i = Some d0 -> 0 <= cmd d0 < 256.
Proof.
  intros H. pose proof catalog_cmds_fit as Hall.
  rewrite forallb_forall in Hall.
  specialize (Hall d0). rewrite <- list_elem_of_In in Hall.
  specialize (Hall (list_elem_of_lookup_2 _ _ _ H)).
  apply andb_prop in Hall as [?%Z.leb_le ?%Z.ltb_lt]. lia.
Qed.

Lemma catalog_tag_none i d0 :
  pmbus_ops_static !! i = Some d0 -> tag d0 <> None -> (i < 203)%nat.
Proof.
  intros H Ht.
  assert (Hi : (i < 204)%nat).
  { rewrite <- catalog_length. eapply lookup_lt_Some, H. }
  destruct (decide (i = 203%nat)) as [-> | Hne]; [| lia].
  destruct catalog_terminated as (d & Hd & Hn). congruence.
Qed.

Lemma plain_unflagged code i d0 :
  plain code = true -> pmbus_ops_static !! i = Some d0 -> cmd d0 = code ->
  vout_flagged i = false.
Proof.
  intros Hp Hd Hc. unfold plain in Hp. rewrite forallb_forall in Hp.
  specialize (Hp d0). rewrite <- list_elem_of_In in Hp.
  specialize (Hp (list_elem_of_lookup_2 _ _ _ Hd)).
  unfold vout_flagged. rewrite Hd.
  apply negb_true_iff, andb_false_iff in Hp as [Hp | Hp]; [| exact Hp].
  apply Z.eqb_neq in Hp. contradiction.
Qed.

Lemma vout_flagged_after_vout_mode i :
  vout_flagged i = true -> (19 < i)%nat.
Proof.
  intros H. pose proof vout_flagged_late as Hall.
  rewrite forallb_forall in Hall.
  destruct (Nat.lt_ge_cases i 204) as [Hi | Hi].
  - specialize (Hall i). rewrite in_seq in Hall.
    specialize (Hall ltac:(lia)). rewrite H in Hall. simpl in Hall.
    apply Nat.ltb_lt in Hall. exact Hall.
  - lia.
Qed.

(** *** Access to the table never leaves it *)

Lemma wp_slot {B} code (f : option desc_ptr -> M B) Q w :
  0 <= code < 256 ->
  wp (f (op (pmdev w) !! code)) Q w -> wp (bind (slot code) f) Q w.
Proof.
  intros Hr H. apply wp_bind. unfold wp at 1.
  rewrite slot_value by exact Hr. exact H.
Qed.

Lemma wp_deref_op {B} i (f : pmbus_cmd_desc -> M B) Q w d :
  pmbus_ops w !! i = Some d ->
  wp (f d) Q w -> wp (bind (deref_op i) f) Q w.
Proof.
  intros Hd H. apply wp_bind. unfold wp at 1, deref_op.
  rewrite bind_get, Hd. exact H.
Qed.

Global Instance catalog_kept_blind : Blind catalog_kept.
Proof. split; intros w ? H; exact H. Qed.

Lemma slot_steps P code : 0 <= code < 256 -> steps P (slot code).
Proof. intros Hr w H. unfold wp. rewrite slot_value by exact Hr. exact H. Qed.

Lemma bind_slot_kept code p :
  0 <= code < 256 -> steps catalog_kept (bind_slot code p).
Proof.
  intros Hr. unfold bind_slot.
  rewrite (proj2 (Z.leb_le _ _)), (proj2 (Z.ltb_lt _ _)) by lia.
  apply steps_modify. intros w H. exact H.
Qed.

Lemma deref_op_kept i : (i < 204)%nat -> steps catalog_kept (deref_op i).
Proof.
  intros Hi w H. destruct (catalog_kept_lookup w i H Hi) as (d & _ & Hd & _).
  unfold wp, deref_op. rewrite bind_get, Hd. exact H.
Qed.

Lemma update_op_kept i f :
  (i < 204)%nat -> (forall d, static_part (f d) = static_part d) ->
  steps catalog_kept (update_op i f).
Proof.
  intros Hi Hf w H.
  destruct (catalog_kept_lookup w i H Hi) as (d & _ & Hd & _).
  unfold wp, update_op, deref_op. rewrite bind_bind, bind_get, Hd, bind_ret.
  unfold modify, catalog_kept. simpl.
  rewrite list_fmap_insert, Hf, list_insert_id; [exact H |].
  rewrite list_lookup_fmap, Hd. reflexivity.
Qed.

#[global] Hint Extern 1 (steps catalog_kept (update_op _ _)) =>
  (apply update_op_kept; [assumption | intros ?; reflexivity]) : frame.
#[global] Hint Extern 1 (steps catalog_kept (bind_slot _ _)) =>
  (apply bind_slot_kept; assumption) : frame.
#[global] Hint Extern 1 (steps catalog_kept (deref_op _)) =>
  (apply deref_op_kept; assumption) : frame.
#[global] Hint Extern 1 (steps _ (slot _)) =>
  (apply slot_steps;
   first [assumption
         | split; [apply Z.leb_le | apply Z.ltb_lt]; vm_compute; reflexivity])
  : frame.
#[global] Hint Extern 1 (steps _ (pmbus_read_byte_data _)) =>
  (apply pmbus_read_byte_data_steps; exact _) : frame.
#[global] Hint Extern 1 (steps _ (pmbus_read_word_data _)) =>
  (apply pmbus_read_word_data_steps; exact _) : frame.
#[global] Hint Extern 1 (steps _ (smbus_write_byte _)) =>
  (apply smbus_write_byte_steps; exact _) : frame.
#[global] Hint Extern 1 (steps _ (smbus_quick _)) =>
  (apply smbus_quick_steps; exact _) : frame.
#[global] Hint Extern 1 (steps catalog_kept mark_no_query) =>
  (apply steps_modify; intros ? ?; assumption) : frame.

Lemma coefficients_kept i read :
  (i < 204)%nat -> steps catalog_kept (coefficients i read).
Proof. intros Hi. unfold coefficients. cbv zeta. walk. Qed.

#[global] Hint Extern 1 (steps catalog_kept (coefficients _ _)) =>
  (apply coefficients_kept; assumption) : frame.

Lemma query_kept i : (i < 204)%nat -> steps catalog_kept (query i).
Proof.
  intros Hi w H. unfold query.
  destruct (catalog_kept_lookup w i H Hi) as (d & d0 & Hd & Hd0 & Hst).
  apply (wp_deref_op _ _ _ _ d Hd).
  assert (Hr : 0 <= cmd d < 256).
  { replace (cmd d) with (cmd d0)
      by (unfold static_part in Hst; congruence).
    eapply catalog_cmd_fits, Hd0. }
  apply steps_at; [| exact H]. clear Hd.
  destruct (cmd d >? 255); cbv zeta; walk.
Qed.

(** *** Uninitialised storage is only read *)

Definition same_junk (w w' : world) : Prop := uninit w' = uninit w.

Global Instance same_junk_preorder : PreOrder same_junk.
Proof.
  split.
  - intros w. reflexivity.
  - intros a b c H1 H2. unfold same_junk in *. congruence.
Qed.

Lemma modify_same_junk (f : world -> world) :
  (forall w, uninit (f w) = uninit w) -> preserves same_junk (modify f).
Proof. intros H w [] w' [= <-]. apply H. Qed.

Lemma ioctl_same_junk rq : preserves same_junk (ioctl rq).
Proof. intros w r w' [= _ <-]. reflexivity. Qed.

#[global] Hint Resolve ioctl_same_junk : frame.
#[global] Hint Extern 1 (preserves same_junk (modify _)) =>
  (apply modify_same_junk; intros ?; reflexivity) : frame.

Lemma query_same_junk i : preserves same_junk (query i).
Proof.
  unfold query, coefficients, update_op, bind_slot, slot, deref_op,
    mark_no_query, pmbus_read_byte_data.
  cbv zeta. frame.
Qed.

(** *** One negotiation keeps the invariant *)

Lemma query_guarded i w d a w' :
  pmbus_ops w !! i = Some d ->
  cmd d <= 0xff ->
  vout_flagged i = false \/ is_Some (op (pmdev w) !! PMB_VOUT_MODE) ->
  vout_guarded w ->
  query i w = Done a w' ->
  vout_guarded w'.
Proof.
  intros Hd Hc Hi Hg H.
  assert (Hins : forall p,
            (forall j, p = POp j -> j = i) ->
            forall c j,
              <[cmd d := p]> (op (pmdev w)) !! c = Some (POp j) ->
              vout_flagged j = true ->
              is_Some (<[cmd d := p]> (op (pmdev w)) !! PMB_VOUT_MODE)).
  { intros p Hp c j Hcj Hj.
    assert (Hvm : is_Some (op (pmdev w) !! PMB_VOUT_MODE)).
    { destruct (decide (cmd d = c)) as [<- | Hne].
      - rewrite lookup_insert_eq in Hcj. injection Hcj as ->.
        rewrite (Hp j eq_refl) in Hj.
        destruct Hi as [Hi | Hi]; [congruence | exact Hi].
      - rewrite lookup_insert_ne in Hcj by exact Hne. eapply Hg; eassumption. }
    destruct (decide (cmd d = PMB_VOUT_MODE)) as [-> | Hne].
    - rewrite lookup_insert_eq. eauto.
    - rewrite lookup_insert_ne by exact Hne. exact Hvm. }
  destruct (query_cases i w d a w' Hd Hc H)
    as [[_ ->] | [(_ & _ & _ & ->) | (_ & _ & _ & [Hp _])]].
  - exact Hg.
  - exact (Hins PUnsupported ltac:(discriminate)).
  - unfold vout_guarded. rewrite Hp.
    exact (Hins (POp i) ltac:(intros j [= <-]; reflexivity)).
Qed.

Lemma query_tidy i w :
  (i < 204)%nat ->
  vout_flagged i = false \/ is_Some (op (pmdev w) !! PMB_VOUT_MODE) ->
  tidy w ->
  exists w', query i w = Done tt w' /\ tidy w'.
Proof.
  intros Hi Hv (Hk & Hj & Hs & Hg).
  destruct (catalog_kept_lookup w i Hk Hi) as (d & d0 & Hd & Hd0 & Hst).
  assert (Hr : 0 <= cmd d < 256).
  { replace (cmd d) with (cmd d0)
      by (unfold static_part in Hst; congruence).
    eapply catalog_cmd_fits, Hd0. }
  pose proof (query_kept i Hi w Hk) as Hq.
  apply wp_done in Hq as ([] & w' & E & Hk').
  exists w'. split; [exact E |]. split; [exact Hk' |]. split; [| split].
  - intros k. rewrite (query_same_junk i w tt w' E). apply Hj.
  - destruct (query_orderly i w tt w' E) as (_ & _ & H). apply H, Hs.
  - eapply query_guarded; [exact Hd | lia | exact Hv | exact Hg | exact E].
Qed.

(** *** The loops over the table stop at its terminator *)

Lemma query_first_tidy code :
  plain code = true ->
  forall k i w,
    (i + k = 204)%nat -> (i <= 203)%nat -> tidy w ->
    wp (query_first code i k) (fun _ w' => tidy w') w.
Proof.
  intros Hp. induction k as [|k IH]; intros i w Hik Hi Ht; [lia |].
  simpl. apply wp_bind, wp_get.
  destruct (no_query (pmdev w)); [exact Ht |].
  destruct (catalog_kept_lookup w i (proj1 Ht) ltac:(lia))
    as (d & d0 & Hd & Hd0 & Hst).
  apply (wp_deref_op _ _ _ _ d Hd).
  assert (Htag : tag d = tag d0) by (unfold static_part in Hst; congruence).
  assert (Hcmd : cmd d = cmd d0) by (unfold static_part in Hst; congruence).
  destruct (tag d) as [s|] eqn:Es; [| exact Ht].
  destruct (cmd d =? code) eqn:Ec.
  - apply Z.eqb_eq in Ec.
    destruct (query_tidy i w ltac:(lia)) as (w' & E & Ht'); [| exact Ht |].
    + left. eapply plain_unflagged; [exact Hp | exact Hd0 | congruence].
    + apply wp_done. eauto.
  - apply IH; [lia | | exact Ht].
    assert (i < 203)%nat; [| lia].
    eapply catalog_tag_none; [exact Hd0 | congruence].
Qed.

Lemma checksupport_tidy code :
  usable code = true -> steps tidy (checksupport code).
Proof.
  intros Hu w Ht. apply andb_prop in Hu as [Hin Hp].
  unfold checksupport. unfold in_slots in Hin.
  destruct (is_pmb_extended code); [exact Ht |].
  simpl in Hin. apply andb_prop in Hin as [?%Z.leb_le ?%Z.ltb_lt].
  apply wp_bind, wp_get.
  destruct (_ || _); [exact Ht |].
  apply wp_slot; [lia |].
  apply wp_bind.
  apply wp_mono with (Q := fun _ w' => tidy w').
  - intros _ w' Ht'. apply wp_slot; [lia |]. exact Ht'.
  - destruct (bool_decide _); [| exact Ht].
    simpl. rewrite (catalog_kept_length w (proj1 Ht)).
    apply (query_first_tidy code Hp 204 0 w); [reflexivity | lia | exact Ht].
Qed.

Lemma query_all_tidy : forall k i w,
  (i + k = 204)%nat -> (i <= 203)%nat -> tidy w ->
  ((19 < i)%nat ->
   no_query (pmdev w) = true \/ is_Some (op (pmdev w) !! PMB_VOUT_MODE)) ->
  wp (query_all i k) (fun _ w' => tidy w') w.
Proof.
  induction k as [|k IH]; intros i w Hik Hi Ht Hv; [lia |].
  simpl. apply wp_bind, wp_get.
  destruct (no_query (pmdev w)) eqn:Hn; [exact Ht |].
  destruct (catalog_kept_lookup w i (proj1 Ht) ltac:(lia))
    as (d & d0 & Hd & Hd0 & Hst).
  apply (wp_deref_op _ _ _ _ d Hd).
  assert (Htag : tag d = tag d0) by (unfold static_part in Hst; congruence).
  assert (Hcmd : cmd d = cmd d0) by (unfold static_part in Hst; congruence).
  pose proof (catalog_cmd_fits i d0 Hd0) as Hfit.
  destruct (tag d) as [s|] eqn:Es; [| exact Ht].
  assert (Hlt : (i < 203)%nat).
  { eapply catalog_tag_none; [exact Hd0 | congruence]. }
  destruct (query_tidy i w ltac:(lia)) as (w' & E & Ht'); [| exact Ht |].
  { destruct (vout_flagged i) eqn:Ef; [right | left; reflexivity].
    apply vout_flagged_after_vout_mode in Ef.
    destruct (Hv Ef) as [? | ?]; [congruence | assumption]. }
  apply wp_bind. apply wp_done. exists tt, w'. split; [exact E |].
  apply IH; [lia | lia | exact Ht' |].
  intros Hi'.
  destruct (no_query (pmdev w')) eqn:Hn'; [left; reflexivity | right].
  destruct (decide (i = 19%nat)) as [-> | Hne].
  - replace PMB_VOUT_MODE with (cmd d).
    + eapply query_binds_or_gives_up; [exact Hd | lia | exact E | exact Hn'].
    + rewrite Hcmd. vm_compute in Hd0. injection Hd0 as <-. reflexivity.
  - destruct (Hv ltac:(lia)) as [? | Hb]; [congruence |].
    destruct (query_orderly i w tt w' E) as (_ & Hnu & _). apply Hnu, Hb.
Qed.

(** *** Block reads stay inside both arrays *)

Lemma memcpy_value dst src size off n w :
  (n <= length dst)%nat -> (off + n <= size)%nat ->
  memcpy dst src size off n w
  = Done (map (fun k => src (off + k)%nat) (seq 0 n) ++ drop n dst) w.
Proof.
  intros H1 H2. unfold memcpy.
  rewrite (proj2 (Nat.leb_le _ _) H1), (proj2 (Nat.leb_le _ _) H2).
  reflexivity.
Qed.

Lemma stored_byte data old k :
  0 <= old k < 256 -> 0 <= stored data old k < 256.
Proof.
  intros H. unfold stored. destruct (k <? length data)%nat; [| exact H].
  unfold byte_at, u8. apply Z.mod_pos_bound. lia.
Qed.

Section BlockReads.
Context (P : world -> Prop) `{!Blind P}.
Hypothesis P_junk : forall w, P w -> bytes_junk w.

Lemma read_block_try_i2c_steps code read_len buf len retval :
  (Z.to_nat read_len <= length buf)%nat ->
  steps P (read_block_try_i2c code read_len buf len retval).
Proof using Blind0.
  intros Hlen w HP. unfold read_block_try_i2c.
  apply wp_bind, wp_get.
  destruct (truthy _); [| exact HP].
  apply wp_bind. unfold wp at 1, ioctl.
  destruct (bus w (log w) _) as [e | data]; [apply blind_log, HP |].
  set (b := stored _ _).
  assert (Hb : 0 <= b O < 256).
  { apply stored_byte. change (0 <= Z.land code 255 < 256).
    change 255 with (Z.ones 8). rewrite Z.land_ones by lia.
    apply Z.mod_pos_bound. lia. }
  destruct (b O <=? read_len) eqn:E.
  - apply Z.leb_le in E. apply wp_bind. unfold wp at 1.
    rewrite memcpy_value by lia. apply blind_log, HP.
  - apply Z.leb_gt in E. apply wp_bind. unfold wp at 1.
    rewrite memcpy_value by lia. apply blind_log, HP.
Qed.

Lemma pmbus_read_block_steps code read_len buf :
  read_len <= 33 \/ 255 <= read_len ->
  (Z.to_nat read_len <= length buf)%nat ->
  steps P (pmbus_read_block code read_len (Some buf)).
Proof using Blind0 P_junk.
  intros Hrl Hlen w HP. unfold pmbus_read_block.
  destruct (read_len =? 0); [exact HP |].
  destruct (is_pmb_extended code); [exact HP |].
  destruct (negb (is_pmb_8bit code)); [exact HP |].
  apply wp_bind, wp_get. apply wp_bind.
  eapply wp_mono; [| apply (steps_at P); [| exact HP]]; [| walk].
  clear HP w. intros ? w HP. cbv beta in HP. apply wp_bind.
  eapply wp_mono;
    [| apply (steps_at P);
       [apply pmbus_read_byte_data_steps; exact _ | exact HP]].
  clear HP w. intros len w HP.
  destruct (len <? 0); [exact HP |].
  apply wp_bind, wp_get. apply wp_bind.
  pose proof (P_junk w HP) as Hjunk.
  unfold bytes_junk in Hjunk. revert Hjunk.
  generalize (uninit w) (funcs (pmdev w)). intros junk fn Hj.
  eapply wp_mono; [| apply (steps_at P); [| exact HP]]; [| walk].
  clear HP w. intros ? w HP. cbv beta in HP.
  destruct (len >? I2C_SMBUS_BLOCK_MAX);
    [apply steps_at; [apply read_block_try_i2c_steps, Hlen | exact HP] |].
  destruct (negb (truthy _));
    [apply steps_at; [apply read_block_try_i2c_steps, Hlen | exact HP] |].
  apply wp_bind. unfold wp at 1, ioctl.
  destruct (bus w (log w) _) as [e | data];
    [apply steps_at;
       [apply read_block_try_i2c_steps, Hlen | apply blind_log, HP] |].
  set (b := stored _ _).
  assert (Hb : 0 <= b O < 256) by (apply stored_byte, Hj).
  destruct (b O <=? read_len) eqn:E.
  - apply Z.leb_le in E. destruct (b O >? 32) eqn:E32.
    + apply steps_at;
        [apply read_block_try_i2c_steps, Hlen | apply blind_log, HP].
    + rewrite Z.gtb_ltb in E32. apply Z.ltb_ge in E32.
      apply wp_bind. unfold wp at 1.
      rewrite memcpy_value by lia. apply blind_log, HP.
  - apply Z.leb_gt in E. apply wp_bind. unfold wp at 1.
    rewrite memcpy_value by lia. apply blind_log, HP.
Qed.
End BlockReads.

Lemma tidy_junk w : tidy w -> bytes_junk w.
Proof. intros H. apply H. Qed.

(** *** The reports find what they dereference *)

Lemma is_vout_format_returns w c j d :
  tidy w ->
  op (pmdev w) !! c = Some (POp j) ->
  pmbus_ops w !! j = Some d ->
  exists b, is_vout_format d w = Done b w
            /\ (b = true -> is_Some (op (pmdev w) !! PMB_VOUT_MODE)).
Proof.
  intros (Hk & _ & Hs & Hg) Hc Hd. unfold is_vout_format.
  destruct (flags d =? FLG_FORMAT_VOUT) eqn:Ef;
    [| exists false; split; [reflexivity | discriminate]].
  assert (Hvm : is_Some (op (pmdev w) !! PMB_VOUT_MODE)).
  { apply (Hg c j Hc).
    destruct (catalog_kept_lookup w j Hk (catalog_kept_inside w j d Hk Hd))
      as (d' & d0 & Hd' & Hd0 & Hst).
    unfold vout_flagged. rewrite Hd0.
    replace (flags d0) with (flags d); [exact Ef |].
    unfold static_part in Hst. congruence. }
  destruct Hvm as [p Hp].
  destruct (vout_mode_is_linear_bound w p Hp) as [b Hb].
  - intros i ->. destruct (Hs _ _ Hp) as [_ Hi].
    destruct (Hi i eq_refl) as (di & Hdi & _). eauto.
  - exists b. split; [exact Hb | eauto].
Qed.

Lemma pmbus_to_vout_format_returns w value :
  tidy w -> is_Some (op (pmdev w) !! PMB_VOUT_MODE) ->
  exists x, pmbus_to_vout_format value w = Done x w.
Proof.
  intros (_ & _ & Hs & _) [p Hp]. unfold pmbus_to_vout_format.
  rewrite (bind_eq _ _ _ _ _
             (slot_value PMB_VOUT_MODE w ltac:(unfold PMB_VOUT_MODE; lia))).
  rewrite Hp. destruct p as [|i].
  - eexists. reflexivity.
  - destruct (Hs _ _ Hp) as [_ Hi].
    destruct (Hi i eq_refl) as (di & Hdi & _).
    unfold deref, deref_op. rewrite bind_bind, bind_get, Hdi, bind_ret.
    eexists. reflexivity.
Qed.

(** The invariant, with the slot and the entry a report is looking at. *)
Definition pinned (c : Z) (j : nat) (d : pmbus_cmd_desc) (w : world) : Prop :=
  tidy w /\ op (pmdev w) !! c = Some (POp j) /\ pmbus_ops w !! j = Some d.

Global Instance pinned_blind c j d : Blind (pinned c j d).
Proof. split; intros w ? H; exact H. Qed.

Lemma in_slot_indices_inv i : In i slot_indices -> 0 <= i < 255.
Proof.
  unfold slot_indices. rewrite in_map_iff. intros (n & <- & Hn).
  apply in_seq in Hn. lia.
Qed.

Lemma show_command_tidy i : 0 <= i < 255 -> steps tidy (show_command i).
Proof.
  intros Hi w Ht. unfold show_command. apply wp_slot; [lia |].
  destruct (op (pmdev w) !! i) as [[|j]|] eqn:Hp; try exact Ht.
  destruct (proj1 (proj2 (proj2 Ht)) _ _ Hp) as [_ Hj].
  destruct (Hj j eq_refl) as (d & Hd & _).
  apply (wp_deref_op _ _ _ _ d Hd). apply wp_bind.
  apply wp_mono with (Q := fun _ w' => tidy w').
  { intros fd w' Ht'. apply (steps_print tidy), Ht'. }
  destruct (is_vout_format_returns w i j d Ht Hp Hd) as (b & E & _).
  destruct (type d); try exact Ht;
    (apply wp_bind, wp_done; exists b, w; split; [exact E |];
     destruct b; exact Ht).
Qed.

Lemma show_value_tidy i : 0 <= i < 255 -> steps tidy (show_value i).
Proof.
  intros Hi w Ht. unfold show_value. apply wp_slot; [lia |].
  destruct (op (pmdev w) !! i) as [[|j]|] eqn:Hp; try exact Ht.
  destruct (proj1 (proj2 (proj2 Ht)) _ _ Hp) as [_ Hj].
  destruct (Hj j eq_refl) as (d & Hd & _).
  apply (wp_deref_op _ _ _ _ d Hd).
  destruct (truthy _); [exact Ht |].
  assert (Hword :
    wp (value <- pmbus_read_word_data (cmd d) ;;
        if value <? 0 then ret tt
        else
          v <- is_vout_format d ;;
          if v : bool then
            x <- pmbus_to_vout_format value ;;
            print (OutWord (cmd d) value (S_vout x))
          else print (OutWord (cmd d) value (decode_word d value)))
       (fun _ w' => tidy w') w).
  { apply wp_bind.
    eapply wp_mono;
      [| apply (steps_at (pinned i j d));
         [apply pmbus_read_word_data_steps; exact _
         | split; [exact Ht | split; [exact Hp | exact Hd]]]].
    intros value w1 (Ht1 & Hp1 & Hd1).
    destruct (value <? 0); [exact Ht1 |].
    destruct (is_vout_format_returns w1 i j d Ht1 Hp1 Hd1) as (b & E & Hvm).
    apply wp_bind, wp_done. exists b, w1. split; [exact E |].
    destruct b; [| apply (steps_print tidy), Ht1].
    destruct (pmbus_to_vout_format_returns w1 value Ht1 (Hvm eq_refl))
      as (x & Ex).
    apply wp_bind, wp_done. exists x, w1. split; [exact Ex |].
    apply (steps_print tidy), Ht1. }
  assert (Hbyte :
    wp (value <- pmbus_read_byte_data (cmd d) ;;
        if value <? 0 then ret tt
        else print (OutByte (cmd d) value))
       (fun _ w' => tidy w') w).
  { apply steps_at; [| exact Ht]. walk. }
  destruct (type d); first [exact Ht | exact Hword | exact Hbyte].
Qed.

Lemma pmbus_dev_show_commands_tidy : steps tidy pmbus_dev_show_commands.
Proof.
  unfold pmbus_dev_show_commands. apply steps_for_each.
  intros i Hin. apply show_command_tidy, in_slot_indices_inv, Hin.
Qed.

Lemma pmbus_dev_show_values_tidy : steps tidy pmbus_dev_show_values.
Proof.
  unfold pmbus_dev_show_values. apply steps_for_each.
  intros i Hin. apply show_value_tidy, in_slot_indices_inv, Hin.
Qed.

(** *** The operations of a session *)

#[global] Hint Extern 1 (steps tidy (checksupport _)) =>
  (apply checksupport_tidy; first [assumption | vm_compute; reflexivity])
  : frame.
#[global] Hint Extern 1 (steps tidy (modify _)) =>
  (apply steps_modify; intros ? ?; assumption) : frame.
#[global] Hint Extern 1 (steps tidy (pmbus_read_block _ _ _)) =>
  (apply (pmbus_read_block_steps tidy tidy_junk);
   [right; lia | rewrite ?repeat_length, ?length_map, ?length_seq; lia])
  : frame.

Lemma pmbus_read_string_tidy code :
  usable code = true -> steps tidy (pmbus_read_string code).
Proof. intros Hu. unfold pmbus_read_string. walk. Qed.

#[global] Hint Extern 1 (steps tidy (pmbus_read_string _)) =>
  (apply pmbus_read_string_tidy; first [assumption | vm_compute; reflexivity])
  : frame.

Lemma pmbus_list_inventory_tidy : steps tidy pmbus_list_inventory.
Proof. unfold pmbus_list_inventory. walk. Qed.

Lemma pmbus_dev_show_p1_tidy : steps tidy pmbus_dev_show_p1.
Proof.
  unfold pmbus_dev_show_p1.
  apply steps_bind; [apply pmbus_list_inventory_tidy | intros _].
  apply steps_bind; [walk | intros s].
  apply steps_bind; [walk | intros _].
  apply steps_bind_get. intros w Ht.
  destruct (no_query (pmdev w)) eqn:Hn; [exact Ht |].
  rewrite (catalog_kept_length w (proj1 Ht)).
  apply query_all_tidy; [reflexivity | lia | exact Ht | lia].
Qed.

Lemma status_byte_tidy code :
  usable code = true -> steps tidy (status_byte code).
Proof. intros Hu. unfold status_byte. walk. Qed.

#[global] Hint Extern 1 (steps tidy (status_byte _)) =>
  (apply status_byte_tidy; vm_compute; reflexivity) : frame.

Lemma show_status_details_tidy value : steps tidy (show_status_details value).
Proof.
  unfold show_status_details, show_status_vout, show_status_iout,
    show_status_input, show_status_mfr_specific, show_status_fans,
    show_status_other, show_status_temperature, show_status_cml.
  walk.
Qed.

#[global] Hint Resolve show_status_details_tidy : frame.

Lemma pmbus_dev_show_status_tidy : steps tidy pmbus_dev_show_status.
Proof. unfold pmbus_dev_show_status. walk. Qed.

Lemma pmbus_clear_fault_tidy : steps tidy pmbus_clear_fault.
Proof. unfold pmbus_clear_fault. walk. Qed.

Lemma pmbus_dev_scan_tidy : steps tidy pmbus_dev_scan.
Proof. unfold pmbus_dev_scan, pmbus_quick. walk. Qed.

Lemma pmbus_dev_show_tidy values cmds : steps tidy (pmbus_dev_show values cmds).
Proof.
  unfold pmbus_dev_show.
  apply steps_bind; [apply pmbus_dev_show_p1_tidy | intros _].
  apply steps_bind; [| intros _].
  - apply steps_when.
    apply steps_bind; [apply pmbus_dev_show_status_tidy | intros _].
    apply pmbus_dev_show_values_tidy.
  - apply steps_when, pmbus_dev_show_commands_tidy.
Qed.

(** The operations whose argument [main] or a caller chooses are asked
    about codes that are [usable]. *)
Definition admissible (o : session_op) : bool :=
  match o with
  | CheckSupport code | ReadString code => usable code
  | _ => true
  end.

Lemma run_op_tidy o : admissible o = true -> steps tidy (run_op o).
Proof.
  pose proof pmbus_dev_scan_tidy. pose proof pmbus_list_inventory_tidy.
  pose proof pmbus_dev_show_p1_tidy. pose proof pmbus_dev_show_status_tidy.
  pose proof pmbus_dev_show_values_tidy.
  pose proof pmbus_dev_show_commands_tidy. pose proof pmbus_clear_fault_tidy.
  destruct o; simpl admissible; intros Ha; unfold run_op;
    first [assumption | walk].
Qed.

Lemma run_tidy l : forallb admissible l = true -> steps tidy (run l).
Proof.
  intros H. unfold run. apply steps_for_each. intros o Ho.
  apply run_op_tidy. rewrite forallb_forall in H. apply H, Ho.
Qed.

Lemma initial_tidy dev junk pec f a :
  (forall k, 0 <= junk k < 256) -> tidy (initial_world dev junk pec f a).
Proof.
  intros Hj. split; [reflexivity |]. split; [exact Hj |].
  split; [apply initial_slots_sound |].
  intros c j H. simpl in H. rewrite lookup_empty in H. discriminate.
Qed.

(** X9.  From the state [main] starts with, on any adapter and with any
    device behind it, a session made of the scan, the reports, the
    inventory, the fault clearing and support checks or string reads of
    usable codes runs to its end: no access leaves the slot array, the
    table, the transfer buffers or the caller's buffers, and no null
    slot is dereferenced.  At the end every bound slot still points into
    the table and VOUT_MODE is bound whenever a VOUT-format entry is. *)
Theorem session_never_faults
    (dev : list transaction -> request -> response) (junk : nat -> Z)
    (pec : bool) (f a : Z) (l : list session_op)
    (Hjunk : forall k, 0 <= junk k < 256)
    (Hl : forallb admissible l = true) :
  exists w', run l (initial_world dev junk pec f a) = Done tt w'
             /\ slots_sound w' /\ vout_guarded w'.
Proof.
  pose proof (run_tidy l Hl _ (initial_tidy dev junk pec f a Hjunk)) as H.
  apply wp_done in H as ([] & w' & E & Ht).
  exists w'. split; [exact E |]. split; apply Ht.
Qed.

Lemma session_never_faults_witness :
  exists w',
    run [Scan; ShowP1; ShowStatus; ShowValues; ShowCommands; ClearFault;
         CheckSupport (PMB_MFR_SPECIFIC 3)]
      (initial_world eager_bus (fun _ => 0) false I2C_FUNC_I2C 0x10)
    = Done tt w'
    /\ slots_sound w' /\ vout_guarded w'.
Proof.
  apply session_never_faults.
  - intros k. lia.
  - vm_compute. reflexivity.
Defined.

(** X4.  [pmbus_read_block] returns whenever the caller's buffer holds
    [read_len] bytes, [read_len] is at most 33 or at least 255, and the
    storage the adapter did not write holds bytes: every copy stays
    within the transfer buffer it reads and within the caller's buffer,
    whatever the device and the adapter answer. *)
Theorem read_block_returns (w : world) (code read_len : Z) (buf : list Z)
    (Hjunk : forall k, 0 <= uninit w k < 256)
    (Hlen : read_len <= 33 \/ 255 <= read_len)
    (Hbuf : (Z.to_nat read_len <= length buf)%nat) :
  exists r b w', pmbus_read_block code read_len (Some buf) w = Done (r, b) w'.
Proof.
  assert (Hb : Blind bytes_junk) by (split; intros ? ? H; exact H).
  pose proof (pmbus_read_block_steps bytes_junk (fun _ H => H)
                code read_len buf Hlen Hbuf w Hjunk) as H.
  apply wp_done in H as ([r b] & w' & E & _). eauto.
Qed.

Lemma read_block_returns_witness :
  exists r b w',
    pmbus_read_block PMB_MFR_ID 255 (Some (repeat 0 256)) short_block_world
    = Done (r, b) w'.
Proof.
  apply read_block_returns.
  - intros k. simpl. lia.
  - right. lia.
  - simpl. lia.
Defined.

(* ================================================================== *)
(** * The decoders, in closed form *)

Lemma vout_exponent_checked :
  holds_from (fun x =>
      (if truthy (Z.land x 0x10)
       then - (- (Z.land x 0xf) + Z.land x (Z.lnot 0xf))
       else x) =? (x + 16) mod 32 - 16) 0 32 = true.
Proof. vm_compute. reflexivity. Qed.

Lemma vout_exponent_closed r : vout_exponent r = (r + 16) mod 32 - 16.
Proof.
  unfold vout_exponent. cbv zeta.
  change 31 with (Z.ones 5). rewrite Z.land_ones by lia.
  change (2 ^ 5) with 32.
  pose proof (Z.mod_pos_bound r 32 ltac:(lia)) as Hb.
  pose proof (holds_from_spec _ _ 0 (r mod 32) vout_exponent_checked
                ltac:(simpl; lia)) as H.
  cbv beta in H. apply Z.eqb_eq in H. rewrite H.
  rewrite Zplus_mod_idemp_l. reflexivity.
Qed.

(** X10.  The exponent [pmbus_to_vout_format] takes from the byte of VOUT_MODE
    is the byte's low five bits read as two's complement, a number from
    -16 to 15, and the value it returns for a word is, over the
    rationals, the word times two to that exponent: the doubling and the
    halving loops implement the LINEAR16 reading of the word, with the
    word taken as the [int] it is passed. *)
Theorem vout_decode_formula (r value : Z) :
  vout_exponent r = (r + 16) mod 32 - 16
  /\ -16 <= vout_exponent r <= 15
  /\ (vout_decode (D:=Q) r value
      == inject_Z value * 2 ^ vout_exponent r)%Q.
Proof.
  split; [apply vout_exponent_closed |]. split.
  { rewrite vout_exponent_closed.
    pose proof (Z.mod_pos_bound (r + 16) 32 ltac:(lia)). lia. }
  unfold vout_decode. cbv zeta.
  destruct (vout_exponent r >? 0) eqn:E.
  - rewrite Z.gtb_ltb in E. apply Z.ltb_lt in E.
    rewrite mul_loop_Q, Z2Nat.id by lia. reflexivity.
  - rewrite Z.gtb_ltb in E. apply Z.ltb_ge in E.
    rewrite div_loop_Q, Z2Nat.id by lia. cbn [of_int rational].
    rewrite Qpower_opp. unfold Qdiv. rewrite Qinv_involutive. reflexivity.
Qed.

(** The words on which the LINEAR decoder is right: the mantissa field
    is zero; or the mantissa is non-negative or is -512, and the
    exponent is neither -16 nor a positive one that leaves bits 8, 12,
    13 and 14 clear. *)
Definition linear_agrees (raw : Z) : bool :=
  (Z.land raw 0x07ff =? 0)
  || ((negb (Z.testbit raw 10) || (linear11_mantissa raw =? -512))
      && negb (linear11_exponent raw =? -16)
      && ((linear11_exponent raw <=? 0)
          || negb (Z.land raw 0x7100 =? 0))).

Lemma linear_agreement_checked :
  holds_from (fun raw =>
      Bool.eqb (Qeq_bool (linear_decode (D:=Q) raw) (linear11_value raw))
               (linear_agrees raw)) 0 (Z.to_nat 65536) = true.
Proof. vm_compute. reflexivity. Qed.

(** X11.  For a 16-bit word, the value the LINEAR decoder of
    [pmbus_dev_show_values] computes equals the LINEAR11 value of the word
    exactly when the mantissa field is zero, or when the mantissa is
    non-negative or -512, the exponent is not -16, and the exponent is at
    most zero or one of the bits 8, 12, 13, 14 of the word is set.  On
    every other word the decoder prints a different number. *)
Theorem linear_decode_agreement (raw : Z) (Hraw : 0 <= raw < 65536) :
  (linear_decode (D:=Q) raw == linear11_value raw)%Q
  <-> linear_agrees raw = true.
Proof.
  pose proof (holds_from_spec _ _ 0 raw linear_agreement_checked) as H.
  rewrite Z2Nat.id in H by lia. specialize (H ltac:(lia)). cbv beta in H.
  apply Bool.eqb_prop in H. rewrite <- H. symmetry. apply Qeq_bool_iff.
Qed.

Lemma linear_decode_agreement_witness :
  ((linear_decode (D:=Q) 0x0801 == linear11_value 0x0801)%Q
   <-> linear_agrees 0x0801 = true)
  /\ linear_agrees 0x0801 = false
  /\ linear_agrees 0xf00a = true.
Proof.
  split; [apply (linear_decode_agreement 0x0801); lia |].
  split; reflexivity.
Defined.

(* ================================================================== *)
(** * What the reports ask of the device *)

Definition is_data_read (rq : request) : bool :=
  match rq with
  | I2C_SMBUS_READ_BYTE_DATA _ | I2C_SMBUS_READ_WORD_DATA _ => true
  | _ => false
  end.

(** The session record and the table are as they were, and the log grew
    by byte and word reads only. *)
Definition only_reads (w w' : world) : Prop :=
  pmdev w' = pmdev w
  /\ pmbus_ops w' = pmbus_ops w
  /\ exists rest,
       log w' = log w ++ rest
       /\ forallb (fun t => is_data_read (fst t)) rest = true.

Global Instance only_reads_preorder : PreOrder only_reads.
Proof.
  split.
  - intros w. split; [reflexivity |]. split; [reflexivity |].
    exists []. split; [symmetry; apply app_nil_r | reflexivity].
  - intros a b c (H1 & H2 & r1 & H3 & F1) (H4 & H5 & r2 & H6 & F2).
    split; [congruence |]. split; [congruence |].
    exists (r1 ++ r2). split.
    + rewrite H6, H3. symmetry. apply app_assoc.
    + rewrite forallb_app. apply andb_true_intro. split; assumption.
Qed.

Lemma ioctl_only_reads rq :
  is_data_read rq = true -> preserves only_reads (ioctl rq).
Proof.
  intros H w r w' [= <- <-]. split; [reflexivity |]. split; [reflexivity |].
  eexists. split; [reflexivity |]. simpl. rewrite H. reflexivity.
Qed.

Lemma print_only_reads o : preserves only_reads (print o).
Proof.
  intros w [] w' [= <-]. split; [reflexivity |]. split; [reflexivity |].
  exists []. split; [symmetry; apply app_nil_r | reflexivity].
Qed.

Lemma show_value_only_reads i : preserves only_reads (show_value i).
Proof.
  pose proof (slot_respects only_reads).
  pose proof (deref_op_respects only_reads).
  pose proof (is_vout_format_respects only_reads).
  pose proof (pmbus_to_vout_format_respects only_reads).
  pose proof print_only_reads.
  assert (forall code, preserves only_reads
                         (ioctl (I2C_SMBUS_READ_BYTE_DATA code)))
    by (intros; apply ioctl_only_reads; reflexivity).
  assert (forall code, preserves only_reads
                         (ioctl (I2C_SMBUS_READ_WORD_DATA code)))
    by (intros; apply ioctl_only_reads; reflexivity).
  unfold show_value, pmbus_read_byte_data, pmbus_read_word_data. frame.
Qed.

(** The log is as it was too. *)
Definition silent (w w' : world) : Prop :=
  pmdev w' = pmdev w /\ pmbus_ops w' = pmbus_ops w /\ log w' = log w.

Global Instance silent_preorder : PreOrder silent.
Proof.
  split.
  - intros w. repeat split.
  - intros a b c (H1 & H2 & H3) (H4 & H5 & H6). repeat split; congruence.
Qed.

Lemma print_silent o : preserves silent (print o).
Proof. intros w [] w' [= <-]. repeat split. Qed.

(** X12.  The report of values sends the device byte reads and word reads and
    nothing else: no write, no process call, no block read, no change of
    PEC.  It changes neither the session record nor the table: what it
    prints is decoded from what QUERY left there. *)
Theorem show_values_only_reads (w w' : world)
    (Hrun : pmbus_dev_show_values w = Done tt w') :
  pmdev w' = pmdev w
  /\ pmbus_ops w' = pmbus_ops w
  /\ exists rest,
       log w' = log w ++ rest
       /\ forallb (fun t => is_data_read (fst t)) rest = true.
Proof.
  revert Hrun. apply (preserves_for_each only_reads).
  intros i. apply show_value_only_reads.
Qed.

(** The device the sweep has found to support every command. *)
Definition swept_world : world := world_after [Scan; ShowP1] eager_world.

Lemma show_values_only_reads_witness :
  pmdev (world_after [ShowValues] swept_world) = pmdev swept_world
  /\ pmbus_ops (world_after [ShowValues] swept_world) = pmbus_ops swept_world
  /\ exists rest,
       log (world_after [ShowValues] swept_world) = log swept_world ++ rest
       /\ forallb (fun t => is_data_read (fst t)) rest = true.
Proof.
  apply (show_values_only_reads swept_world
           (world_after [ShowValues] swept_world)).
  vm_compute. reflexivity.
Defined.

(** X13.  The listing of commands sends the device nothing: it prints from
    the slots and the table, and leaves both and the log as they
    were. *)
Theorem show_commands_is_silent (w w' : world)
    (Hrun : pmbus_dev_show_commands w = Done tt w') :
  log w' = log w /\ pmdev w' = pmdev w /\ pmbus_ops w' = pmbus_ops w.
Proof.
  destruct (pmbus_dev_show_commands_respects silent print_silent w tt w' Hrun)
    as (H1 & H2 & H3).
  auto.
Qed.

Lemma show_commands_is_silent_witness :
  log (world_after [ShowCommands] swept_world) = log swept_world
  /\ pmdev (world_after [ShowCommands] swept_world) = pmdev swept_world
  /\ pmbus_ops (world_after [ShowCommands] swept_world)
     = pmbus_ops swept_world.
Proof.
  apply (show_commands_is_silent swept_world
           (world_after [ShowCommands] swept_world)).
  vm_compute. reflexivity.
Defined.

(* ================================================================== *)
(** * Inventory strings *)

Lemma c_string_stops : forall (l : list Z) (n : nat),
  l !! n = Some 0 -> (length (c_string l) <= n)%nat.
Proof.
  induction l as [|x l IH]; intros n H; [discriminate |].
  simpl. destruct (x =? 0) eqn:E; [simpl; lia |].
  destruct n as [|n].
  - simpl in H. injection H as ->. discriminate.
  - simpl in H. apply IH in H. simpl. lia.
Qed.

Lemma lookup_repeat (x : Z) : forall (n i : nat),
  (i < n)%nat -> repeat x n !! i = Some x.
Proof.
  induction n as [|n IH]; intros i Hi; [lia |].
  destruct i as [|i]; [reflexivity |]. simpl. apply IH. lia.
Qed.

Lemma c_string_nonzero (l : list Z) : Forall (fun x => x <> 0) (c_string l).
Proof.
  induction l as [|x l IH]; simpl; [constructor |].
  destruct (x =? 0) eqn:E; [constructor |].
  constructor; [apply Z.eqb_neq, E | exact IH].
Qed.

(** X14.  A string [pmbus_read_string] returns was read by a block read that
    reported a positive count of at most 255, and it is no longer than
    that count: the zero bytes the buffer was cleared to, beyond the
    bytes the read copied, end the string inside the buffer.  It holds no
    zero byte. *)
Theorem read_string_ends_in_buffer (w w' : world) (code : Z) (s : list Z)
    (Hrun : pmbus_read_string code w = Done (Some s) w') :
  exists (r : Z) (b : list Z) (w1 : world),
    pmbus_read_block code 255 (Some (repeat 0 256)) w1 = Done (r, b) w'
    /\ 0 < r <= 255
    /\ s = c_string b
    /\ (length s <= Z.to_nat r)%nat
    /\ Forall (fun x => x <> 0) s.
Proof.
  unfold pmbus_read_string in Hrun. inv_bind Hrun.
  destruct (a =? 0); [discriminate |].
  inv_bind_as Hrun Hb. destruct x as [r b]. cbn [fst snd] in Hrun.
  destruct (r >? 0) eqn:Er; [| discriminate].
  injection Hrun as <- <-.
  rewrite Z.gtb_ltb in Er. apply Z.ltb_lt in Er.
  change (256 - 1) with 255 in Hb.
  exists r, b, w0. split; [exact Hb |].
  destruct (pmbus_read_block_outcome _ _ _ _ _ _ _ Hb)
    as [[Hr _] | [[Hr (Hl & Hd & Hn)] | [Hr _]]]; cbn [fst snd] in *;
    [lia | | unfold E2BIG in Hr; lia].
  split; [lia |]. split; [reflexivity |].
  split; [| apply c_string_nonzero].
  apply c_string_stops.
  assert (Hz : drop (Z.to_nat r) b !! 0%nat = Some 0).
  { rewrite Hd, lookup_drop, Nat.add_0_r. apply lookup_repeat. lia. }
  rewrite lookup_drop, Nat.add_0_r in Hz. exact Hz.
Qed.

Lemma read_string_ends_in_buffer_witness :
  exists (r : Z) (b : list Z) (w1 : world),
    pmbus_read_block PMB_MFR_ID 255 (Some (repeat 0 256)) w1
    = Done (r, b)
        (match pmbus_read_string PMB_MFR_ID short_block_world with
         | Done _ w' => w'
         | Fault => short_block_world
         end)
    /\ 0 < r <= 255
    /\ [97; 98] = c_string b
    /\ (length [97; 98] <= Z.to_nat r)%nat
    /\ Forall (fun x => x <> 0) [97; 98].
Proof.
  apply (read_string_ends_in_buffer short_block_world).
  vm_compute. reflexivity.
Defined.

(* ================================================================== *)
(** * Packet error checking is enabled by the scan alone *)

(** PEC settings as they were, and a log that only grew. *)
Definition same_session (w w' : world) : Prop :=
  use_pec (pmdev w') = use_pec (pmdev w)
  /\ capability (pmdev w') = capability (pmdev w)
  /\ enable_pec w' = enable_pec w
  /\ exists rest, log w' = log w ++ rest.

Global Instance same_session_preorder : PreOrder same_session.
Proof.
  split.
  - intros w. repeat split. exists []. symmetry. apply app_nil_r.
  - intros a b c (H1 & H2 & H3 & r1 & H4) (H5 & H6 & H7 & r2 & H8).
    split; [congruence |]. split; [congruence |]. split; [congruence |].
    exists (r1 ++ r2). rewrite H8, H4. symmetry. apply app_assoc.
Qed.

Lemma ioctl_same_session rq : preserves same_session (ioctl rq).
Proof. intros w r w' [= _ <-]. repeat split. eexists. reflexivity. Qed.

Lemma modify_same_session (f : world -> world) :
  (forall w, use_pec (pmdev (f w)) = use_pec (pmdev w)) ->
  (forall w, capability (pmdev (f w)) = capability (pmdev w)) ->
  (forall w, enable_pec (f w) = enable_pec w) ->
  (forall w, log (f w) = log w) ->
  preserves same_session (modify f).
Proof.
  intros H1 H2 H3 H4 w [] w' [= <-]. split; [apply H1 |].
  split; [apply H2 |]. split; [apply H3 |].
  exists []. rewrite H4. symmetry. apply app_nil_r.
Qed.

#[global] Hint Resolve ioctl_same_session : frame.
#[global] Hint Extern 1 (preserves same_session (modify _)) =>
  (apply modify_same_session; intros ?; reflexivity) : frame.

Lemma query_same_session i : preserves same_session (query i).
Proof.
  unfold query, coefficients, update_op, bind_slot, slot, deref_op,
    mark_no_query, pmbus_read_byte_data.
  cbv zeta. frame.
Qed.

Lemma checksupport_same_session code :
  preserves same_session (checksupport code).
Proof. apply checksupport_respects; [exact _ | apply query_same_session]. Qed.

Ltac inv_bind_to H a w E :=
  apply bind_done in H; destruct H as (a & w & E & H).

(** X15.  [pmbus_dev_scan] turns on the use of PEC only when the user asked
    for it, the byte the device returned for CAPABILITY has bit 7 set,
    and the adapter accepted the request to switch PEC on: then the scan
    returned 0, that byte is the capability it recorded, and the accepted
    request is in the log. *)
Theorem scan_enables_pec_only_when_asked (w w' : world) (r : Z)
    (Hoff : use_pec (pmdev w) = false)
    (Hrun : pmbus_dev_scan w = Done r w')
    (Hon : use_pec (pmdev w') = true) :
  r = 0
  /\ enable_pec w = true
  /\ Z.testbit (capability (pmdev w')) 7 = true
  /\ exists data, In (I2C_PEC true, Ok data) (log w').
Proof.
  assert (Hcs := checksupport_same_session).
  assert (Hrd := pmbus_read_byte_data_respects same_session
                   ioctl_same_session).
  unfold pmbus_dev_scan in Hrun. rewrite bind_get in Hrun.
  inv_bind_to Hrun st w0 Hq.
  assert (H0 : same_session w w0).
  { assert (Hp : preserves same_session
                   (if truthy (Z.land (funcs (pmdev w)) I2C_FUNC_SMBUS_QUICK)
                    then pmbus_quick else ret 0))
      by (unfold pmbus_quick, smbus_quick; frame).
    exact (Hp _ _ _ Hq). }
  destruct (st <? 0).
  { injection Hrun as _ <-. destruct H0 as (H0 & _). congruence. }
  inv_bind_to Hrun s1 w1 H1. apply Hcs in H1.
  inv_bind_to Hrun s2 w2 H2. apply Hcs in H2.
  inv_bind_to Hrun u3 w3 Hcap.
  assert (Hrest : same_session w3 w' /\ r = 0).
  { inv_bind_to Hrun s4 w4 H3. apply Hcs in H3.
    inv_bind_to Hrun u5 w5 H4. injection Hrun as <- <-.
    split; [| reflexivity]. transitivity w4; [exact H3 |].
    assert (Hp : preserves same_session
                   (when (negb (s4 =? 0))
                      (status <- pmbus_read_byte_data PMB_PMBUS_REVISION ;;
                       if status <? 0 then ret tt
                       else
                         modify (fun w =>
                           set_pmdev (set_revision (u8 status) (pmdev w)) w))))
      by frame.
    exact (Hp _ _ _ H4). }
  destruct Hrest as [Hrest ->]. split; [reflexivity |].
  assert (Hbefore : same_session w w2).
  { transitivity w0; [exact H0 |]. transitivity w1; assumption. }
  clear Hrun H0 H1 H2 Hq.
  destruct Hrest as (Hu & Hc & He & rest & Hl).
  destruct Hbefore as (Hu0 & _ & He0 & _).
  rewrite Hu in Hon. rewrite Hc. rewrite <- He0.
  assert (Hoff2 : use_pec (pmdev w2) = false) by congruence.
  clear Hu Hc He Hu0 He0 Hoff.
  unfold when in Hcap.
  destruct (negb (s2 =? 0)); [| injection Hcap as _ <-; congruence].
  inv_bind_to Hcap status wb Hb.
  assert (Hx : same_session w2 wb) by (eapply Hrd, Hb).
  assert (Hbyte : status < 0 \/ 0 <= status < 256).
  { unfold pmbus_read_byte_data in Hb.
    change (is_pmb_extended PMB_CAPABILITY) with false in Hb.
    change (is_pmb_8bit PMB_CAPABILITY) with true in Hb.
    cbn [negb] in Hb. cbv iota in Hb. rewrite bind_ioctl in Hb.
    destruct (bus w2 (log w2) _) as [e | data]; injection Hb as <- _.
    - left. lia.
    - right. unfold byte_at, u8. apply Z.mod_pos_bound. lia. }
  clear Hb.
  destruct (status <? 0) eqn:En.
  { injection Hcap as _ <-. destruct Hx as (Hx & _). congruence. }
  apply Z.ltb_ge in En.
  rewrite bind_modify, bind_get in Hcap. cbn [enable_pec set_pmdev] in Hcap.
  destruct (truthy (Z.land status (bit 7))) eqn:Hbit;
    [| injection Hcap as _ <-; destruct Hx as (Hx & _); simpl in Hon;
       congruence].
  destruct (enable_pec wb) eqn:Hen;
    [| injection Hcap as _ <-; destruct Hx as (Hx & _); simpl in Hon;
       congruence].
  cbn [andb] in Hcap. rewrite bind_ioctl in Hcap.
  cbn [bus log set_pmdev] in Hcap.
  destruct (bus wb (log wb) (I2C_PEC true)) as [e | data] eqn:Hpec;
    [injection Hcap as _ <-; destruct Hx as (Hx & _); simpl in Hon;
     congruence |].
  injection Hcap as _ <-.
  cbn [log set_log set_pmdev pmdev capability set_use_pec set_capability]
    in Hl |- *.
  destruct Hx as (_ & _ & Hex & _).
  split; [congruence |]. split.
  - unfold u8. rewrite Z.mod_small by lia.
    unfold truthy, bit in Hbit. apply negb_true_iff, Z.eqb_neq in Hbit.
    destruct (Z.testbit status 7) eqn:Ht; [reflexivity |].
    exfalso. apply Hbit. apply Z.bits_inj'. intros n Hn.
    rewrite Z.land_spec, Z.bits_0.
    change (Z.shiftl 1 7) with (2 ^ 7). rewrite Z.pow2_bits_eqb by lia.
    destruct (Z.eqb_spec 7 n) as [<- | Hne];
      [rewrite Ht; reflexivity | apply andb_false_r].
  - exists data. rewrite Hl. apply in_or_app. left.
    apply in_or_app. right. left. reflexivity.
Qed.

(** A device that advertises PEC, on an adapter that accepts it. *)
Definition pec_capable_bus (h : list transaction) (rq : request) : response :=
  match rq with
  | I2C_SMBUS_READ_BYTE_DATA _ => Ok [0x90]
  | I2C_PEC _ => Ok []
  | _ => Failed 5
  end.

Definition pec_capable_world : world :=
  initial_world pec_capable_bus (fun _ => 0) true I2C_FUNC_I2C 0x10.

Lemma scan_enables_pec_only_when_asked_witness :
  0 = 0
  /\ enable_pec pec_capable_world = true
  /\ Z.testbit (capability (pmdev (world_after [Scan] pec_capable_world))) 7
     = true
  /\ exists data,
       In (I2C_PEC true, Ok data) (log (world_after [Scan] pec_capable_world)).
Proof.
  apply (scan_enables_pec_only_when_asked pec_capable_world
           (world_after [Scan] pec_capable_world) 0).
  - reflexivity.
  - vm_compute. reflexivity.
  - vm_compute. reflexivity.
Defined.
